(** * TopicRelay broker: a shallow embedding of [src/server/server.cpp]

    The broker keeps two global tables, [connected_clients] and
    [topic_subscribers], and serves each connection from a thread running
    [client_handler].  This development embeds the string helpers, the two
    sanitizers, the five command handlers and the read loop, and states the
    properties of the broker's specification over them.  Of the client,
    [src/client/client.cpp], it embeds the command line processing in
    module [Client]: [process_command], the five handlers, [send_command]
    and [cleanup_connection].

    Conventions of the embedding:
    - a [std::string] is a [string] (a sequence of 8-bit characters);
      [std::string::npos] is [None];
    - a [std::shared_ptr<tcp::socket>] is a [conn], a number standing for the
      identity of the pointed-to socket ([s.get() == socket.get()]);
    - [std::unordered_map] is a [gmap]; [std::vector] is a [list];
    - a handler is a function from the broker's state to an outcome: normal
      return, a C++ exception in flight, or an undefined read;
    - handlers run one after the other: the state one run leaves is the state
      the next run starts from.  The interleaving of the connection threads is
      not modelled; of the locking, each run records the sequence of its lock
      and table events;
    - whether the peer of a socket is gone is decided by the environment and
      does not change during a run; on a socket whose peer is gone a write
      fails and so does reading the socket's endpoints for the log
      ([remote_endpoint] throws), on any other socket both succeed;
    - of the client, the state is its three globals and the bytes written to
      its socket so far; what it prints is left out, and so is the receiving
      thread. *)

From stdpp Require Import gmap strings list fin_maps pretty.
From Stdlib Require Import ZArith Ascii String.

Open Scope string_scope.

(** ** Characters and [std::string] operations *)

Module Str.

Local Open Scope Z_scope.

Definition tab : ascii := ascii_of_nat 9.
Definition newline : ascii := ascii_of_nat 10.
Definition space : ascii := ascii_of_nat 32.

(** Unsigned code of a character, 0..255. *)
Definition code (c : ascii) : Z := Z.of_N (N_of_ascii c).

(** Value of a [char] as the comparisons of the source see it.  [char] is
    signed on the platforms the broker is built for; bytes 0x80..0xFF are
    the negative values -128..-1. *)
Definition char_val (c : ascii) : Z :=
  if 128 <=? code c then code c - 256 else code c.

(** [strchr(set, c) != NULL] for the character sets handed to
    [find_first_not_of] and [find_last_not_of]. *)
Fixpoint in_set (c : ascii) (set : string) : bool :=
  match set with
  | EmptyString => false
  | String d rest => if Ascii.eqb c d then true else in_set c rest
  end.

(** [s.find(c)] *)
Fixpoint find (c : ascii) (s : string) : option nat :=
  match s with
  | EmptyString => None
  | String d rest => if Ascii.eqb d c then Some O else S <$> find c rest
  end.

(** [s.find_first_not_of(set)] *)
Fixpoint find_first_not_of (set s : string) : option nat :=
  match s with
  | EmptyString => None
  | String c rest =>
      if in_set c set then S <$> find_first_not_of set rest else Some O
  end.

(** [s.find_last_not_of(set)] *)
Fixpoint find_last_not_of (set s : string) : option nat :=
  match s with
  | EmptyString => None
  | String c rest =>
      match find_last_not_of set rest with
      | Some j => Some (S j)
      | None => if in_set c set then None else Some O
      end
  end.

(** [s.substr(pos, n)]; every call of the source has [pos <= s.size()], so
    the [std::out_of_range] case does not arise. *)
Definition substr (pos n : nat) (s : string) : string := substring pos n s.

(** [s.substr(pos)] *)
Definition substr_from (pos : nat) (s : string) : string :=
  substring pos (String.length s - pos) s.

(** [s.erase(std::remove(s.begin(), s.end(), c), s.end())] *)
Fixpoint erase_remove (c : ascii) (s : string) : string :=
  match s with
  | EmptyString => EmptyString
  | String d rest =>
      if Ascii.eqb d c then erase_remove c rest
      else String d (erase_remove c rest)
  end.

(** [std::all_of(s.begin(), s.end(), p)] *)
Fixpoint all_of (p : ascii -> bool) (s : string) : bool :=
  match s with
  | EmptyString => true
  | String c rest => p c && all_of p rest
  end.

(** [s.empty()] *)
Definition empty (s : string) : bool :=
  match s with EmptyString => true | _ => false end.

(** [::isalnum] in the "C" locale, which the broker never changes: the
    digits and the unaccented letters.  Bytes 0x80..0xFF are not
    alphanumeric. *)
Definition isalnum (c : ascii) : bool :=
  let n := code c in
  ((48 <=? n) && (n <=? 57)) || ((65 <=? n) && (n <=? 90))
  || ((97 <=? n) && (n <=? 122)).

(** [::isspace] in the "C" locale, used by [operator>>] to skip blanks. *)
Definition isspace (c : ascii) : bool :=
  let n := code c in
  (n =? 32) || ((9 <=? n) && (n <=? 13)).

Definition isdigit (c : ascii) : bool :=
  let n := code c in (48 <=? n) && (n <=? 57).

End Str.

(** ** The two sanitizers *)

Definition MAX_TOPIC_LENGTH : nat := 64.
Definition MAX_MESSAGE_LENGTH : nat := 1024.

(** The literal [" \t"] of the source. *)
Definition blanks : string := String Str.space (String Str.tab EmptyString).

(** [sanitize_topic]: the empty string is the rejection value. *)
Definition sanitize_topic (topic : string) : string :=
  match Str.find_first_not_of blanks topic, Str.find_last_not_of blanks topic with
  | Some first, Some last =>
      let clean_topic := Str.substr first (last - first + 1) topic in
      if Nat.ltb MAX_TOPIC_LENGTH (String.length clean_topic) then ""
      else if negb (Str.all_of Str.isalnum clean_topic) then ""
      else clean_topic
  | _, _ => ""
  end.

(** The test [c < 0x20 || c > 0x7E] of [sanitize_message], on a [char]. *)
Definition bad_char (c : ascii) : bool :=
  (Str.char_val c <? 32)%Z || (126 <? Str.char_val c)%Z.

(** The [for (char c : clean_message)] loop with its early return:
    [true] when some character makes the function return [""]. *)
Fixpoint has_bad_char (s : string) : bool :=
  match s with
  | EmptyString => false
  | String c rest => if bad_char c then true else has_bad_char rest
  end.

(** [sanitize_message]: the empty string is the rejection value. *)
Definition sanitize_message (message : string) : string :=
  match Str.find_first_not_of blanks message, Str.find_last_not_of blanks message with
  | Some first, Some last =>
      let clean_message := Str.substr first (last - first + 1) message in
      if Nat.ltb MAX_MESSAGE_LENGTH (String.length clean_message) then ""
      else if has_bad_char clean_message then ""
      else clean_message
  | _, _ => ""
  end.

(** ** Trimming as the specification words it

    These definitions follow the specification ("trims leading/trailing
    spaces and tabs"), not the source; the theorems on the sanitizers compare
    the two. *)

Module Spec.

Local Open Scope Z_scope.

Definition is_blank (c : ascii) : bool :=
  Ascii.eqb c Str.space || Ascii.eqb c Str.tab.

(** Drop the leading spaces and tabs. *)
Fixpoint ltrim (s : string) : string :=
  match s with
  | EmptyString => EmptyString
  | String c rest => if is_blank c then ltrim rest else s
  end.

(** Drop the trailing spaces and tabs. *)
Fixpoint rtrim (s : string) : string :=
  match s with
  | EmptyString => EmptyString
  | String c rest =>
      match rtrim rest with
      | EmptyString => if is_blank c then EmptyString else String c EmptyString
      | kept => String c kept
      end
  end.

Definition trim (s : string) : string := rtrim (ltrim s).

(** A byte of printable ASCII, 0x20..0x7E. *)
Definition printable (c : ascii) : bool :=
  (32 <=? Str.code c) && (Str.code c <=? 126).

(** The topic rule: non-empty, at most 64 characters, alphanumeric. *)
Definition topic_ok (t : string) : bool :=
  negb (Str.empty t) && Nat.leb (String.length t) 64 && Str.all_of Str.isalnum t.

(** The payload rule: non-empty, at most 1024 characters, printable. *)
Definition payload_ok (p : string) : bool :=
  negb (Str.empty p) && Nat.leb (String.length p) 1024 && Str.all_of printable p.

End Spec.

(** ** Parsing the arguments of CONNECT

    [iss >> client_port >> client_name >> client_pid] on the default "C"
    locale: each extraction skips leading blanks; an [int] is an optional
    sign and a non-empty run of decimal digits whose value fits 32 bits; a
    string is a non-empty run of non-blank characters.  What follows the
    third field is not looked at. *)

Module Parse.

Local Open Scope Z_scope.

Definition INT_MIN : Z := - 2 ^ 31.
Definition INT_MAX : Z := 2 ^ 31 - 1.

Fixpoint skip_ws (s : string) : string :=
  match s with
  | EmptyString => EmptyString
  | String c rest => if Str.isspace c then skip_ws rest else s
  end.

(** Longest prefix of characters satisfying [p], and the remainder. *)
Fixpoint span (p : ascii -> bool) (s : string) : string * string :=
  match s with
  | EmptyString => (EmptyString, EmptyString)
  | String c rest =>
      if p c then let '(run, tail) := span p rest in (String c run, tail)
      else (EmptyString, s)
  end.

Fixpoint decimal (acc : Z) (digits : string) : Z :=
  match digits with
  | EmptyString => acc
  | String c rest => decimal (10 * acc + (Str.code c - 48)) rest
  end.

(** [iss >> n] for [int n]: the value and the unread input, or failure. *)
Definition extract_int (s : string) : option (Z * string) :=
  let s1 := skip_ws s in
  let '(negative, s2) :=
    match s1 with
    | String c rest =>
        if Ascii.eqb c "-" then (true, rest)
        else if Ascii.eqb c "+" then (false, rest)
        else (false, s1)
    | EmptyString => (false, s1)
    end in
  let '(digits, rest) := span Str.isdigit s2 in
  if Str.empty digits then None
  else
    let v := if negative then - decimal 0 digits else decimal 0 digits in
    if (INT_MIN <=? v) && (v <=? INT_MAX) then Some (v, rest) else None.

(** [iss >> word] for [std::string word]. *)
Definition extract_word (s : string) : option (string * string) :=
  let '(word, rest) := span (fun c => negb (Str.isspace c)) (skip_ws s) in
  if Str.empty word then None else Some (word, rest).

(** The three chained extractions of [handle_connect]. *)
Definition connect_args (args : string) : option (Z * string * Z) :=
  '(client_port, r1) ← extract_int args;
  '(client_name, r2) ← extract_word r1;
  '(client_pid, _) ← extract_int r2;
  Some (client_port, client_name, client_pid).

End Parse.

(** [std::to_string(int)] *)
Definition to_string (n : Z) : string := pretty n.

(** ** The broker's state *)

(** Identity of a socket object. *)
Definition conn := nat.

Record ClientInfo := mkClientInfo {
  socket : conn;
  name : string;
  pid : Z
}.

(** What [get_client_metadata] fills in from the registry.  The address and
    the two ports come from the socket's endpoints and are left out; a field
    the source leaves unassigned for an unregistered socket is [None]. *)
Record ClientMetadata := mkClientMetadata {
  meta_name : string;
  client_pid : option Z
}.

Inductive mutex := client_mutex | topic_mutex.

Inductive table := ConnectedClients | TopicSubscribers.

(** What a handler does to the shared state, in program order; every entry
    carries the mutexes the running thread holds at that point. *)
Inductive event :=
| Lock (m : mutex) (held_before : list mutex)
| Unlock (m : mutex)
| Access (t : table) (held_now : list mutex).

(** One call of [boost::asio::write]: destination, bytes, and whether the
    write succeeded. *)
Record Write := mkWrite {
  to : conn;
  bytes : string;
  delivered : bool
}.

(** Lines on the broker's console. *)
Inductive Output :=
| Received (message : string)
| Action (action : string) (details : string) (client : ClientMetadata)
| ClientError.

Record World := mkWorld {
  connected_clients : gmap conn ClientInfo;
  topic_subscribers : gmap string (list conn);
  wire : list Write;
  console : list Output;
  held : list mutex;
  trace : list event;
  (** Sockets whose peer is gone: a write fails, and so does a read of the
      endpoints. *)
  broken : conn -> bool
}.

Global Instance mutex_eq_dec : EqDecision mutex.
Proof. solve_decision. Defined.

Global Instance table_eq_dec : EqDecision table.
Proof. solve_decision. Defined.

Global Instance event_eq_dec : EqDecision event.
Proof. solve_decision. Defined.

Global Instance ClientInfo_eq_dec : EqDecision ClientInfo.
Proof. solve_decision. Defined.

Definition with_clients (m : gmap conn ClientInfo) (w : World) : World :=
  mkWorld m (topic_subscribers w) (wire w) (console w) (held w) (trace w) (broken w).

Definition with_topics (m : gmap string (list conn)) (w : World) : World :=
  mkWorld (connected_clients w) m (wire w) (console w) (held w) (trace w) (broken w).

Definition with_wire (l : list Write) (w : World) : World :=
  mkWorld (connected_clients w) (topic_subscribers w) l (console w) (held w) (trace w) (broken w).

Definition with_console (l : list Output) (w : World) : World :=
  mkWorld (connected_clients w) (topic_subscribers w) (wire w) l (held w) (trace w) (broken w).

Definition with_locks (h : list mutex) (t : list event) (w : World) : World :=
  mkWorld (connected_clients w) (topic_subscribers w) (wire w) (console w) h t (broken w).

Definition record (e : event) (w : World) : World :=
  with_locks (held w) (trace w ++ [e]) w.

(** ** Outcomes and the handler monad *)

Inductive outcome (A : Type) :=
| Ok (a : A) (w : World)
| Throw (w : World)
| Undef (w : World).

Arguments Ok {A} a w.
Arguments Throw {A} w.
Arguments Undef {A} w.

(** The state a run ends in: after the return, when the exception leaves, or
    at the undefined read. *)
Definition world_of {A} (r : outcome A) : World :=
  match r with Ok _ w | Throw w | Undef w => w end.

Definition M (A : Type) : Type := World -> outcome A.

Global Instance M_ret : MRet M := fun A a w => Ok a w.

Global Instance M_bind : MBind M := fun A B f m w =>
  match m w with
  | Ok a w' => f a w'
  | Throw w' => Throw w'
  | Undef w' => Undef w'
  end.

(** [try { body } catch (const std::exception &) { handler }] *)
Definition try_catch {A} (body handler : M A) : M A := fun w =>
  match body w with
  | Throw w' => handler w'
  | r => r
  end.

(** A read past the end of a vector. *)
Definition undefined {A} : M A := fun w => Undef w.

Definition acquire (m : mutex) : M unit := fun w =>
  Ok tt (with_locks (m :: held w) (trace w ++ [Lock m (held w)]) w).

Definition release (m : mutex) (w : World) : World :=
  with_locks (List.remove mutex_eq_dec m (held w)) (trace w ++ [Unlock m]) w.

(** [std::lock_guard<std::mutex> lock(m);] followed by [body] up to the end
    of the enclosing block: the destructor releases [m] on return and on an
    exception alike. *)
Definition lock_guard {A} (m : mutex) (body : M A) : M A := fun w =>
  match (acquire m ≫= fun _ => body) w with
  | Ok a w' => Ok a (release m w')
  | Throw w' => Throw (release m w')
  | Undef w' => Undef w'
  end.

Definition read_clients : M (gmap conn ClientInfo) := fun w =>
  Ok (connected_clients w) (record (Access ConnectedClients (held w)) w).

Definition update_clients (f : gmap conn ClientInfo -> gmap conn ClientInfo) : M unit :=
  fun w =>
    Ok tt (with_clients (f (connected_clients w))
             (record (Access ConnectedClients (held w)) w)).

Definition read_topics : M (gmap string (list conn)) := fun w =>
  Ok (topic_subscribers w) (record (Access TopicSubscribers (held w)) w).

Definition update_topics
    (f : gmap string (list conn) -> gmap string (list conn)) : M unit :=
  fun w =>
    Ok tt (with_topics (f (topic_subscribers w))
             (record (Access TopicSubscribers (held w)) w)).

Definition print (o : Output) : M unit := fun w =>
  Ok tt (with_console (console w ++ [o]) w).

(** [message + "\n"] *)
Definition line_of (message : string) : string :=
  message +:+ String Str.newline "".

(** [send_message]: one blocking write of [message + "\n"]; a failed write
    throws [boost::system::system_error]. *)
Definition send_message (socket : conn) (message : string) : M unit := fun w =>
  if broken w socket
  then Throw (with_wire (wire w ++ [mkWrite socket (line_of message) false]) w)
  else Ok tt (with_wire (wire w ++ [mkWrite socket (line_of message) true]) w).

(** [socket->remote_endpoint()] and [socket->local_endpoint()], the
    overloads that throw [boost::system::system_error]: they fail on a socket
    whose peer is gone. *)
Definition read_endpoints (socket : conn) : M unit := fun w =>
  if broken w socket then Throw w else Ok tt w.

(** [get_client_metadata]: the endpoints are read for a socket that has a
    session, and only for such a socket. *)
Definition get_client_metadata (socket : conn) : M ClientMetadata :=
  clients ← read_clients;
  match clients !! socket with
  | Some info =>
      read_endpoints socket;;
      mret (mkClientMetadata (name info) (Some (pid info)))
  | None => mret (mkClientMetadata "" None)
  end.

(** [log_action] *)
Definition log_action (action : string) (client : ClientMetadata) (details : string) : M unit :=
  print (Action action details client).

(** ** Vector helpers *)

(** [v.erase(std::remove(v.begin(), v.end(), x), v.end())] *)
Definition erase_remove (x : conn) (v : list conn) : list conn :=
  filter (fun s => s ≠ x) v.

(** [std::find_if(v.begin(), v.end(), [&](s) { return s.get() == x.get(); })
    != v.end()] *)
Definition contains (x : conn) (v : list conn) : bool :=
  bool_decide (x ∈ v).

(** ** The command handlers *)

Definition invalid_topic : string :=
  "[SERVER_ERROR] Invalid topic. Only letters (A-Z, a-z), numbers (0-9), and max length of 64 are allowed.".

Definition invalid_message : string :=
  "[SERVER_ERROR] Invalid message. Only Base64 characters (A-Z, a-z, 0-9, +, /, =) and max length of 1024 are allowed.".

Definition invalid_publish : string :=
  "[SERVER_ERROR] Invalid publish format! Topic or message missing.".

(** The loop of [handle_connect] over the registry's entries: the first
    entry whose name equals [client_name] renames the newcomer and ends the
    loop.  The result does not depend on the order of the entries. *)
Fixpoint unique_name (entries : list (conn * ClientInfo))
    (client_name original_name : string) (client_pid : Z) : string :=
  match entries with
  | [] => client_name
  | entry :: rest =>
      if String.eqb (name entry.2) client_name
      then original_name +:+ "-" +:+ to_string client_pid
      else unique_name rest client_name original_name client_pid
  end.

Definition handle_connect (socket : conn) (args : string) : M unit :=
  lock_guard client_mutex (
    match Parse.connect_args args with
    | None =>
        client ← get_client_metadata socket;
        log_action "CONNECTION_ERROR" client "Client connect message is malformed."
    | Some (client_port, client_name, client_pid) =>
        let original_name := client_name in
        clients ← read_clients;
        let client_name :=
          unique_name (map_to_list clients) client_name original_name client_pid in
        update_clients (insert socket (mkClientInfo socket client_name client_pid));;
        client ← get_client_metadata socket;
        log_action "CONNECT" client "success";;
        send_message socket ("[SERVER] Connected as " +:+ client_name)
    end).

Definition handle_disconnect (socket : conn) (_ : string) : M unit :=
  lock_guard client_mutex (
    clients ← read_clients;
    match clients !! socket with
    | Some _ =>
        client ← get_client_metadata socket;
        lock_guard topic_mutex (
          update_topics (fmap (erase_remove socket)));;
        log_action "DISCONNECT" client "success";;
        update_clients (delete socket);;
        send_message socket "[SERVER] Disconnected"
    | None => mret tt
    end).

(** [topic_subscribers[topic]]: [operator[]] inserts an empty vector for a
    key that is not there yet. *)
Definition subscribers_of (topic : string) : M (list conn) := fun w =>
  let w' := record (Access TopicSubscribers (held w)) w in
  match topic_subscribers w !! topic with
  | Some subscribers => Ok subscribers w'
  | None => Ok [] (with_topics (<[topic := []]> (topic_subscribers w)) w')
  end.

(** Assignment through the reference obtained from [topic_subscribers[topic]]
    or from [it->second]. *)
Definition store_subscribers (topic : string) (subscribers : list conn) : M unit :=
  update_topics (insert topic subscribers).

Definition handle_subscribe (socket : conn) (topic : string) : M unit :=
  let topic := sanitize_topic topic in
  if Str.empty topic then send_message socket invalid_topic
  else
    lock_guard topic_mutex (
      subscribers ← subscribers_of topic;
      if contains socket subscribers
      then send_message socket ("[SERVER] Already subscribed to " +:+ topic)
      else
        store_subscribers topic (subscribers ++ [socket]);;
        client ← get_client_metadata socket;
        log_action "SUBSCRIBE" client ("Topic: " +:+ topic);;
        send_message socket ("[SERVER] Subscribed to " +:+ topic)).

Definition handle_unsubscribe (socket : conn) (topic : string) : M unit :=
  let topic := sanitize_topic topic in
  if Str.empty topic then send_message socket invalid_topic
  else
    lock_guard topic_mutex (
      topics ← read_topics;
      match topics !! topic with
      | None => send_message socket ("[SERVER_ERROR] You are not subscribed to " +:+ topic)
      | Some [] => send_message socket ("[SERVER_ERROR] You are not subscribed to " +:+ topic)
      | Some subscribers =>
          (* [std::remove_if] moves the kept elements to the front and
             returns the position after them *)
          let kept := erase_remove socket subscribers in
          if Nat.eqb (List.length kept) (List.length subscribers)
          then send_message socket ("[SERVER_ERROR] You are not subscribed to " +:+ topic)
          else
            store_subscribers topic kept;;
            client ← get_client_metadata socket;
            log_action "UNSUBSCRIBE" client topic;;
            send_message socket ("[SERVER] Unsubscribed from " +:+ topic)
      end).

(** The range-based [for] of [handle_publish].  The loop runs over the
    vector stored in the map, not over a copy: [position] is the iterator, an
    offset into the vector's storage, and [remaining] the distance to the end
    iterator computed once before the first iteration.  Each iteration reads
    the element now at [position]; the [catch] block erases from the same
    vector.  A read at or beyond the vector's current size is undefined. *)
Fixpoint fan_out (topic line : string) (remaining position : nat) : M unit :=
  match remaining with
  | O => mret tt
  | S remaining' =>
      topics ← read_topics;
      match default [] (topics !! topic) !! position with
      | None => undefined
      | Some subscriber =>
          try_catch
            (send_message subscriber line)
            (current ← subscribers_of topic;
             store_subscribers topic (erase_remove subscriber current));;
          fan_out topic line remaining' (S position)
      end
  end.

(** The second half of [handle_publish], from the acquisition of
    [topic_mutex] on, with the sanitized topic and payload. *)
Definition deliver (socket : conn) (topic payload : string) : M unit :=
  lock_guard topic_mutex (
    topics ← read_topics;
    match topics !! topic with
    | None => send_message socket ("[SERVER_ERROR] No subscribers for topic: " +:+ topic)
    | Some [] => send_message socket ("[SERVER_ERROR] No subscribers for topic: " +:+ topic)
    | Some subscribers =>
        client ← get_client_metadata socket;
        log_action "PUBLISH" client ("Topic: " +:+ topic +:+ " Message: " +:+ payload);;
        fan_out topic ("[Message] Topic: " +:+ topic +:+ " Data: " +:+ payload)
                (List.length subscribers) O
    end).

Definition handle_publish (socket : conn) (args : string) : M unit :=
  match Str.find Str.space args with
  | None => send_message socket invalid_publish
  | Some space =>
      let topic := sanitize_topic (Str.substr 0 space args) in
      if Str.empty topic then send_message socket invalid_topic
      else
        let payload := sanitize_message (Str.substr_from (space + 1) args) in
        if Str.empty payload then send_message socket invalid_message
        else deliver socket topic payload
  end.

(** ** The read loop *)

(** [command_handlers], as filled in by [setup_command_handlers]. *)
Definition command_handlers (command : string) : option (conn -> string -> M unit) :=
  if String.eqb command "CONNECT" then Some handle_connect
  else if String.eqb command "DISCONNECT" then Some handle_disconnect
  else if String.eqb command "SUBSCRIBE" then Some handle_subscribe
  else if String.eqb command "UNSUBSCRIBE" then Some handle_unsubscribe
  else if String.eqb command "PUBLISH" then Some handle_publish
  else None.

(** What one [read_some] gives back: between 1 and 1024 bytes, end of
    stream, or another error. *)
Inductive read_result :=
| Data (data : string)
| Eof
| Failed.

(** The command and its arguments as the loop body cuts them out of one
    read. *)
Definition split_command (data : string) : string * string :=
  let message := Str.erase_remove Str.newline data in
  match Str.find Str.space message with
  | None => (message, "")
  | Some space1 => (Str.substr 0 space1 message, Str.substr_from (space1 + 1) message)
  end.

Definition throw {A} : M A := fun w => Throw w.

(** The [while (true)] loop of [client_handler] run on the results of the
    successive reads; when they are used up the thread is blocked in
    [read_some]. *)
Fixpoint read_loop (socket : conn) (reads : list read_result) : M unit :=
  match reads with
  | [] => mret tt
  | Eof :: _ =>
      clinet ← get_client_metadata socket;
      log_action "DISCONNECT" clinet "End of file"
  | Failed :: _ => throw
  | Data data :: rest =>
      let message := Str.erase_remove Str.newline data in
      print (Received message);;
      let '(command, args) := split_command data in
      match command_handlers command with
      | Some handler => handler socket args
      | None => send_message socket ("[SERVER_ERROR] Unknown command: " +:+ command)
      end;;
      read_loop socket rest
  end.

Definition client_handler (socket : conn) (reads : list read_result) : M unit :=
  try_catch (read_loop socket reads) (print ClientError).

(** The broker right after start-up, with the peers of the sockets in
    [dead] gone. *)
Definition start (dead : list conn) : World :=
  mkWorld ∅ ∅ [] [] [] [] (fun s => bool_decide (s ∈ dead)).

(** * The client *)

Module Client.

(** The globals of the client, the bytes it has written to its socket, and
    whether a write to the socket succeeds. *)
Record State := mkState {
  connected : bool;
  global_socket : option conn;
  socket_mutex : bool;
  sent : list string;
  writable : bool
}.

(** A call returns, or the thread locks [socket_mutex] while it owns it. *)
Inductive outcome :=
| Done (st : State)
| Relocked (st : State).

Definition state_of (r : outcome) : State :=
  match r with Done st | Relocked st => st end.

Definition with_mutex (m : bool) (st : State) : State :=
  mkState (connected st) (global_socket st) m (sent st) (writable st).

(** [std::lock_guard<std::mutex> lock(socket_mutex);] up to the end of the
    enclosing block. *)
Definition lock_guard (body : State -> outcome) (st : State) : outcome :=
  if socket_mutex st then Relocked st
  else
    match body (with_mutex true st) with
    | Done st' => Done (with_mutex false st')
    | Relocked st' => Relocked st'
    end.

(** [cleanup_connection] *)
Definition cleanup_connection : State -> outcome :=
  lock_guard (fun st => Done (mkState false None (socket_mutex st) (sent st) (writable st))).

(** [send_command] *)
Definition send_command (command : string) : State -> outcome :=
  lock_guard (fun st =>
    if negb (connected st) || negb (bool_decide (is_Some (global_socket st))) then Done st
    else if Str.empty command then Done st
    else if writable st
    then Done (mkState (connected st) (global_socket st) (socket_mutex st)
                       (sent st ++ [line_of command]) (writable st))
    else cleanup_connection st).

(** The loop [while (ss >> arg) args.push_back(arg)]; the input is used up
    after at most as many rounds as it has characters. *)
Fixpoint extract_all (fuel : nat) (s : string) : list string :=
  match fuel with
  | O => []
  | S fuel' =>
      match Parse.extract_word s with
      | Some (arg, rest) => arg :: extract_all fuel' rest
      | None => []
      end
  end.

(** [handle_connect]; [dial] is what resolving and connecting give: a socket,
    or an exception. *)
Definition handle_connect (pid : Z) (dial : option conn)
    (args : list string) (st : State) : outcome :=
  if (List.length args <? 2)%nat || (3 <? List.length args)%nat then Done st
  else if connected st then Done st
  else
    let three := (List.length args =? 3)%nat in
    let port := nth (if three then 1 else 0)%nat args "" in
    let client_name := nth (if three then 2 else 1)%nat args "" in
    match cleanup_connection st with
    | Relocked st' => Relocked st'
    | Done st1 =>
        match dial with
        | None => Done st1
        | Some socket =>
            match lock_guard (fun st => Done (mkState true (Some socket) (socket_mutex st)
                                                      (sent st) (writable st))) st1 with
            | Relocked st' => Relocked st'
            | Done st2 =>
                send_command ("CONNECT " +:+ port +:+ " " +:+ client_name +:+ " "
                              +:+ to_string pid) st2
            end
        end
    end.

(** [handle_disconnect] *)
Definition handle_disconnect (_ : list string) (st : State) : outcome :=
  match send_command "DISCONNECT" st with
  | Relocked st' => Relocked st'
  | Done st1 => cleanup_connection st1
  end.

(** [handle_publish] *)
Definition handle_publish (args : list string) (st : State) : outcome :=
  if (List.length args <? 2)%nat then Done st
  else
    let oss := "PUBLISH " +:+ nth 0 args "" +:+ " " in
    let oss := foldl (fun oss arg => oss +:+ arg +:+ " ") oss (drop 1 args) in
    send_command oss st.

(** [handle_subscribe] *)
Definition handle_subscribe (args : list string) (st : State) : outcome :=
  if negb (List.length args =? 1)%nat then Done st
  else send_command ("SUBSCRIBE " +:+ nth 0 args "") st.

(** [handle_unsubscribe] *)
Definition handle_unsubscribe (args : list string) (st : State) : outcome :=
  if negb (List.length args =? 1)%nat then Done st
  else send_command ("UNSUBSCRIBE " +:+ nth 0 args "") st.

(** [command_handlers], as filled in by [setup_command_handlers]. *)
Definition command_handlers (pid : Z) (dial : option conn) (command : string)
    : option (list string -> State -> outcome) :=
  if String.eqb command "CONNECT" then Some (handle_connect pid dial)
  else if String.eqb command "DISCONNECT" then Some handle_disconnect
  else if String.eqb command "PUBLISH" then Some handle_publish
  else if String.eqb command "SUBSCRIBE" then Some handle_subscribe
  else if String.eqb command "UNSUBSCRIBE" then Some handle_unsubscribe
  else None.

(** [process_command]: a failed first extraction leaves [command] empty and
    the loop without a round. *)
Definition process_command (pid : Z) (dial : option conn)
    (input : string) (st : State) : outcome :=
  let '(command, args) :=
    match Parse.extract_word input with
    | Some (command, rest) => (command, extract_all (String.length rest) rest)
    | None => ("", [])
    end in
  match command_handlers pid dial command with
  | Some handler => handler args st
  | None => Done st
  end.

End Client.

(** * Vocabulary of the properties *)

(** The peer of [s] goes away: from now on writes to [s] and reads of its
    endpoints fail.  This is an action of the environment, not of the
    broker. *)
Definition hang_up (s : conn) (w : World) : World :=
  mkWorld (connected_clients w) (topic_subscribers w) (wire w) (console w)
          (held w) (trace w) (fun x => bool_decide (x = s) || broken w x).

(** A name of 65 letters. *)
Definition name65 : string :=
  "abcdefghijklmnopqrstuvwxyzabcdefghijklmnopqrstuvwxyzabcdefghijklm".

(** Unfold one step of the two searches and of the two trimming functions. *)
Ltac searches :=
  cbn [Str.find_last_not_of Str.find_first_not_of Spec.rtrim Spec.ltrim].

(** Unfold the monad and the primitives. *)
Ltac run :=
  cbv [mbind M_bind mret M_ret lock_guard acquire release try_catch undefined throw
       read_clients update_clients read_topics update_topics print send_message
       read_endpoints get_client_metadata log_action subscribers_of store_subscribers
       record with_clients with_topics with_wire with_console with_locks world_of
       connected_clients topic_subscribers wire console held trace broken line_of].

(** Run a handler on a state given by its fields, splitting on every test
    the run meets. *)
Ltac crunch :=
  run;
  repeat (match goal with
          | |- context [match ?x with _ => _ end] =>
              lazymatch x with
              | context [match _ with _ => _ end] => fail
              | _ => destruct x eqn:?
              end
          end; run).

(** A fan-out line, as opposed to a reply to the sender of a command. *)
Definition is_delivery (x : Write) : bool :=
  String.prefix "[Message] " (bytes x).

(** The subscribers of [topic], none when the topic has no entry. *)
Definition subscribers (w : World) (topic : string) : list conn :=
  default [] (topic_subscribers w !! topic).

(** What a fan-out over [topic] may do between two states: the registry of
    connections and the environment are as before, no other topic changes,
    the topic's vector only loses elements, and every write carries [line] to
    a socket that was subscribed at the start. *)
Definition narrowed (topic line : string) (w w' : World) : Prop :=
  connected_clients w' = connected_clients w /\
  broken w' = broken w /\
  (forall t, t ≠ topic -> topic_subscribers w' !! t = topic_subscribers w !! t) /\
  subscribers w' topic `sublist_of` subscribers w topic /\
  exists new,
    wire w' = (wire w ++ new)%list /\
    Forall (fun x => to x ∈ subscribers w topic /\ bytes x = line) new.

(** What one PUBLISH may do between two states: the registry of connections
    and the environment are as before, every subscriber vector only loses
    elements, and every fan-out line goes to a socket that was subscribed to
    some topic at the start. *)
Definition publish_effect (w w' : World) : Prop :=
  connected_clients w' = connected_clients w /\
  broken w' = broken w /\
  (forall t, subscribers w' t `sublist_of` subscribers w t) /\
  exists new,
    wire w' = (wire w ++ new)%list /\
    Forall (fun x => is_delivery x = true -> exists t, to x ∈ subscribers w t) new.

Definition no_duplicates (w : World) : Prop :=
  forall (topic : string) (subs : list conn),
    topic_subscribers w !! topic = Some subs -> NoDup subs.

(** Some session of the registry has the display name [n]. *)
Definition name_in_use (clients : gmap conn ClientInfo) (n : string) : Prop :=
  exists c info, clients !! c = Some info /\ name info = n.

(** No two sessions of the registry share a display name. *)
Definition unique_names (clients : gmap conn ClientInfo) : Prop :=
  forall c1 c2 i1 i2,
    clients !! c1 = Some i1 -> clients !! c2 = Some i2 ->
    name i1 = name i2 -> c1 = c2.

(** The name [handle_connect] appends the pid to. *)
Definition suffixed (client_name : string) (client_pid : Z) : string :=
  client_name +:+ "-" +:+ to_string client_pid.

(** Two states with the same registries, wire and environment. *)
Definition same_data (w w' : World) : Prop :=
  connected_clients w' = connected_clients w /\
  topic_subscribers w' = topic_subscribers w /\
  wire w' = wire w /\
  broken w' = broken w.

(** [c] is in no subscriber vector. *)
Definition absent (c : conn) (w : World) : Prop :=
  forall t, c ∉ subscribers w t.

(** Between the two states no fan-out line has been written to [c]. *)
Definition nothing_delivered (c : conn) (w w' : World) : Prop :=
  exists new,
    wire w' = (wire w ++ new)%list /\
    Forall (fun x => is_delivery x = true -> to x ≠ c) new.

(** Run by another connection, a handler keeps [c] out of the vectors and
    delivers nothing to it. *)
Definition keeps_out (c : conn) (h : conn -> string -> M unit) : Prop :=
  forall s args w,
    s ≠ c -> absent c w ->
    absent c (world_of (h s args w)) /\ nothing_delivered c w (world_of (h s args w)).

Definition is_undef {A} (r : outcome A) : bool :=
  match r with Undef _ => true | _ => false end.

Definition is_ok {A} (r : outcome A) : bool :=
  match r with Ok _ _ => true | _ => false end.

(** Sockets 1 and 2 subscribe to "news" in this order, then the peer of
    socket 1 goes away. *)
Definition two_subscribers : World :=
  hang_up 1 (world_of (handle_subscribe 2 "news"
                         (world_of (handle_subscribe 1 "news" (start []))))).

(** Sockets 1, 2 and 3 subscribe to "news" in this order, then the peer of
    socket 1 goes away. *)
Definition three_subscribers : World :=
  hang_up 1 (world_of (handle_subscribe 3 "news"
               (world_of (handle_subscribe 2 "news"
                  (world_of (handle_subscribe 1 "news" (start []))))))).

(** A table is read or written while the thread does not hold the table's
    mutex. *)
Definition unguarded (e : event) : bool :=
  match e with
  | Access ConnectedClients held_now => negb (bool_decide (client_mutex ∈ held_now))
  | Access TopicSubscribers held_now => negb (bool_decide (topic_mutex ∈ held_now))
  | _ => false
  end.

(** The line PUBLISH fans out. *)
Definition fan_out_line (topic payload : string) : string :=
  "[Message] Topic: " +:+ topic +:+ " Data: " +:+ payload.

(** A successful write of [line] to [s]. *)
Definition ok_write (line : string) (s : conn) : Write := mkWrite s (line_of line) true.

(** [s] holds the character [c]. *)
Fixpoint has_char (c : ascii) (s : string) : bool :=
  match s with
  | EmptyString => false
  | String d rest => Ascii.eqb d c || has_char c rest
  end.

(** Last character of a string. *)
Fixpoint last_char (s : string) : option ascii :=
  match s with
  | EmptyString => None
  | String c EmptyString => Some c
  | String _ rest => last_char rest
  end.

(** The part of the locking discipline the code keeps: [client_mutex] is
    only taken with nothing held, [topic_mutex] is never taken while it is
    already held, and [topic_subscribers] is only touched under
    [topic_mutex]. *)
Definition disciplined (e : event) : Prop :=
  match e with
  | Lock client_mutex held_before => held_before = []
  | Lock topic_mutex held_before => topic_mutex ∉ held_before
  | Access TopicSubscribers held_now => topic_mutex ∈ held_now
  | _ => True
  end.

(** A table access with the mutexes [h] held. *)
Definition under (h : list mutex) (e : event) : Prop :=
  exists t, e = Access t h.

(** The events a run adds to the trace are all [P]. *)
Definition adds (P : event -> Prop) (w w' : World) : Prop :=
  exists new, trace w' = (trace w ++ new)%list /\ Forall P new.

(** A handler takes its locks in order and gives them back. *)
Definition orderly (h : conn -> string -> M unit) : Prop :=
  forall c args w,
    held w = [] ->
    adds disciplined w (world_of (h c args w))
    /\ (is_undef (h c args w) = false -> held (world_of (h c args w)) = []).

(** Side conditions of [disciplined]. *)
Ltac not_held :=
  cbn [disciplined];
  first [ exact I | reflexivity | apply not_elem_of_nil
        | apply list_elem_of_here
        | apply list_elem_of_further, list_elem_of_here
        | let H := fresh in intros H; apply list_elem_of_singleton in H; discriminate ].

(** Exhibit the events a straight-line run has added. *)
Ltac traced :=
  first [ exists []; split; [symmetry; apply app_nil_r | constructor]
        | eexists; split;
          [cbn [trace]; rewrite <- ?app_assoc; reflexivity | repeat constructor] ].

(** The input to an extraction ends here: nothing is left, or the next
    character does not satisfy [p]. *)
Definition stops (p : ascii -> bool) (s : string) : bool :=
  match s with
  | EmptyString => true
  | String c _ => negb (p c)
  end.

(** A character [ss >> word] takes into the word. *)
Definition not_space (c : ascii) : bool := negb (Str.isspace c).

(** A session as [handle_connect] stores it: filed under its own socket,
    with a pid that fits an [int] and a name that is not empty. *)
Definition well_formed (clients : gmap conn ClientInfo) : Prop :=
  forall c info,
    clients !! c = Some info ->
    socket info = c
    /\ (Parse.INT_MIN <= pid info <= Parse.INT_MAX)%Z
    /\ Str.empty (name info) = false.

(** A property of the two registries alone. *)
Definition on_registries (I : World -> Prop) : Prop :=
  forall w w',
    connected_clients w' = connected_clients w ->
    topic_subscribers w' = topic_subscribers w ->
    I w -> I w'.

(** What [get_client_metadata] finds for [socket] in the registry. *)
Definition metadata_of (clients : gmap conn ClientInfo) (socket : conn) : ClientMetadata :=
  match clients !! socket with
  | Some info => mkClientMetadata (name info) (Some (pid info))
  | None => mkClientMetadata "" None
  end.

(** A token of the input: not empty, no whitespace. *)
Definition token (s : string) : Prop :=
  Str.empty s = false /\ Str.all_of not_space s = true.

(** The words with one space between them. *)
Fixpoint unwords (words : list string) : string :=
  match words with
  | [] => ""
  | [word] => word
  | word :: rest => word +:+ " " +:+ unwords rest
  end.

(** One line of the protocol: a command without a line feed, and the line
    feed. *)
Definition whole_line (bytes : string) : Prop :=
  exists command, bytes = line_of command /\ has_char Str.newline command = false.

(** The endpoints of [socket] cannot be read where [get_client_metadata]
    reads them: the socket has a session and its peer is gone. *)
Definition unreachable (w : World) (socket : conn) : bool :=
  match connected_clients w !! socket with
  | Some _ => broken w socket
  | None => false
  end.

(** The reply a handler writes to [socket] after it has called
    [get_client_metadata] for it: none when that call throws. *)
Definition logged_reply (w : World) (socket : conn) (message : string) : list Write :=
  if unreachable w socket then []
  else [mkWrite socket (line_of message) (negb (broken w socket))].

(** * Source trimming against specification trimming *)

Section Trimming.

Local Open Scope Z_scope.

Lemma in_blanks c : Str.in_set c blanks = Spec.is_blank c.
Proof.
  unfold blanks, Spec.is_blank. simpl.
  destruct (Ascii.eqb c Str.space), (Ascii.eqb c Str.tab); reflexivity.
Qed.

Lemma find_last_none_rtrim s :
  Str.find_last_not_of blanks s = None -> Spec.rtrim s = "".
Proof.
  induction s as [|c s IH]; searches; [reflexivity|].
  destruct (Str.find_last_not_of blanks s); [discriminate|].
  rewrite IH by reflexivity. rewrite in_blanks.
  destruct (Spec.is_blank c); [reflexivity | discriminate].
Qed.

Lemma find_last_prefix s j :
  Str.find_last_not_of blanks s = Some j ->
  Spec.rtrim s = substring 0 (S j) s /\ Spec.rtrim s <> "".
Proof.
  revert j. induction s as [|c s IH]; intros j;
    cbn [Str.find_last_not_of Spec.rtrim substring]; [discriminate|].
  destruct (Str.find_last_not_of blanks s) as [k|] eqn:Hk.
  - intros [= <-]. destruct (IH k eq_refl) as [Heq Hne].
    rewrite <- Heq. destruct (Spec.rtrim s); [congruence|].
    split; [reflexivity | discriminate].
  - rewrite in_blanks. destruct (Spec.is_blank c) eqn:Hc; [discriminate|].
    intros [= <-]. rewrite (find_last_none_rtrim s Hk).
    split; [|discriminate]. destruct s; reflexivity.
Qed.

Lemma find_first_some_last s i :
  Str.find_first_not_of blanks s = Some i ->
  exists j, Str.find_last_not_of blanks s = Some j /\ (i <= j)%nat.
Proof.
  revert i. induction s as [|c s IH]; intros i; searches; [discriminate|].
  destruct (Str.in_set c blanks) eqn:Hc.
  - destruct (Str.find_first_not_of blanks s) as [k|]; [|discriminate].
    intros [= <-]. destruct (IH k eq_refl) as (j & -> & Hle).
    exists (S j). split; [reflexivity | lia].
  - intros [= <-]. destruct (Str.find_last_not_of blanks s) as [j|].
    + exists (S j). split; [reflexivity | lia].
    + exists O. split; [reflexivity | lia].
Qed.

Lemma find_first_none s :
  Str.find_first_not_of blanks s = None ->
  Str.find_last_not_of blanks s = None /\ Spec.ltrim s = "".
Proof.
  induction s as [|c s IH]; searches; [auto|].
  rewrite <- in_blanks. destruct (Str.in_set c blanks); [|discriminate].
  destruct (Str.find_first_not_of blanks s); [discriminate|].
  intros _. destruct (IH eq_refl) as [-> ->]. auto.
Qed.

(** The substring cut out by the two searches is the trimmed string. *)
Lemma substr_is_trim s i j :
  Str.find_first_not_of blanks s = Some i ->
  Str.find_last_not_of blanks s = Some j ->
  Str.substr i (j - i + 1) s = Spec.trim s /\ Spec.trim s <> "".
Proof.
  unfold Str.substr, Spec.trim.
  revert i j. induction s as [|c s IH]; intros i j;
    cbn [Str.find_first_not_of Str.find_last_not_of Spec.ltrim]; [discriminate|].
  rewrite <- in_blanks.
  destruct (Str.in_set c blanks) eqn:Hc.
  - destruct (Str.find_first_not_of blanks s) as [k|] eqn:Hk; [|discriminate].
    intros [= <-]. destruct (find_first_some_last s k Hk) as (l & Hl & Hle).
    rewrite Hl. intros [= <-]. cbn [substring Nat.sub].
    apply IH; [reflexivity | assumption].
  - intros [= <-] Hj. rewrite Nat.sub_0_r, Nat.add_1_r.
    assert (Str.find_last_not_of blanks (String c s) = Some j) as Hj'.
    { cbn [Str.find_last_not_of]. rewrite Hc. exact Hj. }
    destruct (find_last_prefix _ _ Hj') as [Heq Hne].
    split; [symmetry; exact Heq | exact Hne].
Qed.

Lemma trim_all_blank s :
  Str.find_first_not_of blanks s = None -> Spec.trim s = "".
Proof.
  intros H. unfold Spec.trim. destruct (find_first_none s H) as [_ ->]. reflexivity.
Qed.

Lemma empty_spec s : Str.empty s = true <-> s = "".
Proof. destruct s; simpl; split; congruence. Qed.

(** The signed comparison of the source rejects exactly the bytes outside
    0x20..0x7E. *)
Lemma bad_char_printable c : bad_char c = negb (Spec.printable c).
Proof.
  unfold bad_char, Spec.printable, Str.char_val.
  assert (0 <= Str.code c < 256) as Hr.
  { unfold Str.code. pose proof (N_ascii_bounded c). lia. }
  destruct (128 <=? Str.code c) eqn:H128;
    repeat match goal with
           | |- context [?a <? ?b] => destruct (Z.ltb_spec a b)
           | |- context [?a <=? ?b] => destruct (Z.leb_spec a b)
           | H : (?a <=? ?b) = _ |- _ => destruct (Z.leb_spec a b); try discriminate; clear H
           end; simpl; try reflexivity; lia.
Qed.

Lemma has_bad_char_all_of s :
  has_bad_char s = negb (Str.all_of Spec.printable s).
Proof.
  induction s as [|c s IH]; simpl; [reflexivity|].
  rewrite bad_char_printable, IH. destruct (Spec.printable c); reflexivity.
Qed.

(** Trimming removes blanks at the two ends and nothing else, and what it
    returns neither starts nor ends with a blank. *)

Lemma ltrim_split s :
  exists pre, s = pre +:+ Spec.ltrim s /\ Str.all_of Spec.is_blank pre = true.
Proof.
  induction s as [|c s (pre & Hs & Hb)]; cbn [Spec.ltrim].
  - exists "". auto.
  - destruct (Spec.is_blank c) eqn:Hc.
    + exists (String c pre). split.
      * change (String c s = String c (pre +:+ Spec.ltrim s)). rewrite <- Hs. reflexivity.
      * cbn [Str.all_of]. rewrite Hc, Hb. reflexivity.
    + exists "". auto.
Qed.

Lemma rtrim_split s :
  exists post, s = Spec.rtrim s +:+ post /\ Str.all_of Spec.is_blank post = true.
Proof.
  induction s as [|c s (post & Hs & Hb)]; cbn [Spec.rtrim].
  - exists "". auto.
  - destruct (Spec.rtrim s) as [|d kept] eqn:Hk.
    + change ("" +:+ post) with post in Hs. subst post.
      destruct (Spec.is_blank c) eqn:Hc.
      * exists (String c s). split; [reflexivity|].
        cbn [Str.all_of]. rewrite Hc, Hb. reflexivity.
      * exists s. split; [reflexivity | exact Hb].
    + exists post. split; [|exact Hb].
      change (String c s = String c (String d kept +:+ post)). rewrite <- Hs. reflexivity.
Qed.

Lemma trim_split s :
  exists pre post,
    s = pre +:+ Spec.trim s +:+ post
    /\ Str.all_of Spec.is_blank pre = true
    /\ Str.all_of Spec.is_blank post = true.
Proof.
  destruct (ltrim_split s) as (pre & Hs & Hpre).
  destruct (rtrim_split (Spec.ltrim s)) as (post & Hl & Hpost).
  exists pre, post. unfold Spec.trim. rewrite <- Hl, <- Hs. auto.
Qed.

(** The first character of a left-trimmed string is not a blank. *)
Lemma ltrim_head s c rest : Spec.ltrim s = String c rest -> Spec.is_blank c = false.
Proof.
  induction s as [|d s IH]; cbn [Spec.ltrim]; [discriminate|].
  destruct (Spec.is_blank d) eqn:Hd; [exact IH|]. intros [= <- <-]. exact Hd.
Qed.

Lemma rtrim_last s c : last_char (Spec.rtrim s) = Some c -> Spec.is_blank c = false.
Proof.
  induction s as [|d s IH]; cbn [Spec.rtrim]; [discriminate|].
  destruct (Spec.rtrim s) as [|e kept] eqn:Hk.
  - destruct (Spec.is_blank d) eqn:Hd; cbn; [discriminate|]. intros [= <-]. exact Hd.
  - cbn [last_char]. exact IH.
Qed.

Lemma rtrim_head s c rest :
  Spec.rtrim s = String c rest -> exists rest', s = String c rest'.
Proof.
  destruct s as [|d s]; cbn [Spec.rtrim]; [discriminate|].
  destruct (Spec.rtrim s); [destruct (Spec.is_blank d); [discriminate|]|];
    intros [= <- <-]; eauto.
Qed.

Lemma trim_ends s :
  (forall c rest, Spec.trim s = String c rest -> Spec.is_blank c = false)
  /\ (forall c, last_char (Spec.trim s) = Some c -> Spec.is_blank c = false).
Proof.
  unfold Spec.trim. split.
  - intros c rest H. destruct (rtrim_head _ _ _ H) as [rest' H']. eapply ltrim_head. exact H'.
  - apply rtrim_last.
Qed.

End Trimming.

(** * Properties of the sanitizers *)

Section Sanitizers.

Lemma sanitize_topic_trim raw :
  sanitize_topic raw = if Spec.topic_ok (Spec.trim raw) then Spec.trim raw else "".
Proof.
  unfold sanitize_topic, Spec.topic_ok, MAX_TOPIC_LENGTH.
  destruct (Str.find_first_not_of blanks raw) as [i|] eqn:Hi.
  - destruct (find_first_some_last raw i Hi) as (j & Hj & _). rewrite Hj.
    destruct (substr_is_trim raw i j Hi Hj) as [-> Hne].
    destruct (Spec.trim raw) as [|c t] eqn:Ht; [congruence|].
    cbn [Str.empty negb andb].
    destruct (Nat.ltb_spec 64 (String.length (String c t))) as [Hlt|Hge].
    + apply Nat.leb_gt in Hlt. rewrite Hlt. reflexivity.
    + apply Nat.leb_le in Hge. rewrite Hge.
      destruct (Str.all_of Str.isalnum (String c t)); reflexivity.
  - rewrite (trim_all_blank raw Hi). reflexivity.
Qed.

Lemma sanitize_message_trim message :
  sanitize_message message =
  if Spec.payload_ok (Spec.trim message) then Spec.trim message else "".
Proof.
  unfold sanitize_message, Spec.payload_ok, MAX_MESSAGE_LENGTH.
  destruct (Str.find_first_not_of blanks message) as [i|] eqn:Hi.
  - destruct (find_first_some_last message i Hi) as (j & Hj & _). rewrite Hj.
    destruct (substr_is_trim message i j Hi Hj) as [-> Hne].
    rewrite has_bad_char_all_of.
    destruct (Spec.trim message) as [|c t] eqn:Ht; [congruence|].
    cbn [Str.empty negb andb].
    destruct (Nat.ltb_spec 1024 (String.length (String c t))) as [Hlt|Hge].
    + apply Nat.leb_gt in Hlt. rewrite Hlt. reflexivity.
    + apply Nat.leb_le in Hge. rewrite Hge.
      destruct (Str.all_of Spec.printable (String c t)); reflexivity.
  - rewrite (trim_all_blank message Hi). reflexivity.
Qed.

(** An accepted topic is never the rejection value. *)
Lemma topic_ok_nonempty t : Spec.topic_ok t = true -> Str.empty t = false.
Proof. unfold Spec.topic_ok. destruct (Str.empty t); simpl; congruence. Qed.

Lemma payload_ok_nonempty p : Spec.payload_ok p = true -> Str.empty p = false.
Proof. unfold Spec.payload_ok. destruct (Str.empty p); simpl; congruence. Qed.

End Sanitizers.

(** C5.  For every raw topic string, [sanitize_topic] trims the leading and
    trailing spaces and tabs; it rejects (returns the empty string) when the
    trimmed string is empty, longer than 64 characters or holds a character
    that is not alphanumeric, and returns the trimmed string otherwise.  The
    result is the rejection value exactly when the rule fails.  A single
    space, a name of 65 characters, "topic!" and "My_Topic" are rejected and
    " News " gives "News". *)
Theorem sanitize_topic_correct :
  (forall raw : string,
      sanitize_topic raw =
      if Spec.topic_ok (Spec.trim raw) then Spec.trim raw else "")
  /\ (forall raw : string,
        Str.empty (sanitize_topic raw) = negb (Spec.topic_ok (Spec.trim raw)))
  /\ sanitize_topic " " = ""
  /\ (String.length name65 = 65 /\ sanitize_topic name65 = "")
  /\ sanitize_topic "topic!" = ""
  /\ sanitize_topic "My_Topic" = ""
  /\ sanitize_topic " News " = "News".
Proof.
  split; [exact sanitize_topic_trim|].
  split.
  { intros raw. rewrite sanitize_topic_trim.
    destruct (Spec.topic_ok (Spec.trim raw)) eqn:Hok; [|reflexivity].
    apply topic_ok_nonempty in Hok. exact Hok. }
  repeat split; vm_compute; reflexivity.
Qed.

(** * One reply *)

Lemma send_message_world socket message w :
  world_of (send_message socket message w) =
  with_wire (wire w ++ [mkWrite socket (line_of message) (negb (broken w socket))]) w.
Proof.
  unfold send_message, line_of. destruct (broken w socket); reflexivity.
Qed.

(** * What each handler does to the registries and to the wire *)

Section Vectors.

Lemma contains_true x (v : list conn) : contains x v = true <-> x ∈ v.
Proof. unfold contains. apply bool_decide_eq_true. Qed.

Lemma contains_false x (v : list conn) : contains x v = false <-> x ∉ v.
Proof. unfold contains. apply bool_decide_eq_false. Qed.

Lemma contains_nil x : contains x [] = false.
Proof. apply contains_false. apply not_elem_of_nil. Qed.

Lemma erase_remove_absent x (v : list conn) : x ∉ v -> erase_remove x v = v.
Proof.
  unfold erase_remove. induction v as [|y v IH]; intros Hx; [reflexivity|].
  apply not_elem_of_cons in Hx as [Hne Hx].
  rewrite filter_cons_True by congruence. rewrite IH by assumption. reflexivity.
Qed.

Lemma erase_remove_gone x (v : list conn) : x ∉ erase_remove x v.
Proof.
  unfold erase_remove. rewrite list_elem_of_filter. intros [Hne _]. congruence.
Qed.

Lemma erase_remove_sublist x (v : list conn) : erase_remove x v `sublist_of` v.
Proof. apply sublist_filter. Qed.

(** [sub_it == subscribers.end()] holds exactly when nothing was removed. *)
Lemma erase_remove_same_length x (v : list conn) :
  Nat.eqb (List.length (erase_remove x v)) (List.length v) = negb (contains x v).
Proof.
  destruct (contains x v) eqn:Hc; simpl.
  - apply contains_true in Hc. apply Nat.eqb_neq.
    pose proof (length_filter_lt (fun s => s ≠ x) v x Hc) as Hlt.
    unfold erase_remove. cut (List.length (filter (fun s => s ≠ x) v) < List.length v); [lia|].
    apply Hlt. intros Hne. apply Hne. reflexivity.
  - apply contains_false in Hc. rewrite erase_remove_absent by assumption.
    apply Nat.eqb_refl.
Qed.

Lemma erase_remove_length_present x (v : list conn) :
  NoDup v -> x ∈ v -> S (List.length (erase_remove x v)) = List.length v.
Proof.
  unfold erase_remove. induction 1 as [|y v Hy Hnd IH]; intros Hx.
  - apply elem_of_nil in Hx. contradiction.
  - destruct (decide (y = x)) as [->|Hne].
    + rewrite filter_cons_False by (intros H; apply H; reflexivity).
      fold (erase_remove x v). rewrite erase_remove_absent by assumption. reflexivity.
    + rewrite filter_cons_True by assumption. simpl. f_equal. apply IH.
      apply elem_of_cons in Hx as [->|Hx]; [congruence | assumption].
Qed.

End Vectors.

Section Observations.

Lemma handle_subscribe_obs socket raw w :
  Str.empty (sanitize_topic raw) = false ->
  let topic := sanitize_topic raw in
  let subs := default [] (topic_subscribers w !! topic) in
  let w' := world_of (handle_subscribe socket raw w) in
  connected_clients w' = connected_clients w /\ broken w' = broken w /\
  if contains socket subs
  then topic_subscribers w' = topic_subscribers w /\
       wire w' = (wire w ++ [mkWrite socket
                   (line_of ("[SERVER] Already subscribed to " +:+ topic))
                   (negb (broken w socket))])%list
  else topic_subscribers w' = <[topic := (subs ++ [socket])%list]> (topic_subscribers w) /\
       wire w' = (wire w ++ logged_reply w socket ("[SERVER] Subscribed to " +:+ topic))%list.
Proof.
  destruct w as [cl tp wi co he tr br]. intros Hne. cbv zeta.
  unfold handle_subscribe, logged_reply, unreachable. rewrite Hne. run.
  destruct (tp !! sanitize_topic raw) as [subs|] eqn:Hl; cbn [default from_option id].
  - destruct (contains socket subs); run; [destruct (br socket); run; auto|].
    destruct (cl !! socket); run; destruct (br socket) eqn:Hb; run;
      rewrite ?Hb, ?app_nil_r; run; auto.
  - rewrite contains_nil. run.
    destruct (cl !! socket); run; destruct (br socket) eqn:Hb; run;
      rewrite ?Hb, insert_insert_eq, ?app_nil_r; run; auto.
Qed.

Lemma handle_unsubscribe_obs socket raw w :
  Str.empty (sanitize_topic raw) = false ->
  let topic := sanitize_topic raw in
  let subs := default [] (topic_subscribers w !! topic) in
  let w' := world_of (handle_unsubscribe socket raw w) in
  connected_clients w' = connected_clients w /\ broken w' = broken w /\
  if contains socket subs
  then topic_subscribers w' = <[topic := erase_remove socket subs]> (topic_subscribers w) /\
       wire w' = (wire w ++ logged_reply w socket ("[SERVER] Unsubscribed from " +:+ topic))%list
  else topic_subscribers w' = topic_subscribers w /\
       wire w' = (wire w ++ [mkWrite socket
                   (line_of ("[SERVER_ERROR] You are not subscribed to " +:+ topic))
                   (negb (broken w socket))])%list.
Proof.
  destruct w as [cl tp wi co he tr br]. intros Hne. cbv zeta.
  unfold handle_unsubscribe, logged_reply, unreachable. rewrite Hne. run.
  destruct (tp !! sanitize_topic raw) as [[|s subs]|] eqn:Hl; cbn [default from_option id].
  1, 3: rewrite contains_nil; destruct (br socket); run; auto.
  rewrite erase_remove_same_length.
  destruct (contains socket (s :: subs)); cbn [negb]; run;
    [|destruct (br socket); run; auto].
  destruct (cl !! socket); run; destruct (br socket) eqn:Hb; run;
    rewrite ?Hb, ?app_nil_r; run; auto.
Qed.

(** DISCONNECT from a socket whose peer is gone: [get_client_metadata]
    throws before the teardown. *)
Lemma handle_disconnect_obs socket args w :
  let w' := world_of (handle_disconnect socket args w) in
  broken w' = broken w /\
  match connected_clients w !! socket with
  | Some _ =>
      if broken w socket
      then
        connected_clients w' = connected_clients w /\
        topic_subscribers w' = topic_subscribers w /\
        wire w' = wire w
      else
        connected_clients w' = delete socket (connected_clients w) /\
        topic_subscribers w' = erase_remove socket <$> topic_subscribers w /\
        wire w' = (wire w ++ [mkWrite socket (line_of "[SERVER] Disconnected") true])%list
  | None =>
      connected_clients w' = connected_clients w /\
      topic_subscribers w' = topic_subscribers w /\
      wire w' = wire w
  end.
Proof.
  destruct w as [cl tp wi co he tr br]. cbv zeta.
  unfold handle_disconnect. run.
  destruct (cl !! socket) eqn:Hl; run; [|auto].
  rewrite Hl. run. destruct (br socket) eqn:Hb; run; rewrite ?Hb; run; auto.
Qed.

Lemma handle_connect_obs socket args w :
  let w' := world_of (handle_connect socket args w) in
  broken w' = broken w /\ topic_subscribers w' = topic_subscribers w /\
  match Parse.connect_args args with
  | Some (_, client_name, client_pid) =>
      let assigned :=
        unique_name (map_to_list (connected_clients w)) client_name client_name client_pid in
      connected_clients w' =
        <[socket := mkClientInfo socket assigned client_pid]> (connected_clients w) /\
      wire w' = (wire w ++ if broken w socket then []
                           else [mkWrite socket
                                   (line_of ("[SERVER] Connected as " +:+ assigned)) true])%list
  | None => connected_clients w' = connected_clients w /\ wire w' = wire w
  end.
Proof.
  destruct w as [cl tp wi co he tr br]. cbv zeta.
  unfold handle_connect. run.
  destruct (Parse.connect_args args) as [[[port nm] p]|]; run.
  - rewrite lookup_insert_eq. run. destruct (br socket) eqn:Hb; run;
      rewrite ?Hb, ?app_nil_r; run; auto.
  - destruct (cl !! socket); run; [destruct (br socket); run; auto | auto].
Qed.

End Observations.

(** * The fan-out loop *)

Section FanOut.

Lemma narrowed_refl topic line w w' :
  connected_clients w' = connected_clients w ->
  broken w' = broken w ->
  topic_subscribers w' = topic_subscribers w ->
  wire w' = wire w ->
  narrowed topic line w w'.
Proof.
  intros Hc Hb Ht Hw. unfold narrowed, subscribers. rewrite Hc, Hb, Ht.
  repeat split; auto. exists []. rewrite app_nil_r. auto.
Qed.

Lemma narrowed_trans topic line w1 w2 w3 :
  narrowed topic line w1 w2 -> narrowed topic line w2 w3 -> narrowed topic line w1 w3.
Proof.
  intros (Hc1 & Hb1 & Ho1 & Hs1 & new1 & Hw1 & Hf1) (Hc2 & Hb2 & Ho2 & Hs2 & new2 & Hw2 & Hf2).
  unfold narrowed. repeat split.
  - congruence.
  - congruence.
  - intros t Ht. rewrite Ho2, Ho1 by assumption. reflexivity.
  - etransitivity; eassumption.
  - exists (new1 ++ new2)%list. split.
    + rewrite Hw2, Hw1, app_assoc. reflexivity.
    + apply Forall_app. split; [assumption|].
      eapply Forall_impl; [exact Hf2|]. intros x [Hx Hl]. split; [|assumption].
      eapply elem_of_sublist; eassumption.
Qed.

Lemma fan_out_narrowed topic line remaining position w :
  narrowed topic (line_of line) w (world_of (fan_out topic line remaining position w)).
Proof.
  revert position w. induction remaining as [|n IH]; intros position w.
  - apply narrowed_refl; reflexivity.
  - destruct w as [cl tp wi co he tr br]. cbn [fan_out]. run.
    destruct (tp !! topic) as [v|] eqn:Hv; cbn [default from_option id];
      [|rewrite lookup_nil; apply narrowed_refl; reflexivity].
    destruct (v !! position) as [subscriber|] eqn:Hp;
      [|apply narrowed_refl; reflexivity].
    assert (subscriber ∈ v) as Hin by (eapply list_elem_of_lookup_2; eassumption).
    destruct (br subscriber) eqn:Hbr; run.
    + rewrite Hv. run.
      eapply narrowed_trans; [|apply IH].
      unfold narrowed, subscribers. cbn. rewrite Hv, lookup_insert_eq. cbn.
      repeat split; auto.
      * intros t Ht. apply lookup_insert_ne. congruence.
      * apply erase_remove_sublist.
      * eexists [_]. split; [reflexivity|]. repeat constructor. exact Hin.
    + eapply narrowed_trans; [|apply IH].
      unfold narrowed, subscribers. cbn. rewrite Hv. cbn.
      repeat split; auto.
      eexists [_]. split; [reflexivity|]. repeat constructor. exact Hin.
Qed.

End FanOut.

(** * What PUBLISH does *)

Section Publish.

Lemma narrowed_publish_effect topic line w w' :
  narrowed topic line w w' -> publish_effect w w'.
Proof.
  intros (Hc & Hb & Ho & Hs & new & Hw & Hf). unfold publish_effect.
  repeat split; auto.
  - intros t. destruct (decide (t = topic)) as [->|Hne]; [assumption|].
    unfold subscribers. rewrite Ho by assumption. reflexivity.
  - exists new. split; [assumption|].
    eapply Forall_impl; [exact Hf|]. intros x [Hx _] _. exists topic. exact Hx.
Qed.

(** A reply to the sender is not a fan-out line. *)
Lemma reply_publish_effect socket message w :
  String.prefix "[Message] " (line_of message) = false ->
  publish_effect w (world_of (send_message socket message w)).
Proof.
  intros Hp. rewrite send_message_world. unfold publish_effect. cbn.
  repeat split; auto. eexists [_]. split; [reflexivity|].
  repeat constructor. unfold is_delivery. cbn [bytes]. rewrite Hp. discriminate.
Qed.

Lemma deliver_effect socket topic payload w :
  publish_effect w (world_of (deliver socket topic payload w)).
Proof.
  destruct w as [cl tp wi co he tr br]. unfold deliver. run.
  destruct (tp !! topic) as [[|s v]|] eqn:Hv.
  1, 3: destruct (br socket); run;
        (unfold publish_effect, subscribers; cbn; repeat split; auto;
         eexists [_]; split; [reflexivity|]; repeat constructor; discriminate).
  destruct (cl !! socket); run; [destruct (br socket) eqn:Hb; run|].
  1: { unfold publish_effect, subscribers; cbn; repeat split; auto.
       exists []. split; [symmetry; apply app_nil_r | constructor]. }
  all: match goal with
       | |- context [fan_out ?t ?l ?n ?p ?W] =>
           pose proof (fan_out_narrowed t l n p W) as Hn;
           apply narrowed_publish_effect in Hn;
           destruct (fan_out t l n p W) as [[] w'|w'|w'];
           destruct w'; run; exact Hn
       end.
Qed.

Lemma handle_publish_effect socket args w :
  publish_effect w (world_of (handle_publish socket args w)).
Proof.
  unfold handle_publish.
  destruct (Str.find Str.space args) as [space|];
    [|apply reply_publish_effect; reflexivity].
  cbv zeta.
  destruct (Str.empty (sanitize_topic _));
    [apply reply_publish_effect; reflexivity|].
  destruct (Str.empty (sanitize_message _));
    [apply reply_publish_effect; reflexivity|].
  apply deliver_effect.
Qed.

End Publish.

(** * PUBLISH when every write succeeds, and when only the last one fails *)

Section Delivery.

(** A loop of [n + m] iterations is a loop of [n] followed by one of [m]. *)
Lemma fan_out_add topic line n m pos w :
  fan_out topic line (n + m) pos w =
  match fan_out topic line n pos w with
  | Ok _ w' => fan_out topic line m (pos + n) w'
  | Throw w' => Throw w'
  | Undef w' => Undef w'
  end.
Proof.
  revert pos w. induction n as [|n IH]; intros pos w.
  - cbn. rewrite Nat.add_0_r. reflexivity.
  - cbn [Nat.add fan_out]. unfold mbind, M_bind.
    destruct (read_topics w) as [topics w1|w1|w1]; [|reflexivity..].
    destruct (default [] (topics !! topic) !! pos) as [subscriber|]; [|reflexivity].
    destruct (try_catch _ _ w1) as [[] w2|w2|w2]; [|reflexivity..].
    rewrite IH. replace (S pos + n) with (pos + S n) by lia. reflexivity.
Qed.

(** While the writes succeed the loop returns, leaves the registries alone
    and writes the line to the subscribers in the order of the vector. *)
Lemma fan_out_alive topic line v :
  forall n pos w,
    topic_subscribers w !! topic = Some v ->
    (forall i s, pos <= i < pos + n -> v !! i = Some s -> broken w s = false) ->
    pos + n <= List.length v ->
    exists w',
      fan_out topic line n pos w = Ok tt w' /\
      connected_clients w' = connected_clients w /\
      topic_subscribers w' = topic_subscribers w /\
      broken w' = broken w /\
      wire w' = (wire w ++ (ok_write line <$> take n (drop pos v)))%list.
Proof.
  induction n as [|n IH]; intros pos w Hv Halive Hlen.
  - exists w. cbn. rewrite app_nil_r. auto.
  - destruct (lookup_lt_is_Some_2 v pos) as [s Hs]; [lia|].
    assert (broken w s = false) as Hb by (apply (Halive pos); [lia|exact Hs]).
    destruct w as [cl tp wi co he tr br]. cbn in Hv, Hb.
    cbn [fan_out]. run. rewrite Hv. cbn [default from_option id]. rewrite Hs. run. rewrite Hb. run.
    match goal with |- context [fan_out topic line n (S pos) ?W] =>
      destruct (IH (S pos) W) as (w' & Hr & Hc & Ht & Hbr & Hw) end.
    + exact Hv.
    + intros i s' Hi. apply Halive. lia.
    + lia.
    + exists w'. split; [exact Hr|]. cbn in Hc, Ht, Hbr, Hw. repeat split; try assumption.
      etransitivity; [exact Hw|]. rewrite (drop_S _ _ _ Hs). cbn. rewrite <- app_assoc. reflexivity.
Qed.

Lemma erase_remove_last (init : list conn) z :
  z ∉ init -> erase_remove z (init ++ [z]) = init.
Proof.
  intros Hz. unfold erase_remove. rewrite filter_app.
  fold (erase_remove z init). rewrite erase_remove_absent by assumption.
  rewrite filter_cons_False by (intros H; apply H; reflexivity).
  rewrite filter_nil. apply app_nil_r.
Qed.

(** When only the write to the last element of the vector fails, every other
    subscriber has been served by then and the erase shortens the vector to
    the length the loop stops at. *)
Lemma fan_out_last_fails topic line init z w :
  topic_subscribers w !! topic = Some (init ++ [z])%list ->
  z ∉ init ->
  broken w z = true ->
  (forall s, s ∈ init -> broken w s = false) ->
  exists w',
    fan_out topic line (List.length (init ++ [z])) 0 w = Ok tt w' /\
    connected_clients w' = connected_clients w /\
    topic_subscribers w' = <[topic := init]> (topic_subscribers w) /\
    wire w' = (wire w ++ (ok_write line <$> init) ++ [mkWrite z (line_of line) false])%list.
Proof.
  destruct w as [cl0 tp0 wi0 co0 he0 tr0 br0].
  cbn [connected_clients topic_subscribers wire broken].
  intros Hv Hz Hbz Halive.
  rewrite length_app. cbn [List.length]. rewrite fan_out_add.
  match goal with |- context [fan_out topic line (List.length init) 0 ?W] =>
    destruct (fan_out_alive topic line (init ++ [z]) (List.length init) 0 W Hv)
      as (w1 & -> & Hc & Ht & Hb & Hw) end.
  { intros i s Hi Hs. apply Halive. rewrite lookup_app_l in Hs by lia.
    eapply list_elem_of_lookup_2. exact Hs. }
  { rewrite length_app. cbn. lia. }
  rewrite drop_0, take_app_length in Hw.
  destruct w1 as [cl tp wi co he tr br].
  cbn [connected_clients topic_subscribers wire broken] in Hc, Ht, Hb, Hw. subst cl tp wi br.
  cbn [fan_out Nat.add]. run. rewrite Hv. cbn [default from_option id].
  rewrite lookup_app_r by lia. rewrite Nat.sub_diag. cbn [lookup list_lookup].
  run. rewrite Hbz. run. rewrite Hv. run.
  eexists. split; [reflexivity|].
  rewrite erase_remove_last by assumption. rewrite <- app_assoc. auto.
Qed.

(** PUBLISH to a topic all of whose subscribers can be written to, from a
    sender whose endpoints can be read if it has a session: each subscriber
    gets the line, in the order of subscription, and the topic keeps its
    subscribers. *)
Lemma deliver_all_alive socket topic payload w v :
  topic_subscribers w !! topic = Some v ->
  v <> [] ->
  (forall s, s ∈ v -> broken w s = false) ->
  unreachable w socket = false ->
  let r := deliver socket topic payload w in
  is_ok r = true
  /\ topic_subscribers (world_of r) = topic_subscribers w
  /\ wire (world_of r) = (wire w ++ (ok_write (fan_out_line topic payload) <$> v))%list.
Proof.
  destruct w as [cl tp wi co he tr br].
  cbn [connected_clients topic_subscribers wire broken].
  unfold unreachable. cbn [connected_clients topic_subscribers wire broken].
  intros Hv Hne Halive Hsender. unfold deliver. run. rewrite Hv.
  destruct v as [|s0 v0]; [congruence|].
  assert (forall W, topic_subscribers W = tp -> broken W = br ->
            exists w',
              fan_out topic (fan_out_line topic payload) (List.length (s0 :: v0)) 0 W
              = Ok tt w' /\
              topic_subscribers w' = tp /\
              wire w' =
              (wire W ++ (ok_write (fan_out_line topic payload) <$> (s0 :: v0)))%list)
    as Hrun.
  { intros W Ht Hb.
    destruct (fan_out_alive topic (fan_out_line topic payload) (s0 :: v0)
                (List.length (s0 :: v0)) 0 W)
      as (w' & Hr & _ & Ht' & _ & Hw').
    - rewrite Ht. exact Hv.
    - intros i s _ Hs. rewrite Hb. apply Halive. eapply list_elem_of_lookup_2. exact Hs.
    - cbn. lia.
    - exists w'. rewrite drop_0, firstn_all in Hw'. rewrite Ht' , Ht. auto. }
  destruct (cl !! socket); run; rewrite ?Hsender; run;
    match goal with |- context [fan_out _ _ _ 0 ?W] =>
      destruct (Hrun W eq_refl eq_refl) as (w' & Hr & Ht & Hw) end;
    unfold fan_out_line in Hr; rewrite Hr; destruct w'; cbn in Ht, Hw |- *; auto.
Qed.

(** PUBLISH to a topic where only the last subscriber cannot be written to,
    from a sender whose endpoints can be read if it has a session: the others
    get the line and the last one is removed. *)
Lemma deliver_last_fails socket topic payload w init z :
  topic_subscribers w !! topic = Some (init ++ [z])%list ->
  z ∉ init ->
  broken w z = true ->
  (forall s, s ∈ init -> broken w s = false) ->
  unreachable w socket = false ->
  let r := deliver socket topic payload w in
  is_ok r = true
  /\ topic_subscribers (world_of r) = <[topic := init]> (topic_subscribers w)
  /\ wire (world_of r) =
     (wire w ++ (ok_write (fan_out_line topic payload) <$> init)
             ++ [mkWrite z (line_of (fan_out_line topic payload)) false])%list.
Proof.
  destruct w as [cl tp wi co he tr br].
  cbn [connected_clients topic_subscribers wire broken].
  unfold unreachable. cbn [connected_clients topic_subscribers wire broken].
  intros Hv Hz Hbz Halive Hsender. unfold deliver. run. rewrite Hv.
  destruct (init ++ [z])%list as [|s0 v0] eqn:Hl; [destruct init; discriminate|].
  rewrite <- Hl in *.
  destruct (cl !! socket); run; rewrite ?Hsender; run;
    match goal with |- context [fan_out _ _ _ 0 ?W] =>
      destruct (fan_out_last_fails topic (fan_out_line topic payload) init z W)
        as (w' & Hr & _ & Ht & Hw); [exact Hv | exact Hz | exact Hbz | exact Halive |] end;
    unfold fan_out_line in Hr; rewrite Hr; destruct w'; cbn in Ht, Hw |- *; auto.
Qed.

End Delivery.

(** * A connection appears at most once in a subscriber set *)

Section NoDuplicates.

Lemma no_duplicates_subscribers w topic :
  no_duplicates w -> NoDup (subscribers w topic).
Proof.
  intros Hinv. unfold subscribers.
  destruct (topic_subscribers w !! topic) as [subs|] eqn:Hl; cbn.
  - eapply Hinv; eassumption.
  - constructor.
Qed.

Lemma no_duplicates_same w w' :
  topic_subscribers w' = topic_subscribers w -> no_duplicates w -> no_duplicates w'.
Proof. unfold no_duplicates. intros ->. auto. Qed.

Lemma no_duplicates_shrunk w w' :
  (forall t, subscribers w' t `sublist_of` subscribers w t) ->
  no_duplicates w -> no_duplicates w'.
Proof.
  intros Hs Hinv topic subs Hl. specialize (Hs topic).
  unfold subscribers at 1 in Hs. rewrite Hl in Hs. cbn in Hs.
  eapply sublist_NoDup; [|exact Hs]. apply no_duplicates_subscribers. exact Hinv.
Qed.

Lemma subscribe_no_duplicates socket args w :
  no_duplicates w -> no_duplicates (world_of (handle_subscribe socket args w)).
Proof.
  intros Hinv. destruct (Str.empty (sanitize_topic args)) eqn:He.
  - unfold handle_subscribe. rewrite He. rewrite send_message_world.
    eapply no_duplicates_same; [|exact Hinv]. reflexivity.
  - destruct (handle_subscribe_obs socket args w He) as (_ & _ & Hobs).
    destruct (contains socket _) eqn:Hc.
    + destruct Hobs as [Ht _]. eapply no_duplicates_same; eassumption.
    + destruct Hobs as [Ht _]. intros topic subs. rewrite Ht.
      destruct (decide (sanitize_topic args = topic)) as [<-|Hne].
      * rewrite lookup_insert_eq. intros [= <-].
        apply NoDup_app. split; [|split].
        -- apply (no_duplicates_subscribers w _ Hinv).
        -- intros x Hx Hx'. apply list_elem_of_singleton in Hx'. subst x.
           apply contains_false in Hc. contradiction.
        -- apply NoDup_singleton.
      * rewrite lookup_insert_ne by assumption. apply Hinv.
Qed.

Lemma unsubscribe_no_duplicates socket args w :
  no_duplicates w -> no_duplicates (world_of (handle_unsubscribe socket args w)).
Proof.
  intros Hinv. destruct (Str.empty (sanitize_topic args)) eqn:He.
  - unfold handle_unsubscribe. rewrite He. rewrite send_message_world.
    eapply no_duplicates_same; [|exact Hinv]. reflexivity.
  - destruct (handle_unsubscribe_obs socket args w He) as (_ & _ & Hobs).
    destruct (contains socket _) eqn:Hc.
    + destruct Hobs as [Ht _]. intros topic subs. rewrite Ht.
      destruct (decide (sanitize_topic args = topic)) as [<-|Hne].
      * rewrite lookup_insert_eq. intros [= <-].
        apply NoDup_filter. apply (no_duplicates_subscribers w _ Hinv).
      * rewrite lookup_insert_ne by assumption. apply Hinv.
    + destruct Hobs as [Ht _]. eapply no_duplicates_same; eassumption.
Qed.

Lemma disconnect_no_duplicates socket args w :
  no_duplicates w -> no_duplicates (world_of (handle_disconnect socket args w)).
Proof.
  intros Hinv. destruct (handle_disconnect_obs socket args w) as (_ & Hobs).
  destruct (connected_clients w !! socket); [destruct (broken w socket)|].
  - destruct Hobs as (_ & Ht & _). eapply no_duplicates_same; eassumption.
  - destruct Hobs as (_ & Ht & _). intros topic subs. rewrite Ht, lookup_fmap.
    destruct (topic_subscribers w !! topic) as [v|] eqn:Hv; cbn; [|discriminate].
    intros [= <-]. apply NoDup_filter. eapply Hinv; eassumption.
  - destruct Hobs as (_ & Ht & _). eapply no_duplicates_same; eassumption.
Qed.

Lemma publish_no_duplicates socket args w :
  no_duplicates w -> no_duplicates (world_of (handle_publish socket args w)).
Proof.
  destruct (handle_publish_effect socket args w) as (_ & _ & Hs & _).
  apply no_duplicates_shrunk. exact Hs.
Qed.

Lemma connect_no_duplicates socket args w :
  no_duplicates w -> no_duplicates (world_of (handle_connect socket args w)).
Proof.
  destruct (handle_connect_obs socket args w) as (_ & Ht & _).
  apply no_duplicates_same. exact Ht.
Qed.

(** After SUBSCRIBE to a valid topic the socket is in the topic's vector,
    whatever the state before. *)
Lemma subscribe_subscribed socket raw w :
  Str.empty (sanitize_topic raw) = false ->
  socket ∈ subscribers (world_of (handle_subscribe socket raw w)) (sanitize_topic raw).
Proof.
  intros He. destruct (handle_subscribe_obs socket raw w He) as (_ & _ & Hobs).
  fold (subscribers w (sanitize_topic raw)) in Hobs.
  unfold subscribers at 1.
  destruct (contains socket _) eqn:Hc; destruct Hobs as [-> _].
  - apply contains_true in Hc. exact Hc.
  - rewrite lookup_insert_eq. cbn. apply elem_of_app. right. apply list_elem_of_singleton.
    reflexivity.
Qed.

End NoDuplicates.

(** * UNSUBSCRIBE without a subscription *)

(** C8.  For every connection, every state and every topic argument that
    passes sanitization: when the topic has no entry in the topic registry,
    and when it has one that does not hold the connection, UNSUBSCRIBE
    answers "You are not subscribed" and leaves both registries as they
    were; a topic without an entry still has none afterwards. *)
Theorem unsubscribe_not_subscribed (socket : conn) (raw : string) (w : World) :
  Str.empty (sanitize_topic raw) = false ->
  let topic := sanitize_topic raw in
  (topic_subscribers w !! topic = None
   \/ exists subs, topic_subscribers w !! topic = Some subs /\ socket ∉ subs) ->
  let w' := world_of (handle_unsubscribe socket raw w) in
  wire w' = (wire w ++ [mkWrite socket
                          (line_of ("[SERVER_ERROR] You are not subscribed to " +:+ topic))
                          (negb (broken w socket))])%list
  /\ topic_subscribers w' = topic_subscribers w
  /\ connected_clients w' = connected_clients w
  /\ (topic_subscribers w !! topic = None -> topic_subscribers w' !! topic = None).
Proof.
  intros He topic Habsent w'.
  destruct (handle_unsubscribe_obs socket raw w He) as (Hc & _ & Hobs).
  assert (contains socket (default [] (topic_subscribers w !! sanitize_topic raw)) = false)
    as Hno.
  { apply contains_false. destruct Habsent as [Hn|(subs & Hs & Hn)].
    - fold topic. rewrite Hn. apply not_elem_of_nil.
    - fold topic. rewrite Hs. exact Hn. }
  rewrite Hno in Hobs. destruct Hobs as [Ht Hw]. subst w' topic.
  rewrite Ht. auto.
Qed.

(** UNSUBSCRIBE from "ghost", which nobody ever subscribed to. *)
Lemma unsubscribe_not_subscribed_witness :
  topic_subscribers (world_of (handle_unsubscribe 1 "ghost" (start []))) = ∅.
Proof.
  apply (unsubscribe_not_subscribed 1 "ghost" (start []) eq_refl (or_introl eq_refl)).
Defined.

(** UNSUBSCRIBE from "news" by socket 2 while only socket 1 is subscribed. *)
Example unsubscribe_other_subscriber :
  let w := world_of (handle_subscribe 1 "news" (start [])) in
  topic_subscribers (world_of (handle_unsubscribe 2 "news" w)) !! "news" = Some [1].
Proof. vm_compute. reflexivity. Qed.

(** * Registration *)

Section Registration.

Lemma unique_name_free entries n p :
  Forall (fun e : conn * ClientInfo => name e.2 ≠ n) entries ->
  unique_name entries n n p = n.
Proof.
  induction 1 as [|e entries He _ IH]; cbn [unique_name]; [reflexivity|].
  destruct (String.eqb_spec (name e.2) n); [contradiction | exact IH].
Qed.

Lemma unique_name_taken entries n p :
  Exists (fun e : conn * ClientInfo => name e.2 = n) entries ->
  unique_name entries n n p = suffixed n p.
Proof.
  induction entries as [|e entries IH]; intros Hex; cbn [unique_name].
  - inversion Hex.
  - destruct (String.eqb_spec (name e.2) n) as [Heq|Hne]; [reflexivity|].
    apply IH. inversion Hex; [contradiction | assumption].
Qed.

Lemma unique_name_in_use clients n p :
  name_in_use clients n -> unique_name (map_to_list clients) n n p = suffixed n p.
Proof.
  intros (c & info & Hl & Hn). apply unique_name_taken.
  apply Exists_exists. exists (c, info). split; [|exact Hn].
  apply elem_of_map_to_list. exact Hl.
Qed.

Lemma unique_name_not_in_use clients n p :
  ~ name_in_use clients n -> unique_name (map_to_list clients) n n p = n.
Proof.
  intros Hfree. apply unique_name_free. apply Forall_forall.
  intros [c info] Hin Hn. apply elem_of_map_to_list in Hin.
  apply Hfree. exists c, info. auto.
Qed.

(** The loop assigns the name itself or the suffixed name, nothing else. *)
Lemma unique_name_cases entries n p :
  unique_name entries n n p = n \/ unique_name entries n n p = suffixed n p.
Proof.
  induction entries as [|e entries IH]; cbn [unique_name]; [auto|].
  destruct (String.eqb (name e.2) n); auto.
Qed.

Lemma insert_unique_names clients socket info :
  unique_names clients ->
  (forall c other, c ≠ socket -> clients !! c = Some other -> name other ≠ name info) ->
  unique_names (<[socket := info]> clients).
Proof.
  intros Hu Hfresh c1 c2 i1 i2 H1 H2 Hn.
  destruct (decide (c1 = socket)) as [->|N1]; destruct (decide (c2 = socket)) as [->|N2].
  - reflexivity.
  - rewrite lookup_insert_eq in H1. rewrite lookup_insert_ne in H2 by congruence.
    injection H1 as <-. exfalso. eapply Hfresh; [exact N2 | exact H2 | congruence].
  - rewrite lookup_insert_eq in H2. rewrite lookup_insert_ne in H1 by congruence.
    injection H2 as <-. exfalso. eapply Hfresh; [exact N1 | exact H1 | congruence].
  - rewrite lookup_insert_ne in H1 by congruence.
    rewrite lookup_insert_ne in H2 by congruence. eapply Hu; eassumption.
Qed.

End Registration.

Lemma name_in_use_dec clients n : {name_in_use clients n} + {~ name_in_use clients n}.
Proof.
  destruct (decide (Exists (fun e : conn * ClientInfo => name e.2 = n) (map_to_list clients)))
    as [Hex|Hno].
  - left. apply Exists_exists in Hex as ([c info] & Hin & Hn).
    apply elem_of_map_to_list in Hin. exists c, info. auto.
  - right. intros (c & info & Hl & Hn). apply Hno. apply Exists_exists.
    exists (c, info). split; [apply elem_of_map_to_list; exact Hl | exact Hn].
Qed.

(** C4, as the code has it.  A well-formed CONNECT stores a session for the
    socket; its name is the requested one when no session of the registry
    (the socket's own previous one included) has that name, and the
    requested name followed by "-" and the pid otherwise; the confirmation
    is written unless the peer is gone, in which case the endpoint read for
    the log has thrown before.  The suffixed name
    is not checked again: the registration keeps display names unique when
    they were unique before and, in case of a collision, no other
    connection's session already has the suffixed name.  On a fresh broker
    CONNECTs with name "bob" and pids 100 and 200 from two sockets give the
    sessions "bob" and "bob-200". *)
Theorem register_renames_once
    (socket : conn) (args : string) (client_port : Z) (client_name : string)
    (client_pid : Z) (w : World) :
  Parse.connect_args args = Some (client_port, client_name, client_pid) ->
  let clients := connected_clients w in
  let w' := world_of (handle_connect socket args w) in
  (exists assigned,
      connected_clients w' = <[socket := mkClientInfo socket assigned client_pid]> clients
      /\ wire w' = (wire w ++ if broken w socket then []
                              else [mkWrite socket
                                      (line_of ("[SERVER] Connected as " +:+ assigned))
                                      true])%list
      /\ (name_in_use clients client_name -> assigned = suffixed client_name client_pid)
      /\ (~ name_in_use clients client_name -> assigned = client_name))
  /\ (unique_names clients ->
      (name_in_use clients client_name ->
       forall c other, c ≠ socket -> clients !! c = Some other ->
                       name other ≠ suffixed client_name client_pid) ->
      unique_names (connected_clients w'))
  /\ (let b1 := world_of (handle_connect 1 "1999 bob 100" (start [])) in
      let b2 := world_of (handle_connect 2 "1999 bob 200" b1) in
      connected_clients b2 !! 1 = Some (mkClientInfo 1 "bob" 100)
      /\ connected_clients b2 !! 2 = Some (mkClientInfo 2 "bob-200" 200)).
Proof.
  intros Hparse clients w'.
  destruct (handle_connect_obs socket args w) as (_ & _ & Hobs).
  rewrite Hparse in Hobs. cbv zeta in Hobs. destruct Hobs as [Hc Hw].
  fold clients in Hc. fold w' in Hc, Hw.
  split; [|split].
  - eexists. split; [exact Hc|]. split; [exact Hw|]. split.
    + intros Hin. apply unique_name_in_use. exact Hin.
    + intros Hfree. apply unique_name_not_in_use. exact Hfree.
  - intros Hu Hfresh. rewrite Hc. apply insert_unique_names; [exact Hu|].
    cbn [name]. intros c other Hne Hl.
    destruct (name_in_use_dec clients client_name) as [Hin|Hfree].
    + fold clients. rewrite (unique_name_in_use _ _ _ Hin). eapply Hfresh; eassumption.
    + fold clients. rewrite (unique_name_not_in_use _ _ _ Hfree).
      intros Hn. apply Hfree. exists c, other. auto.
  - split; vm_compute; reflexivity.
Qed.

(** The second "bob" of the example. *)
Lemma register_renames_once_witness :
  let b1 := world_of (handle_connect 1 "1999 bob 100" (start [])) in
  let b2 := world_of (handle_connect 2 "1999 bob 200" b1) in
  exists assigned,
    connected_clients b2 = <[2 := mkClientInfo 2 assigned 200]> (connected_clients b1)
    /\ wire b2 = (wire b1 ++ if broken b1 2 then []
                             else [mkWrite 2 (line_of ("[SERVER] Connected as " +:+ assigned))
                                     true])%list
    /\ (name_in_use (connected_clients b1) "bob" -> assigned = suffixed "bob" 200)
    /\ (~ name_in_use (connected_clients b1) "bob" -> assigned = "bob").
Proof.
  intros b1 b2.
  apply (register_renames_once 2 "1999 bob 200" 1999 "bob" 200 b1 eq_refl).
Defined.

(** "bob-200" is registered first; the later "bob" with pid 200 is renamed
    to the name already in use. *)
Lemma registration_can_duplicate_names :
  let w1 := world_of (handle_connect 1 "1999 bob-200 7" (start [])) in
  let w2 := world_of (handle_connect 2 "1999 bob 100" w1) in
  let w3 := world_of (handle_connect 3 "1999 bob 200" w2) in
  connected_clients w3 !! 1 = Some (mkClientInfo 1 "bob-200" 7)
  /\ connected_clients w3 !! 2 = Some (mkClientInfo 2 "bob" 100)
  /\ connected_clients w3 !! 3 = Some (mkClientInfo 3 "bob-200" 200)
  /\ ~ unique_names (connected_clients w3).
Proof.
  intros w1 w2 w3.
  assert (connected_clients w3 !! 1 = Some (mkClientInfo 1 "bob-200" 7)) as H1
    by (vm_compute; reflexivity).
  assert (connected_clients w3 !! 3 = Some (mkClientInfo 3 "bob-200" 200)) as H3
    by (vm_compute; reflexivity).
  split; [exact H1|]. split; [vm_compute; reflexivity|]. split; [exact H3|].
  intros Hu. specialize (Hu 1 3 _ _ H1 H3 eq_refl). discriminate.
Qed.

(** C10.  A well-formed CONNECT on a socket that already has a session is
    not rejected: it is answered with "Connected as" (unless the peer is
    gone: then the endpoint read for the log throws before the reply) and
    the socket's entry is replaced by a session with the new pid whose name
    is the requested name or the requested name with the pid appended.  The
    scan for a
    collision runs over the socket's own entry too: asking again for the
    name the socket already has stores that name with "-" and the new pid
    appended. *)
Theorem reconnect_overwrites
    (socket : conn) (args : string) (client_port : Z) (client_name : string)
    (client_pid : Z) (info : ClientInfo) (w : World) :
  connected_clients w !! socket = Some info ->
  Parse.connect_args args = Some (client_port, client_name, client_pid) ->
  let w' := world_of (handle_connect socket args w) in
  (exists assigned,
      (assigned = client_name \/ assigned = suffixed client_name client_pid)
      /\ connected_clients w' =
         <[socket := mkClientInfo socket assigned client_pid]> (connected_clients w)
      /\ wire w' = (wire w ++ if broken w socket then []
                              else [mkWrite socket
                                      (line_of ("[SERVER] Connected as " +:+ assigned))
                                      true])%list)
  /\ (client_name = name info ->
      connected_clients w' !! socket =
      Some (mkClientInfo socket (suffixed client_name client_pid) client_pid)).
Proof.
  intros Hreg Hparse w'.
  destruct (handle_connect_obs socket args w) as (_ & _ & Hobs).
  rewrite Hparse in Hobs. cbv zeta in Hobs. destruct Hobs as [Hc Hw]. fold w' in Hc, Hw.
  split.
  - eexists. split; [apply unique_name_cases|]. split; [exact Hc | exact Hw].
  - intros Hname. rewrite Hc, lookup_insert_eq. f_equal. f_equal.
    apply unique_name_in_use. exists socket, info. auto.
Qed.

(** Socket 1 sends the same CONNECT twice. *)
Lemma reconnect_overwrites_witness :
  let w := world_of (handle_connect 1 "1999 bob 100" (start [])) in
  connected_clients (world_of (handle_connect 1 "1999 bob 100" w)) !! 1 =
  Some (mkClientInfo 1 "bob-100" 100).
Proof.
  intros w.
  destruct (reconnect_overwrites 1 "1999 bob 100" 1999 "bob" 100
              (mkClientInfo 1 "bob" 100) w eq_refl eq_refl) as [_ Hsame].
  exact (Hsame eq_refl).
Defined.

(** * One command through the read loop *)

Section ReadLoop.

(** A read holding one known command leaves the state its handler leaves,
    up to the console. *)
Lemma client_handler_command c data command args handler w :
  split_command data = (command, args) ->
  command_handlers command = Some handler ->
  same_data
    (world_of (handler c args
                 (with_console (console w ++ [Received (Str.erase_remove Str.newline data)]) w)))
    (world_of (client_handler c [Data data] w)).
Proof.
  intros Hs Hc. unfold client_handler. cbn [read_loop]. rewrite Hs, Hc. run.
  match goal with |- context [handler c args ?W] => destruct (handler c args W) as [[] v|v|v] end;
    destruct v; run; repeat split.
Qed.

(** End of stream: the loop logs and leaves; no table is written. *)
Lemma client_handler_eof c rest w :
  same_data w (world_of (client_handler c (Eof :: rest) w)).
Proof.
  destruct w as [cl tp wi co he tr br]. unfold client_handler. cbn [read_loop]. run.
  destruct (cl !! c); run; [destruct (br c); run|]; repeat split.
Qed.

(** Any other read error: the exception leaves the loop; no table is
    written. *)
Lemma client_handler_failed c rest w :
  same_data w (world_of (client_handler c (Failed :: rest) w)).
Proof.
  destruct w as [cl tp wi co he tr br]. unfold client_handler. cbn [read_loop]. run.
  repeat split.
Qed.

End ReadLoop.

(** * No duplicates, over the whole read loop *)

Section Invariant.

Lemma command_handlers_no_duplicates command h :
  command_handlers command = Some h ->
  forall s args w, no_duplicates w -> no_duplicates (world_of (h s args w)).
Proof.
  unfold command_handlers.
  repeat match goal with |- context [String.eqb ?a ?b] => destruct (String.eqb a b) end;
    intros [= <-]; intros s args w.
  - apply connect_no_duplicates.
  - apply disconnect_no_duplicates.
  - apply subscribe_no_duplicates.
  - apply unsubscribe_no_duplicates.
  - apply publish_no_duplicates.
Qed.

Lemma read_loop_no_duplicates c reads :
  forall w, no_duplicates w -> no_duplicates (world_of (read_loop c reads w)).
Proof.
  induction reads as [|[data| |] rest IH]; intros w Hinv.
  - exact Hinv.
  - cbn [read_loop]. destruct (split_command data) as [command args].
    unfold mbind, M_bind. cbn [print].
    set (w1 := with_console _ w).
    assert (no_duplicates w1) as H1 by exact Hinv.
    assert (no_duplicates
              (world_of (match command_handlers command with
                         | Some handler => handler c args
                         | None => send_message c ("[SERVER_ERROR] Unknown command: " +:+ command)
                         end w1))) as H2.
    { destruct (command_handlers command) as [handler|] eqn:Hc.
      - eapply command_handlers_no_duplicates; [exact Hc | exact H1].
      - rewrite send_message_world. exact H1. }
    destruct (match command_handlers command with
              | Some handler => handler c args
              | None => _
              end w1) as [[] w2|w2|w2]; cbn [world_of] in H2 |- *.
    + apply IH. exact H2.
    + exact H2.
    + exact H2.
  - destruct (client_handler_eof c rest w) as (_ & Ht & _).
    unfold client_handler, try_catch in Ht.
    destruct (read_loop c (Eof :: rest) w) as [[] v|v|v]; cbn [world_of] in Ht |- *;
      (eapply no_duplicates_same; [exact Ht | exact Hinv]).
  - exact Hinv.
Qed.

(** The invariant of the broker: whatever the connection threads read, one
    after the other, no subscriber vector ever holds a connection twice. *)
Lemma client_handler_no_duplicates c reads w :
  no_duplicates w -> no_duplicates (world_of (client_handler c reads w)).
Proof.
  intros Hinv. pose proof (read_loop_no_duplicates c reads w Hinv) as H.
  unfold client_handler, try_catch.
  destruct (read_loop c reads w) as [[] w'|w'|w']; cbn [world_of] in H |- *; exact H.
Qed.

Lemma start_no_duplicates dead : no_duplicates (start dead).
Proof. intros topic subs H. cbn in H. rewrite lookup_empty in H. discriminate. Qed.

End Invariant.

(** C7.  For every connection, every state and every topic argument that
    passes sanitization: a second SUBSCRIBE to the topic is answered with
    "Already subscribed" and leaves the topic registry, hence the topic's
    subscriber vector and its size, as the first SUBSCRIBE left it.  And
    SUBSCRIBE, UNSUBSCRIBE, PUBLISH, DISCONNECT (and CONNECT), with any
    argument and on any state whose subscriber vectors are free of
    duplicates, end in a state whose vectors are free of duplicates, and so
    does the read loop of a connection on any sequence of reads; for a
    PUBLISH run that reaches an undefined read this is the state at that
    read. *)
Theorem subscriber_sets_have_no_duplicates
    (socket : conn) (raw : string) (w : World) :
  Str.empty (sanitize_topic raw) = false ->
  let topic := sanitize_topic raw in
  let w1 := world_of (handle_subscribe socket raw w) in
  let w2 := world_of (handle_subscribe socket raw w1) in
  (wire w2 = (wire w1 ++ [mkWrite socket
                            (line_of ("[SERVER] Already subscribed to " +:+ topic))
                            (negb (broken w socket))])%list
   /\ topic_subscribers w2 = topic_subscribers w1
   /\ List.length (subscribers w2 topic) = List.length (subscribers w1 topic))
  /\ (forall (s : conn) (args : string) (v : World),
        no_duplicates v ->
        no_duplicates (world_of (handle_subscribe s args v))
        /\ no_duplicates (world_of (handle_unsubscribe s args v))
        /\ no_duplicates (world_of (handle_publish s args v))
        /\ no_duplicates (world_of (handle_disconnect s args v))
        /\ no_duplicates (world_of (handle_connect s args v))
        /\ (forall reads, no_duplicates (world_of (client_handler s reads v)))).
Proof.
  intros He topic w1 w2. split.
  - pose proof (subscribe_subscribed socket raw w He) as Hin.
    destruct (handle_subscribe_obs socket raw w He) as (_ & Hb & _).
    destruct (handle_subscribe_obs socket raw w1 He) as (_ & _ & Hobs).
    fold (subscribers w1 (sanitize_topic raw)) in Hobs.
    apply contains_true in Hin. fold w1 in Hin. rewrite Hin in Hobs.
    destruct Hobs as [Ht Hw]. fold w1 in Hb. rewrite Hb in Hw.
    subst w2 topic. unfold subscribers. rewrite Ht. auto.
  - intros s args v Hinv.
    split; [apply subscribe_no_duplicates; exact Hinv|].
    split; [apply unsubscribe_no_duplicates; exact Hinv|].
    split; [apply publish_no_duplicates; exact Hinv|].
    split; [apply disconnect_no_duplicates; exact Hinv|].
    split; [apply connect_no_duplicates; exact Hinv|].
    intros reads. apply client_handler_no_duplicates. exact Hinv.
Qed.

(** Socket 1 subscribes twice to "news" on a fresh broker. *)
Lemma subscriber_sets_have_no_duplicates_witness :
  let w1 := world_of (handle_subscribe 1 "news" (start [])) in
  let w2 := world_of (handle_subscribe 1 "news" w1) in
  topic_subscribers w1 !! "news" = Some [1]
  /\ topic_subscribers w2 = topic_subscribers w1.
Proof.
  split; [vm_compute; reflexivity|].
  apply (subscriber_sets_have_no_duplicates 1 "news" (start []) eq_refl).
Defined.

(** * Connections that are in no subscriber vector *)

Section Frame.

Lemma nothing_delivered_refl c w w' : wire w' = wire w -> nothing_delivered c w w'.
Proof. intros H. exists []. rewrite app_nil_r. auto. Qed.

Lemma nothing_delivered_trans c w1 w2 w3 :
  nothing_delivered c w1 w2 -> nothing_delivered c w2 w3 -> nothing_delivered c w1 w3.
Proof.
  intros (n1 & H1 & F1) (n2 & H2 & F2). exists (n1 ++ n2)%list.
  rewrite H2, H1, app_assoc. split; [reflexivity|]. apply Forall_app. auto.
Qed.

Lemma nothing_delivered_reply c s line ok w w' :
  s ≠ c -> wire w' = (wire w ++ [mkWrite s line ok])%list -> nothing_delivered c w w'.
Proof.
  intros Hne Hw. exists [mkWrite s line ok]. split; [exact Hw|].
  repeat constructor. intros _. exact Hne.
Qed.

Lemma nothing_delivered_logged_reply c s message w w' :
  s ≠ c -> wire w' = (wire w ++ logged_reply w s message)%list -> nothing_delivered c w w'.
Proof.
  intros Hne Hw. unfold logged_reply in Hw. destruct (unreachable w s).
  - apply nothing_delivered_refl. rewrite Hw. apply app_nil_r.
  - eapply nothing_delivered_reply; [exact Hne | exact Hw].
Qed.

Lemma absent_same c w w' :
  topic_subscribers w' = topic_subscribers w -> absent c w -> absent c w'.
Proof. unfold absent, subscribers. intros ->. auto. Qed.

Lemma absent_insert c w w' topic v :
  topic_subscribers w' = <[topic := v]> (topic_subscribers w) ->
  c ∉ v -> absent c w -> absent c w'.
Proof.
  unfold absent, subscribers. intros -> Hv Ha t.
  destruct (decide (topic = t)) as [<-|Hne].
  - rewrite lookup_insert_eq. exact Hv.
  - rewrite lookup_insert_ne by assumption. apply Ha.
Qed.

Lemma send_message_keeps_out c s message w :
  s ≠ c -> absent c w ->
  absent c (world_of (send_message s message w))
  /\ nothing_delivered c w (world_of (send_message s message w)).
Proof.
  intros Hne Ha. rewrite send_message_world. split.
  - eapply absent_same; [|exact Ha]. reflexivity.
  - eapply nothing_delivered_reply; [exact Hne | reflexivity].
Qed.

Lemma subscribe_keeps_out c : keeps_out c handle_subscribe.
Proof.
  intros s args w Hne Ha. destruct (Str.empty (sanitize_topic args)) eqn:He.
  - unfold handle_subscribe. rewrite He. apply send_message_keeps_out; assumption.
  - destruct (handle_subscribe_obs s args w He) as (_ & _ & Hobs).
    fold (subscribers w (sanitize_topic args)) in Hobs.
    destruct (contains s _); destruct Hobs as [Ht Hw];
      (split; [|first [eapply nothing_delivered_reply; [exact Hne | exact Hw]
                      |eapply nothing_delivered_logged_reply; [exact Hne | exact Hw]]]).
    + eapply absent_same; eassumption.
    + eapply absent_insert; [exact Ht | | exact Ha].
      intros Hin. apply elem_of_app in Hin as [Hin|Hin].
      * exact (Ha _ Hin).
      * apply list_elem_of_singleton in Hin. congruence.
Qed.

Lemma unsubscribe_keeps_out c : keeps_out c handle_unsubscribe.
Proof.
  intros s args w Hne Ha. destruct (Str.empty (sanitize_topic args)) eqn:He.
  - unfold handle_unsubscribe. rewrite He. apply send_message_keeps_out; assumption.
  - destruct (handle_unsubscribe_obs s args w He) as (_ & _ & Hobs).
    fold (subscribers w (sanitize_topic args)) in Hobs.
    destruct (contains s _); destruct Hobs as [Ht Hw];
      (split; [|first [eapply nothing_delivered_reply; [exact Hne | exact Hw]
                      |eapply nothing_delivered_logged_reply; [exact Hne | exact Hw]]]).
    + eapply absent_insert; [exact Ht | | exact Ha].
      intros Hin. apply (Ha (sanitize_topic args)).
      eapply elem_of_sublist; [exact Hin | apply erase_remove_sublist].
    + eapply absent_same; eassumption.
Qed.

Lemma disconnect_keeps_out c : keeps_out c handle_disconnect.
Proof.
  intros s args w Hne Ha. destruct (handle_disconnect_obs s args w) as (_ & Hobs).
  destruct (connected_clients w !! s); [destruct (broken w s)|];
    destruct Hobs as (_ & Ht & Hw).
  - split; [eapply absent_same; eassumption | apply nothing_delivered_refl; exact Hw].
  - split; [|eapply nothing_delivered_reply; [exact Hne | exact Hw]].
    intros t. unfold subscribers. rewrite Ht, lookup_fmap.
    specialize (Ha t). unfold subscribers in Ha.
    destruct (topic_subscribers w !! t) as [v|]; cbn in *; [|exact Ha].
    intros Hin. apply Ha. eapply elem_of_sublist; [exact Hin | apply erase_remove_sublist].
  - split; [eapply absent_same; eassumption | apply nothing_delivered_refl; exact Hw].
Qed.

Lemma connect_keeps_out c : keeps_out c handle_connect.
Proof.
  intros s args w Hne Ha. destruct (handle_connect_obs s args w) as (_ & Ht & Hobs).
  split; [eapply absent_same; eassumption|].
  destruct (Parse.connect_args args) as [[[port nm] p]|]; cbv zeta in Hobs;
    destruct Hobs as [_ Hw].
  - destruct (broken w s).
    + apply nothing_delivered_refl. rewrite Hw. apply app_nil_r.
    + eapply nothing_delivered_reply; [exact Hne | exact Hw].
  - apply nothing_delivered_refl. exact Hw.
Qed.

(** PUBLISH from anybody, the connection itself included. *)
Lemma publish_skips_absent c s args w :
  absent c w ->
  absent c (world_of (handle_publish s args w))
  /\ nothing_delivered c w (world_of (handle_publish s args w)).
Proof.
  intros Ha. destruct (handle_publish_effect s args w) as (_ & _ & Hs & new & Hw & Hf).
  split.
  - intros t Hin. apply (Ha t). eapply elem_of_sublist; [exact Hin | apply Hs].
  - exists new. split; [exact Hw|]. eapply Forall_impl; [exact Hf|].
    intros x Hx Hd Hto. destruct (Hx Hd) as [t Hin]. rewrite Hto in Hin. exact (Ha t Hin).
Qed.

Lemma command_handlers_keep_out c command h :
  command_handlers command = Some h -> keeps_out c h.
Proof.
  unfold command_handlers.
  repeat match goal with |- context [String.eqb ?a ?b] => destruct (String.eqb a b) end;
    intros [= <-].
  - apply connect_keeps_out.
  - apply disconnect_keeps_out.
  - apply subscribe_keeps_out.
  - apply unsubscribe_keeps_out.
  - intros s args w _. apply publish_skips_absent.
Qed.

Lemma read_loop_keeps_out c s reads :
  s ≠ c ->
  forall w, absent c w ->
    absent c (world_of (read_loop s reads w))
    /\ nothing_delivered c w (world_of (read_loop s reads w)).
Proof.
  intros Hne. induction reads as [|[data| |] rest IH]; intros w Ha.
  - split; [exact Ha | apply nothing_delivered_refl; reflexivity].
  - cbn [read_loop]. destruct (split_command data) as [command args].
    unfold mbind, M_bind. cbn [print].
    set (w1 := with_console _ w).
    assert (absent c w1) as Ha1 by exact Ha.
    assert (exists h, keeps_out c h /\
              match command_handlers command with
              | Some handler => handler s args
              | None => send_message s ("[SERVER_ERROR] Unknown command: " +:+ command)
              end = h s args) as (h & Hk & ->).
    { destruct (command_handlers command) as [handler|] eqn:Hc.
      - exists handler. split; [eapply command_handlers_keep_out; exact Hc | reflexivity].
      - exists (fun x _ => send_message x ("[SERVER_ERROR] Unknown command: " +:+ command)).
        split; [|reflexivity]. intros x a v Hx Hv. apply send_message_keeps_out; assumption. }
    destruct (Hk s args w1 Hne Ha1) as [Ha2 Hd2].
    assert (forall v, nothing_delivered c w1 v -> nothing_delivered c w v) as Hlift
      by (intros v Hv; exact Hv).
    destruct (h s args w1) as [[] w2|w2|w2]; cbn [world_of] in Ha2, Hd2 |- *.
    + destruct (IH w2 Ha2) as [Ha3 Hd3]. split; [exact Ha3|].
      apply Hlift. eapply nothing_delivered_trans; eassumption.
    + split; [exact Ha2 | apply Hlift; exact Hd2].
    + split; [exact Ha2 | apply Hlift; exact Hd2].
  - destruct (client_handler_eof s rest w) as (_ & Ht & Hw & _).
    unfold client_handler, try_catch in Ht, Hw.
    destruct (read_loop s (Eof :: rest) w) as [[] v|v|v]; cbn [world_of] in Ht, Hw |- *;
      (split; [eapply absent_same; eassumption | apply nothing_delivered_refl; exact Hw]).
  - split; [exact Ha | apply nothing_delivered_refl; reflexivity].
Qed.

(** Once out of every vector a connection stays out, and gets no fan-out
    line, whatever another connection sends. *)
Lemma others_keep_out c s reads w :
  s ≠ c -> absent c w ->
  absent c (world_of (client_handler s reads w))
  /\ nothing_delivered c w (world_of (client_handler s reads w)).
Proof.
  intros Hne Ha. destruct (read_loop_keeps_out c s reads Hne w Ha) as [Ha' Hd'].
  unfold client_handler, try_catch.
  destruct (read_loop s reads w) as [[] w'|w'|w']; cbn [world_of] in Ha', Hd' |- *; auto.
Qed.

End Frame.

(** * DISCONNECT *)

(** C2, as the code has it.  A read that holds the DISCONNECT command, from
    a connection with a session in the connection registry whose peer is
    still there, removes the session and removes the connection from every
    topic's subscriber vector; a PUBLISH handled in the resulting state, from
    any connection and with any arguments, writes no fan-out line to it, and
    whatever another connection sends afterwards leaves it out of the vectors
    and writes no fan-out line to it.  When the peer is gone, reading the
    socket's endpoints for the log throws before the teardown: the session
    and the subscriptions stay.  From a connection without a session the
    command changes neither registry and writes nothing. *)
Theorem disconnect_teardown (c : conn) (data args : string) (w : World) :
  split_command data = ("DISCONNECT", args) ->
  let w1 := world_of (client_handler c [Data data] w) in
  match connected_clients w !! c with
  | Some _ =>
      if broken w c
      then
        connected_clients w1 = connected_clients w
        /\ topic_subscribers w1 = topic_subscribers w
        /\ wire w1 = wire w
      else
        connected_clients w1 = delete c (connected_clients w)
        /\ connected_clients w1 !! c = None
        /\ absent c w1
        /\ (forall (publisher : conn) (published : string),
              nothing_delivered c w1 (world_of (handle_publish publisher published w1)))
        /\ (forall (s : conn) (reads : list read_result),
              s ≠ c ->
              absent c (world_of (client_handler s reads w1))
              /\ nothing_delivered c w1 (world_of (client_handler s reads w1)))
  | None =>
      connected_clients w1 = connected_clients w
      /\ topic_subscribers w1 = topic_subscribers w
      /\ wire w1 = wire w
  end.
Proof.
  intros Hs w1.
  destruct (client_handler_command c data "DISCONNECT" args handle_disconnect w Hs eq_refl)
    as (Hc & Ht & Hw & _).
  fold w1 in Hc, Ht, Hw.
  match type of Hc with
  | _ = connected_clients (world_of (handle_disconnect c args ?W)) =>
      destruct (handle_disconnect_obs c args W) as (_ & Hobs)
  end.
  cbn [with_console connected_clients topic_subscribers wire broken] in Hobs.
  destruct (connected_clients w !! c) as [info|] eqn:Hreg; [destruct (broken w c)|].
  - destruct Hobs as (Hc' & Ht' & Hw'). rewrite Hc' in Hc. rewrite Ht' in Ht.
    rewrite Hw' in Hw. auto.
  - destruct Hobs as (Hc' & Ht' & _). rewrite Hc' in Hc. rewrite Ht' in Ht.
    assert (absent c w1) as Hgone.
    { intros topic. unfold subscribers. rewrite Ht, lookup_fmap.
      destruct (topic_subscribers w !! topic) as [v|]; cbn.
      - apply erase_remove_gone.
      - apply not_elem_of_nil. }
    split; [exact Hc|]. split; [rewrite Hc; apply lookup_delete_eq|].
    split; [exact Hgone|]. split.
    + intros publisher published. apply publish_skips_absent. exact Hgone.
    + intros s reads Hne. apply others_keep_out; assumption.
  - destruct Hobs as (Hc' & Ht' & Hw'). rewrite Hc' in Hc. rewrite Ht' in Ht.
    rewrite Hw' in Hw. auto.
Qed.

(** Socket 1 connects, subscribes to "news" and sends DISCONNECT. *)
Lemma disconnect_teardown_witness :
  let w := world_of (client_handler 1 [Data (line_of "CONNECT 1999 bob 100");
                                        Data (line_of "SUBSCRIBE news")] (start [])) in
  let w1 := world_of (client_handler 1 [Data (line_of "DISCONNECT")] w) in
  topic_subscribers w !! "news" = Some [1]
  /\ connected_clients w1 !! 1 = None
  /\ absent 1 w1.
Proof.
  intros w w1. split; [vm_compute; reflexivity|].
  pose proof (disconnect_teardown 1 (line_of "DISCONNECT") "" w eq_refl) as H.
  change (connected_clients w !! 1) with (Some (mkClientInfo 1 "bob" 100)) in H.
  assert (broken w 1 = false) as Hb by (vm_compute; reflexivity).
  rewrite Hb in H.
  destruct H as (_ & Hnone & Hgone & _). split; assumption.
Defined.

(** Three ways a connection stays subscribed after it is gone.  Socket 2
    subscribes to "news" without a CONNECT and then sends DISCONNECT: it is
    still in the topic's vector and the next PUBLISH is written to it.
    Socket 1 connects, subscribes and reaches end of stream: its session and
    its subscription are still there and the next PUBLISH is written to it.
    Socket 1 connects and subscribes, its peer goes away and the DISCONNECT
    it had sent is read: the endpoint read throws, and its session and its
    subscription are still there. *)
Lemma disconnect_and_eof_leave_subscriptions :
  (let w := world_of (client_handler 2 [Data (line_of "SUBSCRIBE news");
                                         Data (line_of "DISCONNECT")] (start [])) in
   topic_subscribers w !! "news" = Some [2]
   /\ wire (world_of (client_handler 3 [Data (line_of "PUBLISH news hi")] w)) =
      (wire w ++ [mkWrite 2 (line_of "[Message] Topic: news Data: hi") true])%list)
  /\ (let v := world_of (client_handler 1 [Data (line_of "CONNECT 1999 bob 100");
                                            Data (line_of "SUBSCRIBE news");
                                            Eof] (start [])) in
      connected_clients v !! 1 = Some (mkClientInfo 1 "bob" 100)
      /\ topic_subscribers v !! "news" = Some [1]
      /\ wire (world_of (client_handler 3 [Data (line_of "PUBLISH news hi")] v)) =
         (wire v ++ [mkWrite 1 (line_of "[Message] Topic: news Data: hi") true])%list)
  /\ (let u := hang_up 1 (world_of (client_handler 1
                                       [Data (line_of "CONNECT 1999 bob 100");
                                        Data (line_of "SUBSCRIBE news")] (start []))) in
      let u1 := world_of (client_handler 1 [Data (line_of "DISCONNECT")] u) in
      connected_clients u1 !! 1 = Some (mkClientInfo 1 "bob" 100)
      /\ topic_subscribers u1 !! "news" = Some [1]
      /\ wire u1 = wire u).
Proof.
  split; [|split]; cbv zeta; (split; [|split]); vm_compute; reflexivity.
Qed.

(** * PUBLISH with a subscriber whose write fails *)

(** C1 at a failing input.  "news" has the subscribers 1 and 2 and the write
    to 1 fails.  PUBLISH "news hi" erases 1 from the vector while the loop is
    on it: the loop steps over socket 2, which has moved into the place of
    socket 1, and then reads past the end of the shortened vector.  Socket 2
    is still subscribed and gets nothing. *)
Theorem publish_skips_subscriber_after_failed_one :
  let r := handle_publish 3 "news hi" two_subscribers in
  topic_subscribers two_subscribers !! "news" = Some [1; 2]
  /\ broken two_subscribers 2 = false
  /\ is_undef r = true
  /\ wire (world_of r) =
     (wire two_subscribers ++
      [mkWrite 1 (line_of "[Message] Topic: news Data: hi") false])%list
  /\ topic_subscribers (world_of r) !! "news" = Some [2].
Proof.
  repeat split; vm_compute; reflexivity.
Qed.

(** With three subscribers the one after the failed one is stepped over, the
    third gets the message, and the loop then reads past the end. *)
Example publish_three_subscribers_first_fails :
  let r := handle_publish 4 "news hi" three_subscribers in
  is_undef r = true
  /\ wire (world_of r) =
     (wire three_subscribers ++
      [mkWrite 1 (line_of "[Message] Topic: news Data: hi") false;
       mkWrite 3 (line_of "[Message] Topic: news Data: hi") true])%list
  /\ topic_subscribers (world_of r) !! "news" = Some [2; 3].
Proof.
  repeat split; vm_compute; reflexivity.
Qed.

(** The scenario of the specification: A connects and subscribes to
    "weather", B connects and publishes "73F"; A is written the line. *)
Example weather_scenario :
  let a := world_of (client_handler 1 [Data (line_of "CONNECT 1999 A 100");
                                        Data (line_of "SUBSCRIBE weather")] (start [])) in
  let b := world_of (client_handler 2 [Data (line_of "CONNECT 1999 B 200");
                                        Data (line_of "PUBLISH weather 73F")] a) in
  wire b =
  (wire a ++ [mkWrite 2 (line_of "[SERVER] Connected as B") true;
              mkWrite 1 (line_of "[Message] Topic: weather Data: 73F") true])%list.
Proof. vm_compute. reflexivity. Qed.

(** * Framing in the read loop *)

Section Framing.

Lemma erase_remove_line message :
  has_char Str.newline message = false ->
  Str.erase_remove Str.newline (line_of message) = message.
Proof.
  unfold line_of. induction message as [|d rest IH].
  - intros _. reflexivity.
  - change (String d rest +:+ String Str.newline "")
      with (String d (rest +:+ String Str.newline "")).
    cbn [Str.erase_remove has_char].
    destruct (Ascii.eqb d Str.newline); cbn [orb]; [discriminate|].
    intros H. rewrite IH by exact H. reflexivity.
Qed.

Lemma erase_remove_absent_char c s :
  has_char c s = false -> Str.erase_remove c s = s.
Proof.
  induction s as [|d rest IH]; cbn [Str.erase_remove has_char]; [reflexivity|].
  destruct (Ascii.eqb d c); cbn [orb]; [discriminate|].
  intros H. rewrite IH by exact H. reflexivity.
Qed.

(** A read that holds exactly one line is taken as that line's command. *)
Lemma split_command_line message :
  has_char Str.newline message = false ->
  split_command (line_of message) = split_command message.
Proof.
  intros H. unfold split_command. rewrite erase_remove_line by exact H.
  rewrite erase_remove_absent_char by exact H. reflexivity.
Qed.

End Framing.

(** C3 at two failing inputs.  The line "SUBSCRIBE news" arriving in the two
    reads "SUBSCRIBE ne" and "ws\n" is handled as two commands: a
    subscription to "ne" and the unknown command "ws".  The two lines
    "SUBSCRIBE a\n" and "SUBSCRIBE b\n" arriving in one read are handled as
    the one command SUBSCRIBE with the argument "aSUBSCRIBE b", which is
    rejected as a topic: nobody is subscribed to anything. *)
Theorem read_loop_takes_each_read_as_one_command :
  (let r := client_handler 1 [Data "SUBSCRIBE ne"; Data (line_of "ws")] (start []) in
   console (world_of r) =
     [Received "SUBSCRIBE ne";
      Action "SUBSCRIBE" "Topic: ne" (mkClientMetadata "" None);
      Received "ws"]
   /\ topic_subscribers (world_of r) = {[ "ne" := [1] ]}
   /\ wire (world_of r) =
      [mkWrite 1 (line_of "[SERVER] Subscribed to ne") true;
       mkWrite 1 (line_of "[SERVER_ERROR] Unknown command: ws") true])
  /\ (let r := client_handler 1 [Data (line_of "SUBSCRIBE a" +:+ line_of "SUBSCRIBE b")]
                 (start []) in
      split_command (line_of "SUBSCRIBE a" +:+ line_of "SUBSCRIBE b") =
        ("SUBSCRIBE", "aSUBSCRIBE b")
      /\ console (world_of r) = [Received "SUBSCRIBE aSUBSCRIBE b"]
      /\ topic_subscribers (world_of r) = ∅
      /\ wire (world_of r) = [mkWrite 1 (line_of invalid_topic) true]).
Proof.
  split; repeat split; vm_compute; reflexivity.
Qed.

(** * Locks *)

Section LockOrder.

Lemma adds_refl P w w' : trace w' = trace w -> adds P w w'.
Proof. intros H. exists []. rewrite app_nil_r. auto. Qed.

Lemma adds_trans P w1 w2 w3 : adds P w1 w2 -> adds P w2 w3 -> adds P w1 w3.
Proof.
  intros (n1 & H1 & F1) (n2 & H2 & F2). exists (n1 ++ n2)%list.
  rewrite H2, H1, app_assoc. split; [reflexivity|]. apply Forall_app. auto.
Qed.

Lemma Forall_adds (P Q : event -> Prop) :
  (forall e, P e -> Q e) -> forall w w', adds P w w' -> adds Q w w'.
Proof.
  intros HPQ w w' (new & Hn & Hf). exists new. split; [exact Hn|].
  eapply Forall_impl; [exact Hf | exact HPQ].
Qed.

Lemma under_topic_mutex e : under [topic_mutex] e -> disciplined e.
Proof. intros [[] ->]; cbn; [exact I | apply list_elem_of_here]. Qed.

(** The fan-out loop takes no lock: it only touches tables, with the
    mutexes held that were held at its start. *)
Lemma fan_out_trace topic line n pos w :
  let w' := world_of (fan_out topic line n pos w) in
  adds (under (held w)) w w' /\ held w' = held w.
Proof.
  revert pos w. induction n as [|n IH]; intros pos w.
  - split; [apply adds_refl|]; reflexivity.
  - destruct w as [cl tp wi co he tr br]. cbn [fan_out]. run.
    destruct (tp !! topic) as [v|] eqn:Hv; cbn [default from_option id].
    2:{ rewrite lookup_nil. split; [|reflexivity]. eexists [_]. split; [reflexivity|].
        repeat constructor. eexists. reflexivity. }
    destruct (v !! pos) as [s|];
      [|split; [|reflexivity]; eexists [_]; split; [reflexivity|];
        repeat constructor; eexists; reflexivity].
    destruct (br s); run; [rewrite Hv; run|];
      (match goal with |- context [fan_out topic line n (S pos) ?W] =>
         destruct (IH (S pos) W) as [Ha Hh] end;
       split; [|exact Hh];
       eapply adds_trans; [|exact Ha];
       eexists; split;
       [cbn [trace]; rewrite <- ?app_assoc; reflexivity
       |repeat constructor; eexists; reflexivity]).
Qed.

Lemma handle_subscribe_locks socket args w :
  held w = [] ->
  let w' := world_of (handle_subscribe socket args w) in
  adds disciplined w w' /\ held w' = [].
Proof.
  destruct w as [cl tp wi co he tr br]. cbn [held]. intros ->.
  unfold handle_subscribe.
  destruct (Str.empty _); crunch; (split; [traced; not_held | reflexivity]).
Qed.

Lemma handle_unsubscribe_locks socket args w :
  held w = [] ->
  let w' := world_of (handle_unsubscribe socket args w) in
  adds disciplined w w' /\ held w' = [].
Proof.
  destruct w as [cl tp wi co he tr br]. cbn [held]. intros ->.
  unfold handle_unsubscribe.
  destruct (Str.empty _); crunch; (split; [traced; not_held | reflexivity]).
Qed.

Lemma handle_connect_locks socket args w :
  held w = [] ->
  let w' := world_of (handle_connect socket args w) in
  adds disciplined w w' /\ held w' = [].
Proof.
  destruct w as [cl tp wi co he tr br]. cbn [held]. intros ->.
  unfold handle_connect. run.
  destruct (Parse.connect_args args) as [[[port nm] p]|];
    crunch; (split; [traced; not_held | reflexivity]).
Qed.

Lemma handle_disconnect_locks socket args w :
  held w = [] ->
  let w' := world_of (handle_disconnect socket args w) in
  adds disciplined w w' /\ held w' = [].
Proof.
  destruct w as [cl tp wi co he tr br]. cbn [held]. intros ->.
  unfold handle_disconnect. crunch; (split; [traced; not_held | reflexivity]).
Qed.

Lemma deliver_locks socket topic payload w :
  held w = [] ->
  let r := deliver socket topic payload w in
  adds disciplined w (world_of r) /\ (is_undef r = false -> held (world_of r) = []).
Proof.
  destruct w as [cl tp wi co he tr br]. cbn [held]. intros ->.
  unfold deliver. run.
  destruct (tp !! topic) as [[|s v]|];
    [crunch; (split; [traced; not_held | reflexivity])
    | | crunch; (split; [traced; not_held | reflexivity])].
  destruct (cl !! socket); run; [destruct (br socket); run|];
    [split; [traced; not_held | reflexivity] | |];
    (match goal with |- context [fan_out ?t ?l ?n ?p ?W] =>
       destruct (fan_out_trace t l n p W) as [Ha Hh];
       apply (Forall_adds _ _ under_topic_mutex) in Ha;
       destruct (fan_out t l n p W) as [[] w'|w'|w'];
       cbn [world_of is_undef] in Ha, Hh |- *;
       (split;
        [ apply (adds_trans _ _ W); [traced; not_held|];
          apply (adds_trans _ _ w'); [exact Ha|];
          destruct w' as [cl' tp' wi' co' he' tr' br']; traced; not_held
        | intros Hu; try discriminate;
          destruct w' as [cl' tp' wi' co' he' tr' br']; cbn [held] in Hh |- *;
          rewrite Hh; reflexivity ])
     end).
Qed.

Lemma handle_publish_locks socket args w :
  held w = [] ->
  let r := handle_publish socket args w in
  adds disciplined w (world_of r) /\ (is_undef r = false -> held (world_of r) = []).
Proof.
  intros Hh. unfold handle_publish.
  destruct (Str.find Str.space args) as [space|]; cbv zeta;
    [destruct (Str.empty (sanitize_topic _));
       [|destruct (Str.empty (sanitize_message _)); [|apply deliver_locks; exact Hh]]|].
  all: destruct w as [cl tp wi co he tr br]; cbn [held] in Hh; subst he;
       crunch; (split; [traced; not_held | reflexivity]).
Qed.

Lemma command_handlers_orderly command h :
  command_handlers command = Some h -> orderly h.
Proof.
  unfold command_handlers.
  repeat match goal with |- context [String.eqb ?a ?b] => destruct (String.eqb a b) end;
    intros [= <-]; intros c args w Hh.
  - destruct (handle_connect_locks c args w Hh). auto.
  - destruct (handle_disconnect_locks c args w Hh). auto.
  - destruct (handle_subscribe_locks c args w Hh). auto.
  - destruct (handle_unsubscribe_locks c args w Hh). auto.
  - apply handle_publish_locks. exact Hh.
Qed.

(** The loop keeps the order over any sequence of reads: a handler that
    returns or throws has given its locks back before the next read. *)
Lemma read_loop_locks c reads :
  forall w,
    held w = [] ->
    adds disciplined w (world_of (read_loop c reads w))
    /\ (is_undef (read_loop c reads w) = false -> held (world_of (read_loop c reads w)) = []).
Proof.
  induction reads as [|[data| |] rest IH]; intros w Hh.
  - split; [apply adds_refl; reflexivity | intros _; exact Hh].
  - cbn [read_loop]. destruct (split_command data) as [command args].
    unfold mbind, M_bind. cbn [print].
    set (w1 := with_console _ w).
    assert (held w1 = []) as Hh1 by exact Hh.
    assert (adds disciplined w w1) as H01 by (apply adds_refl; reflexivity).
    assert (exists h, orderly h /\
              match command_handlers command with
              | Some handler => handler c args
              | None => send_message c ("[SERVER_ERROR] Unknown command: " +:+ command)
              end = h c args) as (h & Hord & ->).
    { destruct (command_handlers command) as [handler|] eqn:Hc.
      - exists handler. split; [eapply command_handlers_orderly; exact Hc | reflexivity].
      - exists (fun s _ => send_message s ("[SERVER_ERROR] Unknown command: " +:+ command)).
        split; [|reflexivity]. intros s a [cl tp wi co he tr br] Hhe. cbn [held] in Hhe.
        subst he. crunch; (split; [traced; not_held | reflexivity]). }
    destruct (Hord c args w1 Hh1) as [Ha Hhe].
    destruct (h c args w1) as [[] w2|w2|w2]; cbn [world_of is_undef] in Ha, Hhe |- *.
    + destruct (IH w2 (Hhe eq_refl)) as [Ha2 Hh2]. split; [|exact Hh2].
      apply (adds_trans _ _ w1); [exact H01|]. apply (adds_trans _ _ w2); [exact Ha | exact Ha2].
    + split; [apply (adds_trans _ _ w1); [exact H01 | exact Ha] | exact Hhe].
    + split; [apply (adds_trans _ _ w1); [exact H01 | exact Ha] | discriminate].
  - destruct w as [cl tp wi co he tr br]. cbn [held] in Hh. subst he.
    cbn [read_loop]. crunch; (split; [traced; not_held | reflexivity]).
  - split; [apply adds_refl; reflexivity | intros _; exact Hh].
Qed.

End LockOrder.

(** Whatever a connection thread reads, starting with no mutex held: it takes
    [client_mutex] only while holding nothing and never takes [topic_mutex]
    while holding it, so [client_mutex] always comes before [topic_mutex];
    and it touches [topic_subscribers] only while holding [topic_mutex]. *)
Theorem locks_taken_in_order c reads w :
  held w = [] -> adds disciplined w (world_of (client_handler c reads w)).
Proof.
  intros Hh. destruct (read_loop_locks c reads w Hh) as [Ha _].
  unfold client_handler, try_catch.
  destruct (read_loop c reads w) as [[] w'|w'|w']; cbn [world_of] in Ha |- *; exact Ha.
Qed.

(** X1.  Whatever a connection thread reads, starting with no mutex held:
    it takes [client_mutex] only while holding nothing and never takes
    [topic_mutex] while holding it, so [client_mutex] always comes before
    [topic_mutex]; it touches [topic_subscribers] only while holding
    [topic_mutex]; and unless the run ends at an undefined read, the thread
    holds no mutex when it leaves the loop. *)
Theorem locks_ordered_and_released (c : conn) (reads : list read_result) (w : World) :
  held w = [] ->
  let r := client_handler c reads w in
  adds disciplined w (world_of r)
  /\ (is_undef r = false -> held (world_of r) = []).
Proof.
  intros Hh. destruct (read_loop_locks c reads w Hh) as [Ha Hr].
  unfold client_handler, try_catch. cbv zeta.
  destruct (read_loop c reads w) as [[] w'|w'|w']; cbn [world_of is_undef] in Ha, Hr |- *;
    (split; [exact Ha|]); auto.
Qed.

Lemma locks_ordered_and_released_witness :
  held (world_of (client_handler 1 [Data (line_of "SUBSCRIBE news");
                                    Data (line_of "CONNECT 1999 bob 4711");
                                    Data (line_of "DISCONNECT")] (start []))) = [].
Proof.
  apply (locks_ordered_and_released 1 _ (start []) eq_refl). reflexivity.
Defined.

(** C9 at failing inputs.  SUBSCRIBE "news" from socket 1 on a fresh broker
    takes [topic_mutex] only and, through [get_client_metadata], reads
    [connected_clients] while holding it; the same happens in UNSUBSCRIBE and
    PUBLISH, and at end of stream the table is read with no mutex held. *)
Theorem subscribe_reads_clients_without_client_mutex :
  trace (world_of (handle_subscribe 1 "news" (start []))) =
    [Lock topic_mutex [];
     Access TopicSubscribers [topic_mutex];
     Access TopicSubscribers [topic_mutex];
     Access ConnectedClients [topic_mutex];
     Unlock topic_mutex]
  /\ existsb unguarded (trace (world_of (handle_subscribe 1 "news" (start [])))) = true
  /\ trace (world_of (client_handler 1 [Eof] (start []))) = [Access ConnectedClients []]
  /\ (let w := world_of (handle_subscribe 1 "news" (start [])) in
      existsb unguarded
        (drop (List.length (trace w)) (trace (world_of (handle_unsubscribe 1 "news" w)))) = true
      /\ existsb unguarded
           (drop (List.length (trace w)) (trace (world_of (handle_publish 2 "news hi" w)))) = true).
Proof.
  repeat split; vm_compute; reflexivity.
Qed.

(** * The sanitizers applied twice *)

Section TrimTwice.

Lemma ltrim_fixed s :
  (forall c rest, s = String c rest -> Spec.is_blank c = false) -> Spec.ltrim s = s.
Proof.
  destruct s as [|c rest]; intros H; cbn [Spec.ltrim]; [reflexivity|].
  rewrite (H c rest eq_refl). reflexivity.
Qed.

Lemma rtrim_rtrim s : Spec.rtrim (Spec.rtrim s) = Spec.rtrim s.
Proof.
  induction s as [|c s IH]; cbn [Spec.rtrim]; [reflexivity|].
  destruct (Spec.rtrim s) as [|d kept] eqn:Hk.
  - destruct (Spec.is_blank c) eqn:Hc; cbn [Spec.rtrim]; [reflexivity|].
    rewrite Hc. reflexivity.
  - change (Spec.rtrim (String c (String d kept)))
      with (match Spec.rtrim (String d kept) with
            | "" => if Spec.is_blank c then "" else String c ""
            | String a k => String c (String a k)
            end).
    rewrite IH. reflexivity.
Qed.

Lemma trim_trim s : Spec.trim (Spec.trim s) = Spec.trim s.
Proof.
  destruct (trim_ends s) as [Hhead _].
  unfold Spec.trim at 1. rewrite ltrim_fixed by exact Hhead.
  unfold Spec.trim. apply rtrim_rtrim.
Qed.

End TrimTwice.

(** X2.  Whatever [sanitize_topic] returns, it returns unchanged when
    given it again; and the result is either the rejection value or a string
    of 1 to 64 letters and digits. *)
Theorem sanitize_topic_idempotent (raw : string) :
  let t := sanitize_topic raw in
  sanitize_topic t = t
  /\ (Str.empty t = true
      \/ ((0 < String.length t <= 64)%nat /\ Str.all_of Str.isalnum t = true)).
Proof.
  cbv zeta. rewrite (sanitize_topic_trim raw).
  destruct (Spec.topic_ok (Spec.trim raw)) eqn:Hok.
  - split.
    + rewrite sanitize_topic_trim, trim_trim, Hok. reflexivity.
    + right. unfold Spec.topic_ok in Hok.
      apply andb_prop in Hok as [Hok Hal]. apply andb_prop in Hok as [Hne Hlen].
      apply Nat.leb_le in Hlen. split; [|exact Hal].
      destruct (Spec.trim raw); [discriminate|]. cbn in *. lia.
  - split; [reflexivity | left; reflexivity].
Qed.

(** X3.  Whatever [sanitize_message] returns, it returns unchanged when
    given it again; and the result is either the rejection value or a string
    of 1 to 1024 printable characters that neither starts nor ends with a
    space or a tab. *)
Theorem sanitize_message_idempotent (message : string) :
  let p := sanitize_message message in
  sanitize_message p = p
  /\ (Str.empty p = true
      \/ ((0 < String.length p <= 1024)%nat /\ Str.all_of Spec.printable p = true
          /\ (forall c rest, p = String c rest -> Spec.is_blank c = false)
          /\ (forall c, last_char p = Some c -> Spec.is_blank c = false))).
Proof.
  cbv zeta. rewrite (sanitize_message_trim message).
  destruct (Spec.payload_ok (Spec.trim message)) eqn:Hok.
  - split.
    + rewrite sanitize_message_trim, trim_trim, Hok. reflexivity.
    + right. unfold Spec.payload_ok in Hok.
      apply andb_prop in Hok as [Hok Hal]. apply andb_prop in Hok as [Hne Hlen].
      apply Nat.leb_le in Hlen. destruct (trim_ends message) as [Hh Hl].
      split; [|split; [exact Hal | split; [exact Hh | exact Hl]]].
      destruct (Spec.trim message); [discriminate|]. cbn in *. lia.
  - split; [reflexivity | left; reflexivity].
Qed.

(** * One line in one read *)

Section Splitting.

Lemma has_char_app c s t :
  has_char c (s +:+ t) = has_char c s || has_char c t.
Proof.
  induction s as [|d s IH]; [reflexivity|].
  change (String d s +:+ t) with (String d (s +:+ t)). cbn [has_char].
  rewrite IH. apply orb_assoc.
Qed.

Lemma find_after_word c word rest :
  has_char c word = false ->
  Str.find c (word +:+ String c rest) = Some (String.length word).
Proof.
  induction word as [|d word IH]; intros H.
  - change ("" +:+ String c rest) with (String c rest). cbn [Str.find String.length].
    rewrite Ascii.eqb_refl. reflexivity.
  - change (String d word +:+ String c rest) with (String d (word +:+ String c rest)).
    cbn [Str.find has_char String.length] in *.
    destruct (Ascii.eqb d c); [discriminate|]. cbn [orb] in H.
    rewrite IH by exact H. reflexivity.
Qed.

Lemma find_absent c s : has_char c s = false -> Str.find c s = None.
Proof.
  induction s as [|d s IH]; cbn [Str.find has_char]; [reflexivity|].
  destruct (Ascii.eqb d c); [discriminate|]. cbn [orb]. intros H.
  rewrite IH by exact H. reflexivity.
Qed.

Lemma substr_prefix word rest :
  Str.substr 0 (String.length word) (word +:+ rest) = word.
Proof.
  unfold Str.substr. induction word as [|d word IH].
  - destruct rest; reflexivity.
  - change (String d word +:+ rest) with (String d (word +:+ rest)).
    cbn [String.length substring]. rewrite IH. reflexivity.
Qed.

Lemma substring_all s : substring 0 (String.length s) s = s.
Proof. induction s as [|d s IH]; cbn; [reflexivity | rewrite IH; reflexivity]. Qed.

Lemma length_app_string s t :
  String.length (s +:+ t) = (String.length s + String.length t)%nat.
Proof.
  induction s as [|d s IH]; [reflexivity|].
  change (String d s +:+ t) with (String d (s +:+ t)). cbn [String.length].
  rewrite IH. reflexivity.
Qed.

Lemma substr_from_suffix word c rest :
  Str.substr_from (String.length word + 1) (word +:+ String c rest) = rest.
Proof.
  unfold Str.substr_from. rewrite length_app_string. cbn [String.length].
  replace (String.length word + S (String.length rest) - (String.length word + 1))%nat
    with (String.length rest) by lia.
  induction word as [|d word IH].
  - change ("" +:+ String c rest) with (String c rest). cbn. apply substring_all.
  - change (String d word +:+ String c rest) with (String d (word +:+ String c rest)).
    cbn [String.length Nat.add substring]. exact IH.
Qed.

Lemma split_command_word command args :
  has_char Str.space command = false ->
  has_char Str.newline command = false ->
  has_char Str.newline args = false ->
  split_command (line_of (command +:+ String Str.space args)) = (command, args).
Proof.
  intros Hsp Hnl Hargs. rewrite split_command_line.
  2:{ rewrite has_char_app. cbn [has_char]. rewrite Hnl, Hargs. reflexivity. }
  unfold split_command. rewrite erase_remove_absent_char.
  2:{ rewrite has_char_app. cbn [has_char]. rewrite Hnl, Hargs. reflexivity. }
  rewrite find_after_word by exact Hsp.
  rewrite substr_prefix, substr_from_suffix. reflexivity.
Qed.

End Splitting.

(** X4.  A read that holds exactly one line, made of a command word without
    spaces and, after one space, arguments without a line feed, is cut by the
    read loop into that command and those arguments, further spaces
    included; a line with the command word alone gives empty arguments. *)
Theorem split_command_of_line (command args : string) :
  has_char Str.space command = false ->
  has_char Str.newline command = false ->
  has_char Str.newline args = false ->
  split_command (line_of (command +:+ String Str.space args)) = (command, args)
  /\ split_command (line_of command) = (command, "").
Proof.
  intros Hsp Hnl Hargs. split; [apply split_command_word; assumption|].
  rewrite split_command_line by exact Hnl.
  unfold split_command. rewrite erase_remove_absent_char by exact Hnl.
  rewrite find_absent by exact Hsp. reflexivity.
Qed.

Lemma split_command_of_line_witness :
  split_command (line_of "PUBLISH news hello world") = ("PUBLISH", "news hello world").
Proof.
  apply (split_command_of_line "PUBLISH" "news hello world" eq_refl eq_refl eq_refl).
Defined.

(** * The arguments of CONNECT *)

Section Rendering.

Local Open Scope Z_scope.

Lemma app_assoc_string (s t u : string) : (s +:+ t) +:+ u = s +:+ (t +:+ u).
Proof.
  induction s as [|c s IH]; [reflexivity|].
  change (String c s +:+ t) with (String c (s +:+ t)).
  change (String c (s +:+ t) +:+ u) with (String c ((s +:+ t) +:+ u)).
  rewrite IH. reflexivity.
Qed.

Lemma app_empty_r (s : string) : s +:+ "" = s.
Proof.
  induction s as [|c s IH]; [reflexivity|].
  change (String c s +:+ "") with (String c (s +:+ "")). rewrite IH. reflexivity.
Qed.

Lemma pretty_N_go_app x s : pretty_N_go x s = pretty_N_go x "" +:+ s.
Proof.
  revert s. induction (N.lt_wf_0 x) as [x _ IH]; intros s.
  destruct (N.eq_dec x 0) as [->|Hx]; [reflexivity|].
  rewrite (pretty_N_go_step x s), (pretty_N_go_step x "") by lia.
  assert (x `div` 10 < x)%N as Hlt by (apply N.div_lt; lia).
  rewrite (IH _ Hlt (String _ s)), (IH _ Hlt (String _ "")).
  rewrite app_assoc_string. reflexivity.
Qed.

Lemma pretty_N_char_code d : (d < 10)%N -> Str.code (pretty_N_char d) = 48 + Z.of_N d.
Proof.
  intros Hd.
  assert (d = 0 \/ d = 1 \/ d = 2 \/ d = 3 \/ d = 4 \/ d = 5 \/ d = 6 \/ d = 7
          \/ d = 8 \/ d = 9)%N as H by lia.
  repeat (destruct H as [->|H]; [reflexivity|]). subst d. reflexivity.
Qed.

Lemma pretty_N_char_digit d : (d < 10)%N -> Str.isdigit (pretty_N_char d) = true.
Proof.
  intros Hd. unfold Str.isdigit. rewrite pretty_N_char_code by exact Hd.
  apply andb_true_intro. split; apply Z.leb_le; lia.
Qed.

Lemma decimal_app acc s t :
  Parse.decimal acc (s +:+ t) = Parse.decimal (Parse.decimal acc s) t.
Proof.
  revert acc. induction s as [|c s IH]; intros acc; [reflexivity|].
  change (String c s +:+ t) with (String c (s +:+ t)). cbn [Parse.decimal]. apply IH.
Qed.

Lemma all_of_app p s t :
  Str.all_of p (s +:+ t) = Str.all_of p s && Str.all_of p t.
Proof.
  induction s as [|c s IH]; [reflexivity|].
  change (String c s +:+ t) with (String c (s +:+ t)). cbn [Str.all_of].
  rewrite IH. apply andb_assoc.
Qed.

(** The digits of [x], most significant first; none for 0. *)
Lemma digits_value x :
  Parse.decimal 0 (pretty_N_go x "") = Z.of_N x
  /\ Str.all_of Str.isdigit (pretty_N_go x "") = true
  /\ ((0 < x)%N -> Str.empty (pretty_N_go x "") = false).
Proof.
  induction (N.lt_wf_0 x) as [x _ IH].
  destruct (N.eq_dec x 0) as [->|Hx].
  { split; [reflexivity|]. split; [reflexivity | lia]. }
  rewrite pretty_N_go_step by lia. rewrite pretty_N_go_app.
  destruct (IH (x `div` 10)%N) as (Hv & Hd & _); [apply N.div_lt; lia|].
  assert (x `mod` 10 < 10)%N as Hm by (apply N.mod_lt; lia).
  split; [|split].
  - rewrite decimal_app, Hv. cbn [Parse.decimal].
    rewrite pretty_N_char_code by exact Hm.
    rewrite (N.div_mod x 10) at 3 by lia. lia.
  - rewrite all_of_app, Hd. cbn [Str.all_of].
    rewrite pretty_N_char_digit by exact Hm. reflexivity.
  - intros _. destruct (pretty_N_go (x `div` 10) ""); reflexivity.
Qed.

Lemma span_run p run rest :
  Str.all_of p run = true -> stops p rest = true ->
  Parse.span p (run +:+ rest) = (run, rest).
Proof.
  intros Hrun Hstop. induction run as [|c run IH].
  - change ("" +:+ rest) with rest. destruct rest as [|c rest]; [reflexivity|].
    cbn [Parse.span stops] in *. apply negb_true_iff in Hstop. rewrite Hstop. reflexivity.
  - change (String c run +:+ rest) with (String c (run +:+ rest)).
    cbn [Parse.span Str.all_of] in *. apply andb_prop in Hrun as [Hc Hrun].
    rewrite Hc, IH by exact Hrun. reflexivity.
Qed.

Lemma skip_ws_word s : stops Str.isspace s = true -> Parse.skip_ws s = s.
Proof.
  destruct s as [|c s]; [reflexivity|]. cbn [stops Parse.skip_ws].
  intros H. apply negb_true_iff in H. rewrite H. reflexivity.
Qed.

Lemma digit_not_space c : Str.isdigit c = true -> Str.isspace c = false.
Proof.
  unfold Str.isdigit, Str.isspace. intros H. apply andb_prop in H as [H1 H2].
  apply Z.leb_le in H1. apply Z.leb_le in H2.
  apply orb_false_intro; [apply Z.eqb_neq; lia|].
  apply andb_false_intro2. apply Z.leb_gt. lia.
Qed.

(** [operator>>] reads back what [std::to_string] wrote. *)
Lemma extract_int_rendering z rest :
  Parse.INT_MIN <= z <= Parse.INT_MAX ->
  stops Str.isdigit rest = true ->
  Parse.extract_int (to_string z +:+ rest) = Some (z, rest).
Proof.
  intros Hrange Hstop. unfold to_string.
  assert (forall x : positive,
             pretty (N.pos x) = pretty_N_go (N.pos x) "") as Hpos.
  { intros x. unfold pretty, pretty_N. destruct (decide (N.pos x = 0%N)); [discriminate|].
    reflexivity. }
  assert (forall x : positive, exists c ds,
             pretty_N_go (N.pos x) "" = String c ds /\ Str.isdigit c = true) as Hhead.
  { intros x. destruct (digits_value (N.pos x)) as (_ & Hd & Hne).
    destruct (pretty_N_go (N.pos x) "") as [|c ds]; [specialize (Hne eq_refl); discriminate|].
    cbn [Str.all_of] in Hd. apply andb_prop in Hd as [Hc _]. eauto. }
  unfold Parse.extract_int.
  destruct z as [|x|x].
  - change (pretty 0%Z) with "0".
    change ("0" +:+ rest) with (String "0" rest). cbn [Parse.skip_ws].
    change (Str.isspace "0") with false. cbv iota.
    change (Ascii.eqb "0" "-") with false. change (Ascii.eqb "0" "+") with false. cbv iota.
    change (String "0" rest) with ("0" +:+ rest).
    rewrite span_run by (reflexivity || exact Hstop). reflexivity.
  - change (pretty (Z.pos x)) with (pretty (N.pos x)). rewrite Hpos.
    destruct (Hhead x) as (c & ds & Hcd & Hc).
    destruct (digits_value (N.pos x)) as (Hv & Hd & Hne).
    specialize (Hne ltac:(lia)). rewrite Hcd in *.
    change (String c ds +:+ rest) with (String c (ds +:+ rest)).
    cbn [Parse.skip_ws]. rewrite (digit_not_space c Hc).
    assert (Ascii.eqb c "-" = false /\ Ascii.eqb c "+" = false) as [Hm Hp].
    { split; apply Ascii.eqb_neq; intros ->; discriminate. }
    rewrite Hm, Hp. change (String c (ds +:+ rest)) with (String c ds +:+ rest).
    rewrite span_run by assumption. rewrite Hne, Hv.
    destruct Hrange as [Hlo Hhi].
    apply Z.leb_le in Hlo. apply Z.leb_le in Hhi.
    change (Z.of_N (N.pos x)) with (Z.pos x). rewrite Hlo, Hhi. reflexivity.
  - change (pretty (Z.neg x)) with ("-" +:+ pretty (N.pos x)). rewrite Hpos.
    destruct (digits_value (N.pos x)) as (Hv & Hd & Hne).
    change (("-" +:+ pretty_N_go (N.pos x) "") +:+ rest)
      with (String "-" (pretty_N_go (N.pos x) "" +:+ rest)).
    cbn [Parse.skip_ws]. change (Str.isspace "-") with false. cbv iota.
    rewrite Ascii.eqb_refl. rewrite span_run by assumption.
    rewrite (Hne ltac:(lia)), Hv.
    destruct Hrange as [Hlo Hhi].
    apply Z.leb_le in Hlo. apply Z.leb_le in Hhi.
    change (- Z.of_N (N.pos x)) with (Z.neg x). rewrite Hlo, Hhi. reflexivity.
Qed.

Lemma extract_int_skips c s :
  Str.isspace c = true -> Parse.extract_int (String c s) = Parse.extract_int s.
Proof. intros H. unfold Parse.extract_int. cbn [Parse.skip_ws]. rewrite H. reflexivity. Qed.

Lemma extract_word_word c word rest :
  Str.isspace c = true ->
  Str.empty word = false ->
  Str.all_of not_space word = true ->
  stops not_space rest = true ->
  Parse.extract_word (String c (word +:+ rest)) = Some (word, rest).
Proof.
  intros Hc Hne Hword Hstop. unfold Parse.extract_word. cbn [Parse.skip_ws]. rewrite Hc.
  rewrite skip_ws_word.
  2:{ destruct word as [|d word]; [discriminate|].
      change (String d word +:+ rest) with (String d (word +:+ rest)). cbn [stops Str.all_of] in *.
      apply andb_prop in Hword as [Hd _]. unfold not_space in Hd.
      apply negb_true_iff in Hd. rewrite Hd. reflexivity. }
  fold not_space. rewrite span_run by assumption. rewrite Hne. reflexivity.
Qed.

(** What follows the pid is not read. *)
Lemma connect_args_rendering (client_port client_pid : Z) (client_name rest : string) :
  (Parse.INT_MIN <= client_port <= Parse.INT_MAX)%Z ->
  (Parse.INT_MIN <= client_pid <= Parse.INT_MAX)%Z ->
  Str.empty client_name = false ->
  Str.all_of not_space client_name = true ->
  stops Str.isdigit rest = true ->
  Parse.connect_args
    (to_string client_port +:+ " " +:+ client_name +:+ " " +:+ to_string client_pid +:+ rest)
  = Some (client_port, client_name, client_pid).
Proof.
  intros Hport Hpid Hne Hname Hrest. unfold Parse.connect_args.
  rewrite extract_int_rendering by (exact Hport || reflexivity). cbn [mbind option_bind].
  change (" " +:+ client_name +:+ " " +:+ to_string client_pid +:+ rest)
    with (String " " (client_name +:+ String " " (to_string client_pid +:+ rest))).
  rewrite extract_word_word by (reflexivity || assumption). cbn [mbind option_bind].
  rewrite extract_int_skips by reflexivity.
  rewrite extract_int_rendering by (exact Hpid || exact Hrest). reflexivity.
Qed.

End Rendering.

(** X5.  The three extractions of [handle_connect] read back a port, a name
    and a pid from the port's decimal rendering, the name and the pid's
    decimal rendering separated by single spaces, for every port and pid
    that fit an [int] and every non-empty name without whitespace. *)
Theorem connect_args_round_trip (client_port client_pid : Z) (client_name : string) :
  (Parse.INT_MIN <= client_port <= Parse.INT_MAX)%Z ->
  (Parse.INT_MIN <= client_pid <= Parse.INT_MAX)%Z ->
  Str.empty client_name = false ->
  Str.all_of not_space client_name = true ->
  Parse.connect_args
    (to_string client_port +:+ " " +:+ client_name +:+ " " +:+ to_string client_pid)
  = Some (client_port, client_name, client_pid).
Proof.
  intros Hport Hpid Hne Hname.
  rewrite <- (app_empty_r (to_string client_pid)).
  apply connect_args_rendering; auto.
Qed.

Lemma connect_args_round_trip_witness :
  Parse.connect_args (to_string 1999 +:+ " " +:+ "bob" +:+ " " +:+ to_string 4711)
  = Some (1999%Z, "bob", 4711%Z).
Proof.
  apply (connect_args_round_trip 1999 4711 "bob"); [vm_compute; split; discriminate
    | vm_compute; split; discriminate | reflexivity | reflexivity].
Defined.

(** * What a parsed CONNECT holds, and two invariants of the loop *)

Section Parser.

Local Open Scope Z_scope.

Lemma span_all p s run tail :
  Parse.span p s = (run, tail) -> Str.all_of p run = true.
Proof.
  revert run tail. induction s as [|c s IH]; intros run tail; cbn [Parse.span].
  - intros [= <- <-]. reflexivity.
  - destruct (p c) eqn:Hc.
    + destruct (Parse.span p s) as [r t]. intros [= <- <-]. cbn [Str.all_of].
      rewrite Hc. exact (IH r t eq_refl).
    + intros [= <- <-]. reflexivity.
Qed.

Lemma extract_int_range s v rest :
  Parse.extract_int s = Some (v, rest) -> Parse.INT_MIN <= v <= Parse.INT_MAX.
Proof.
  unfold Parse.extract_int.
  destruct (match Parse.skip_ws s with
            | "" => (false, Parse.skip_ws s)
            | String c r => _
            end) as [negative s2].
  destruct (Parse.span Str.isdigit s2) as [digits tail].
  destruct (Str.empty digits); [discriminate|].
  destruct (_ && _) eqn:Hr; [|discriminate].
  intros [= <- <-]. apply andb_prop in Hr as [Hlo Hhi].
  apply Z.leb_le in Hlo. apply Z.leb_le in Hhi. auto.
Qed.

Lemma extract_word_word_ok s word rest :
  Parse.extract_word s = Some (word, rest) ->
  Str.empty word = false /\ Str.all_of not_space word = true.
Proof.
  unfold Parse.extract_word.
  destruct (Parse.span _ (Parse.skip_ws s)) as [w t] eqn:Hs.
  destruct (Str.empty w) eqn:He; [discriminate|].
  intros [= <- <-]. split; [exact He|]. eapply span_all. exact Hs.
Qed.

Lemma connect_args_steps args client_port client_name client_pid :
  Parse.connect_args args = Some (client_port, client_name, client_pid) ->
  exists r1 r2 r3,
    Parse.extract_int args = Some (client_port, r1)
    /\ Parse.extract_word r1 = Some (client_name, r2)
    /\ Parse.extract_int r2 = Some (client_pid, r3).
Proof.
  unfold Parse.connect_args. intros H.
  destruct (Parse.extract_int args) as [[port r1]|] eqn:H1; [|discriminate].
  cbn [mbind option_bind] in H.
  destruct (Parse.extract_word r1) as [[nm r2]|] eqn:H2; [|discriminate].
  cbn [mbind option_bind] in H.
  destruct (Parse.extract_int r2) as [[p r3]|] eqn:H3; [|discriminate].
  cbn [mbind option_bind] in H. injection H as <- <- <-.
  exists r1, r2, r3. auto.
Qed.

End Parser.

(** X6.  When the three extractions of [handle_connect] succeed, the port
    and the pid fit an [int], and the name is not empty and holds no
    whitespace. *)
Theorem connect_args_sound (args : string) (client_port client_pid : Z) (client_name : string) :
  Parse.connect_args args = Some (client_port, client_name, client_pid) ->
  (Parse.INT_MIN <= client_port <= Parse.INT_MAX)%Z
  /\ (Parse.INT_MIN <= client_pid <= Parse.INT_MAX)%Z
  /\ Str.empty client_name = false
  /\ Str.all_of not_space client_name = true.
Proof.
  intros Hp. destruct (connect_args_steps _ _ _ _ Hp) as (r1 & r2 & r3 & H1 & H2 & H3).
  split; [eapply extract_int_range; exact H1|].
  split; [eapply extract_int_range; exact H3|].
  eapply extract_word_word_ok. exact H2.
Qed.

Lemma connect_args_sound_witness :
  (Parse.INT_MIN <= 1999 <= Parse.INT_MAX)%Z
  /\ (Parse.INT_MIN <= -7 <= Parse.INT_MAX)%Z
  /\ Str.empty "bob" = false
  /\ Str.all_of not_space "bob" = true.
Proof.
  apply (connect_args_sound "  1999 bob -7 and more" 1999 (-7) "bob" eq_refl).
Defined.

Section LoopInvariants.

(** A property of the registries that every handler keeps is kept by the
    read loop, whatever it reads. *)
Lemma client_handler_keeps (I : World -> Prop) :
  on_registries I ->
  (forall command h, command_handlers command = Some h ->
     forall s args w, I w -> I (world_of (h s args w))) ->
  forall c reads w, I w -> I (world_of (client_handler c reads w)).
Proof.
  intros Hreg Hh c reads.
  assert (forall w, I w -> I (world_of (read_loop c reads w))) as Hloop.
  { induction reads as [|[data| |] rest IH]; intros w Hw.
    - exact Hw.
    - cbn [read_loop]. destruct (split_command data) as [command args].
      unfold mbind, M_bind. cbn [print].
      set (w1 := with_console _ w).
      assert (I w1) as H1 by (apply (Hreg w); [reflexivity | reflexivity | exact Hw]).
      assert (I (world_of (match command_handlers command with
                           | Some handler => handler c args
                           | None => send_message c ("[SERVER_ERROR] Unknown command: " +:+ command)
                           end w1))) as H2.
      { destruct (command_handlers command) as [handler|] eqn:Hc.
        - eapply Hh; [exact Hc | exact H1].
        - rewrite send_message_world. apply (Hreg w1); [reflexivity | reflexivity | exact H1]. }
      destruct (match command_handlers command with
                | Some handler => handler c args
                | None => _
                end w1) as [[] w2|w2|w2]; cbn [world_of] in H2 |- *.
      + apply IH. exact H2.
      + exact H2.
      + exact H2.
    - destruct (client_handler_eof c rest w) as (Hc & Ht & _).
      unfold client_handler, try_catch in Hc, Ht.
      destruct (read_loop c (Eof :: rest) w) as [[] v|v|v]; cbn [world_of] in Hc, Ht |- *;
        (apply (Hreg w); [exact Hc | exact Ht | exact Hw]).
    - exact Hw. }
  intros w Hw. specialize (Hloop w Hw). unfold client_handler, try_catch.
  destruct (read_loop c reads w) as [[] w'|w'|w']; cbn [world_of] in Hloop |- *;
    try exact Hloop.
  apply (Hreg w'); [reflexivity | reflexivity | exact Hloop].
Qed.

Lemma fan_out_keys topic line n pos w t :
  is_Some (topic_subscribers w !! t) ->
  is_Some (topic_subscribers (world_of (fan_out topic line n pos w)) !! t).
Proof.
  revert pos w. induction n as [|n IH]; intros pos w Ht; [exact Ht|].
  destruct w as [cl tp wi co he tr br]. cbn [topic_subscribers] in Ht.
  cbn [fan_out]. run.
  destruct (tp !! topic) as [v|] eqn:Hv; cbn [default from_option id];
    [|rewrite lookup_nil; exact Ht].
  destruct (v !! pos) as [s|]; [|exact Ht].
  destruct (br s); run; [rewrite Hv; run|]; apply IH; cbn [topic_subscribers];
    [|exact Ht].
  destruct (decide (topic = t)) as [->|Hne].
  - rewrite lookup_insert_eq. eauto.
  - rewrite lookup_insert_ne by exact Hne. exact Ht.
Qed.

Lemma handle_publish_keys s args w t :
  is_Some (topic_subscribers w !! t) ->
  is_Some (topic_subscribers (world_of (handle_publish s args w)) !! t).
Proof.
  intros Ht. unfold handle_publish.
  destruct (Str.find Str.space args) as [space|]; cbv zeta;
    [|rewrite send_message_world; exact Ht].
  destruct (Str.empty (sanitize_topic _)); [rewrite send_message_world; exact Ht|].
  destruct (Str.empty (sanitize_message _)); [rewrite send_message_world; exact Ht|].
  destruct w as [cl tp wi co he tr br]. cbn [topic_subscribers] in Ht.
  unfold deliver. run.
  destruct (tp !! sanitize_topic _) as [[|x v]|]; try (destruct (br s); run; exact Ht).
  destruct (cl !! s); run; [destruct (br s); run; [exact Ht|]|];
    match goal with |- context [fan_out ?a ?b ?n ?p ?W] =>
      pose proof (fan_out_keys a b n p W t Ht) as Hk;
      destruct (fan_out a b n p W) as [[] w'|w'|w'];
      destruct w' as [cl' tp' wi' co' he' tr' br']; run; exact Hk
    end.
Qed.

End LoopInvariants.

(** X7.  No sequence of reads on any connection removes a key of
    [topic_subscribers]: a topic that has an entry keeps one, an empty vector
    at the least. *)
Theorem topics_are_never_deleted (c : conn) (reads : list read_result) (w : World) (t : string) :
  is_Some (topic_subscribers w !! t) ->
  is_Some (topic_subscribers (world_of (client_handler c reads w)) !! t).
Proof.
  apply (client_handler_keeps (fun v => is_Some (topic_subscribers v !! t))).
  - intros v v' _ ->. auto.
  - unfold command_handlers. intros command h.
    repeat match goal with |- context [String.eqb ?a ?b] => destruct (String.eqb a b) end;
      intros [= <-]; intros s args v Hv.
    + destruct (handle_connect_obs s args v) as (_ & -> & _). exact Hv.
    + destruct (handle_disconnect_obs s args v) as (_ & Hobs).
      destruct (connected_clients v !! s); [destruct (broken v s)|];
        destruct Hobs as (_ & -> & _); [exact Hv| |exact Hv].
      rewrite lookup_fmap. destruct Hv as [x ->]. cbn. eauto.
    + destruct (Str.empty (sanitize_topic args)) eqn:He.
      * unfold handle_subscribe. rewrite He, send_message_world. exact Hv.
      * destruct (handle_subscribe_obs s args v He) as (_ & _ & Hobs).
        destruct (contains s _); destruct Hobs as [-> _]; [exact Hv|].
        destruct (decide (sanitize_topic args = t)) as [->|Hne].
        -- rewrite lookup_insert_eq. eauto.
        -- rewrite lookup_insert_ne by exact Hne. exact Hv.
    + destruct (Str.empty (sanitize_topic args)) eqn:He.
      * unfold handle_unsubscribe. rewrite He, send_message_world. exact Hv.
      * destruct (handle_unsubscribe_obs s args v He) as (_ & _ & Hobs).
        destruct (contains s _); destruct Hobs as [-> _]; [|exact Hv].
        destruct (decide (sanitize_topic args = t)) as [->|Hne].
        -- rewrite lookup_insert_eq. eauto.
        -- rewrite lookup_insert_ne by exact Hne. exact Hv.
    + apply handle_publish_keys. exact Hv.
Qed.

Lemma topics_are_never_deleted_witness :
  let w := world_of (client_handler 1 [Data (line_of "SUBSCRIBE news")] (start [])) in
  is_Some (topic_subscribers
             (world_of (client_handler 1 [Data (line_of "UNSUBSCRIBE news");
                                          Data (line_of "DISCONNECT")] w)) !! "news").
Proof.
  intros w. apply (topics_are_never_deleted 1 _ w "news"). vm_compute. eauto.
Defined.

(** X8.  Whatever a connection reads, every session of [connected_clients]
    stays filed under its own socket, with a pid that fits an [int] and a
    name that is not empty. *)
Theorem sessions_stay_well_formed (c : conn) (reads : list read_result) (w : World) :
  well_formed (connected_clients w) ->
  well_formed (connected_clients (world_of (client_handler c reads w))).
Proof.
  apply (client_handler_keeps (fun v => well_formed (connected_clients v))).
  - intros v v' -> _. auto.
  - unfold command_handlers. intros command h.
    repeat match goal with |- context [String.eqb ?a ?b] => destruct (String.eqb a b) end;
      intros [= <-]; intros s args v Hv.
    + destruct (handle_connect_obs s args v) as (_ & _ & Hobs).
      destruct (Parse.connect_args args) as [[[port nm] p]|] eqn:Hp; cbv zeta in Hobs;
        destruct Hobs as [-> _]; [|exact Hv].
      destruct (connect_args_steps _ _ _ _ Hp) as (r1 & r2 & r3 & _ & H2 & H3).
      pose proof (extract_int_range _ _ _ H3) as Hpid.
      destruct (extract_word_word_ok _ _ _ H2) as [Hne _].
      intros x info. destruct (decide (s = x)) as [->|Hx].
      * rewrite lookup_insert_eq. intros [= <-]. cbn [socket pid name].
        split; [reflexivity|]. split; [exact Hpid|].
        destruct (unique_name_cases (map_to_list (connected_clients v)) nm p) as [->| ->];
          [exact Hne|]. unfold suffixed. destruct nm; [discriminate | reflexivity].
      * rewrite lookup_insert_ne by exact Hx. apply Hv.
    + destruct (handle_disconnect_obs s args v) as (_ & Hobs).
      destruct (connected_clients v !! s); [destruct (broken v s)|];
        destruct Hobs as (-> & _); [exact Hv| |exact Hv].
      intros x info Hl. apply lookup_delete_Some in Hl as [_ Hl]. exact (Hv x info Hl).
    + destruct (Str.empty (sanitize_topic args)) eqn:He.
      * unfold handle_subscribe. rewrite He, send_message_world. exact Hv.
      * destruct (handle_subscribe_obs s args v He) as (-> & _). exact Hv.
    + destruct (Str.empty (sanitize_topic args)) eqn:He.
      * unfold handle_unsubscribe. rewrite He, send_message_world. exact Hv.
      * destruct (handle_unsubscribe_obs s args v He) as (-> & _). exact Hv.
    + destruct (handle_publish_effect s args v) as (-> & _). exact Hv.
Qed.

Lemma sessions_stay_well_formed_witness :
  well_formed (connected_clients
                 (world_of (client_handler 1 [Data (line_of "CONNECT 1999 bob 100")] (start [])))).
Proof.
  apply (sessions_stay_well_formed 1 _ (start [])).
  intros c info H. cbn in H. rewrite lookup_empty in H. discriminate.
Defined.

(** * PUBLISH case by case *)

Section PublishCases.

Lemma deliver_no_subscribers socket topic payload w :
  subscribers w topic = [] ->
  let w' := world_of (deliver socket topic payload w) in
  connected_clients w' = connected_clients w
  /\ topic_subscribers w' = topic_subscribers w
  /\ wire w' = (wire w ++ [mkWrite socket
                             (line_of ("[SERVER_ERROR] No subscribers for topic: " +:+ topic))
                             (negb (broken w socket))])%list.
Proof.
  destruct w as [cl tp wi co he tr br]. unfold subscribers.
  cbn [connected_clients topic_subscribers wire broken]. intros Hs.
  unfold deliver. run.
  destruct (tp !! topic) as [[|x v]|]; cbn in Hs; try discriminate;
    destruct (br socket); run; auto.
Qed.

Lemma fan_out_keys_back topic line n pos w t :
  is_Some (topic_subscribers (world_of (fan_out topic line n pos w)) !! t) ->
  is_Some (topic_subscribers w !! t).
Proof.
  revert pos w. induction n as [|n IH]; intros pos w; [auto|].
  destruct w as [cl tp wi co he tr br]. cbn [topic_subscribers].
  cbn [fan_out]. run.
  destruct (tp !! topic) as [v|] eqn:Hv; cbn [default from_option id];
    [|rewrite lookup_nil; auto].
  destruct (v !! pos) as [s|]; [|auto].
  destruct (br s); run; [rewrite Hv; run|]; intros H; apply IH in H;
    cbn [topic_subscribers] in H; [|exact H].
  destruct (decide (topic = t)) as [<-|Hne].
  - rewrite Hv. eauto.
  - rewrite lookup_insert_ne in H by exact Hne. exact H.
Qed.

Lemma handle_publish_keys_back s args w t :
  is_Some (topic_subscribers (world_of (handle_publish s args w)) !! t) ->
  is_Some (topic_subscribers w !! t).
Proof.
  unfold handle_publish.
  destruct (Str.find Str.space args) as [space|]; cbv zeta;
    [|rewrite send_message_world; auto].
  destruct (Str.empty (sanitize_topic _)); [rewrite send_message_world; auto|].
  destruct (Str.empty (sanitize_message _)); [rewrite send_message_world; auto|].
  destruct w as [cl tp wi co he tr br]. cbn [topic_subscribers].
  unfold deliver. run.
  destruct (tp !! sanitize_topic _) as [[|x v]|]; try solve [destruct (br s); run; auto].
  destruct (cl !! s); run; [destruct (br s); run; [auto|]|];
    match goal with |- context [fan_out ?a ?b ?n ?p ?W] =>
      pose proof (fan_out_keys_back a b n p W t) as Hk;
      destruct (fan_out a b n p W) as [[] w'|w'|w'];
      destruct w' as [cl' tp' wi' co' he' tr' br']; run; exact Hk
    end.
Qed.

(** A sender with a session whose peer is gone: the endpoint read for the
    log throws before the loop, and nothing is written. *)
Lemma deliver_sender_unreachable socket topic payload w :
  subscribers w topic <> [] ->
  unreachable w socket = true ->
  let r := deliver socket topic payload w in
  r = Throw (world_of r) /\ same_data w (world_of r).
Proof.
  destruct w as [cl tp wi co he tr br]. unfold subscribers, unreachable.
  cbn [connected_clients topic_subscribers wire broken]. intros Hs Hu.
  unfold deliver. run.
  destruct (tp !! topic) as [[|x v]|]; cbn in Hs; try congruence.
  destruct (cl !! socket); [|discriminate]. run. rewrite Hu. run.
  split; [reflexivity | repeat split].
Qed.

(** Whatever [deliver] writes is the fan-out line or the no-subscribers
    error. *)
Lemma deliver_writes socket topic payload w :
  exists new,
    wire (world_of (deliver socket topic payload w)) = (wire w ++ new)%list
    /\ Forall (fun x =>
                 bytes x = line_of (fan_out_line topic payload)
                 \/ bytes x = line_of ("[SERVER_ERROR] No subscribers for topic: " +:+ topic))
              new.
Proof.
  destruct w as [cl tp wi co he tr br]. unfold deliver, fan_out_line. run.
  destruct (tp !! topic) as [[|s v]|] eqn:Hv.
  1, 3: destruct (br socket); run; eexists [_]; (split; [reflexivity|]);
        repeat constructor; right; reflexivity.
  destruct (cl !! socket); run; [destruct (br socket); run|].
  1: { exists []. split; [symmetry; apply app_nil_r | constructor]. }
  all: match goal with
       | |- context [fan_out ?t ?l ?n ?p ?W] =>
           destruct (fan_out_narrowed t l n p W) as (_ & _ & _ & _ & new & Hw & Hf);
           destruct (fan_out t l n p W) as [[] w'|w'|w'];
           destruct w' as [cl' tp' wi' co' he' tr' br']; cbn in Hw; run;
           exists new; (split; [exact Hw|]);
           (eapply Forall_impl; [exact Hf|]); intros x [_ Hx]; left; exact Hx
       end.
Qed.

Lemma handle_publish_deliver socket topic raw w :
  has_char Str.space topic = false ->
  Str.empty (sanitize_topic topic) = false ->
  handle_publish socket (topic +:+ " " +:+ raw) w =
  if Spec.payload_ok (Spec.trim raw)
  then deliver socket (sanitize_topic topic) (Spec.trim raw) w
  else send_message socket invalid_message w.
Proof.
  intros Hsp Ht. unfold handle_publish.
  change (topic +:+ " " +:+ raw) with (topic +:+ String Str.space raw).
  rewrite find_after_word by exact Hsp. cbv zeta.
  rewrite substr_prefix, substr_from_suffix, Ht, sanitize_message_trim.
  destruct (Spec.payload_ok (Spec.trim raw)) eqn:Hok; [|reflexivity].
  rewrite (payload_ok_nonempty _ Hok). reflexivity.
Qed.

End PublishCases.

(** C6.  The arguments of a PUBLISH are a valid topic, one space and the
    payload, any string.  The payload is trimmed of leading and trailing
    spaces and tabs.  When the trimmed payload is empty, longer than 1024
    characters or holds a byte outside 0x20..0x7E, the handler only writes
    the invalid-message reply to the sender: the registries are untouched
    and nothing is delivered.  Every other payload is accepted as the
    trimmed string: on a topic without subscribers the answer is the
    no-subscribers error, on a topic whose subscribers can all be written to
    (from a sender whose endpoints can be read, if it has a session) every
    subscriber is written the line with exactly the trimmed payload, and in
    any state whatever is written is that line or the no-subscribers error,
    never the invalid-message reply. *)
Theorem publish_validates_payload (socket : conn) (topic raw : string) (w : World) :
  has_char Str.space topic = false ->
  Str.empty (sanitize_topic topic) = false ->
  let payload := Spec.trim raw in
  let r := handle_publish socket (topic +:+ " " +:+ raw) w in
  let w' := world_of r in
  if Str.empty payload || (1024 <? String.length payload)%nat
     || negb (Str.all_of Spec.printable payload)
  then
    connected_clients w' = connected_clients w
    /\ topic_subscribers w' = topic_subscribers w
    /\ wire w' = (wire w ++ [mkWrite socket (line_of invalid_message)
                                (negb (broken w socket))])%list
  else
    (subscribers w (sanitize_topic topic) = [] ->
     wire w' = (wire w ++ [mkWrite socket
                             (line_of ("[SERVER_ERROR] No subscribers for topic: "
                                       +:+ sanitize_topic topic))
                             (negb (broken w socket))])%list)
    /\ (forall v : list conn,
          topic_subscribers w !! sanitize_topic topic = Some v ->
          v <> [] ->
          (forall s, s ∈ v -> broken w s = false) ->
          unreachable w socket = false ->
          is_ok r = true
          /\ topic_subscribers w' = topic_subscribers w
          /\ wire w' =
             (wire w ++ (ok_write (fan_out_line (sanitize_topic topic) payload) <$> v))%list)
    /\ (exists new,
          wire w' = (wire w ++ new)%list
          /\ Forall (fun x =>
                       bytes x = line_of (fan_out_line (sanitize_topic topic) payload)
                       \/ bytes x = line_of ("[SERVER_ERROR] No subscribers for topic: "
                                             +:+ sanitize_topic topic))
                    new).
Proof.
  intros Hsp Ht payload r w'. subst r w'.
  rewrite (handle_publish_deliver socket topic raw w Hsp Ht). fold payload.
  assert (Spec.payload_ok payload =
          negb (Str.empty payload || (1024 <? String.length payload)%nat
                || negb (Str.all_of Spec.printable payload))) as ->.
  { unfold Spec.payload_ok. destruct (Str.empty payload); [reflexivity|].
    cbn [negb andb orb]. rewrite Nat.ltb_antisym.
    destruct (Nat.leb (String.length payload) 1024); [|reflexivity].
    cbn [negb andb orb]. destruct (Str.all_of Spec.printable payload); reflexivity. }
  destruct (_ || _); cbn [negb].
  - rewrite send_message_world. cbn. auto.
  - split; [|split].
    + intros Hs. apply deliver_no_subscribers. exact Hs.
    + intros v Hv Hne Halive Hsender.
      exact (deliver_all_alive socket _ payload w v Hv Hne Halive Hsender).
    + apply deliver_writes.
Qed.

(** PUBLISH "news" from socket 3 with the payload "hello world" between
    blanks, to the subscribers 1 and 2. *)
Lemma publish_validates_payload_witness :
  let w := world_of (handle_subscribe 2 "news" (world_of (handle_subscribe 1 "news" (start [])))) in
  wire (world_of (handle_publish 3 "news   hello world  " w)) =
  (wire w ++ [mkWrite 1 (line_of "[Message] Topic: news Data: hello world") true;
              mkWrite 2 (line_of "[Message] Topic: news Data: hello world") true])%list.
Proof.
  intros w.
  pose proof (publish_validates_payload 3 "news" "  hello world  " w eq_refl eq_refl) as H.
  cbv zeta in H.
  match type of H with
  | (if ?c then _ else _) => replace c with false in H by (vm_compute; reflexivity)
  end.
  destruct H as (_ & H & _).
  destruct (H [1; 2]) as (_ & _ & Hw).
  - vm_compute. reflexivity.
  - discriminate.
  - intros s _. reflexivity.
  - reflexivity.
  - exact Hw.
Defined.


(** X9.  A PUBLISH with a valid topic and payload, to a topic whose vector
    is not empty and whose subscribers can all be written to.  From a sender
    without a session, or with a session and a peer that is still there, it
    returns, leaves both registries as they are and writes the one fan-out
    line to every subscriber, once each and in the order of the vector; the
    sender gets no reply and need not be subscribed.  From a sender with a
    session whose peer is gone, the endpoint read for the log throws before
    the loop: nothing is written to anyone. *)
Theorem publish_reaches_every_subscriber
    (socket : conn) (args : string) (space : nat) (v : list conn) (w : World) :
  Str.find Str.space args = Some space ->
  let topic := sanitize_topic (Str.substr 0 space args) in
  let payload := sanitize_message (Str.substr_from (space + 1) args) in
  Str.empty topic = false ->
  Str.empty payload = false ->
  topic_subscribers w !! topic = Some v ->
  v <> [] ->
  (forall s, s ∈ v -> broken w s = false) ->
  let r := handle_publish socket args w in
  connected_clients (world_of r) = connected_clients w
  /\ topic_subscribers (world_of r) = topic_subscribers w
  /\ if unreachable w socket
     then r = Throw (world_of r) /\ wire (world_of r) = wire w
     else is_ok r = true
          /\ wire (world_of r) =
             (wire w ++ (ok_write (fan_out_line topic payload) <$> v))%list.
Proof.
  intros Hf topic payload Ht Hp Hv Hne Halive r.
  assert (r = deliver socket topic payload w) as ->.
  { subst r. unfold handle_publish. rewrite Hf. cbv zeta. fold topic. rewrite Ht.
    fold payload. rewrite Hp. reflexivity. }
  destruct (deliver_effect socket topic payload w) as (Hc & _).
  split; [exact Hc|].
  destruct (unreachable w socket) eqn:Hu.
  - destruct (deliver_sender_unreachable socket topic payload w) as (Hr & _ & Htp & Hw & _);
      [unfold subscribers; rewrite Hv; exact Hne | exact Hu |]. auto.
  - destruct (deliver_all_alive socket topic payload w v Hv Hne Halive Hu) as (Hok & Htp & Hw).
    auto.
Qed.

Lemma publish_reaches_every_subscriber_witness :
  let w := world_of (handle_subscribe 2 "news" (world_of (handle_subscribe 1 "news" (start [])))) in
  wire (world_of (handle_publish 3 "news hello world " w)) =
  (wire w ++ [mkWrite 1 (line_of "[Message] Topic: news Data: hello world") true;
              mkWrite 2 (line_of "[Message] Topic: news Data: hello world") true])%list.
Proof.
  intros w.
  destruct (publish_reaches_every_subscriber 3 "news hello world " 4 [1; 2] w eq_refl
              eq_refl eq_refl eq_refl) as (_ & _ & H).
  - discriminate.
  - intros s _. reflexivity.
  - replace (unreachable w 3) with false in H by (vm_compute; reflexivity).
    destruct H as [_ H]. exact H.
Defined.

(** X10.  When the write fails for the last subscriber of the vector only,
    and the sender has no session or a peer that is still there, PUBLISH
    still returns: every other subscriber has got the line, the failed write
    is the last one, and the vector is left without its last element. *)
Theorem publish_drops_failing_last_subscriber
    (socket : conn) (args : string) (space : nat) (init : list conn) (z : conn) (w : World) :
  Str.find Str.space args = Some space ->
  let topic := sanitize_topic (Str.substr 0 space args) in
  let payload := sanitize_message (Str.substr_from (space + 1) args) in
  Str.empty topic = false ->
  Str.empty payload = false ->
  topic_subscribers w !! topic = Some (init ++ [z])%list ->
  z ∉ init ->
  broken w z = true ->
  (forall s, s ∈ init -> broken w s = false) ->
  unreachable w socket = false ->
  let r := handle_publish socket args w in
  is_ok r = true
  /\ topic_subscribers (world_of r) = <[topic := init]> (topic_subscribers w)
  /\ wire (world_of r) =
     (wire w ++ (ok_write (fan_out_line topic payload) <$> init)
             ++ [mkWrite z (line_of (fan_out_line topic payload)) false])%list.
Proof.
  intros Hf topic payload Ht Hp Hv Hz Hbz Halive Hsender r.
  assert (r = deliver socket topic payload w) as ->.
  { subst r. unfold handle_publish. rewrite Hf. cbv zeta. fold topic. rewrite Ht.
    fold payload. rewrite Hp. reflexivity. }
  exact (deliver_last_fails socket topic payload w init z Hv Hz Hbz Halive Hsender).
Qed.

Lemma publish_drops_failing_last_subscriber_witness :
  let w := hang_up 2 (world_of (handle_subscribe 2 "news"
                                  (world_of (handle_subscribe 1 "news" (start []))))) in
  topic_subscribers (world_of (handle_publish 3 "news hi" w)) !! "news" = Some [1].
Proof.
  intros w.
  destruct (publish_drops_failing_last_subscriber 3 "news hi" 4 [1] 2 w eq_refl
              eq_refl eq_refl eq_refl) as (_ & Ht & _).
  - intros H. apply list_elem_of_singleton in H. discriminate.
  - reflexivity.
  - intros s H. apply list_elem_of_singleton in H. subst s. reflexivity.
  - reflexivity.
  - rewrite Ht. apply lookup_insert_eq.
Defined.

(** X11.  A PUBLISH with a valid topic and payload to a topic that has no
    entry, or an empty vector, changes neither registry and writes one line
    to the sender, the "No subscribers" error. *)
Theorem publish_without_subscribers
    (socket : conn) (args : string) (space : nat) (w : World) :
  Str.find Str.space args = Some space ->
  let topic := sanitize_topic (Str.substr 0 space args) in
  let payload := sanitize_message (Str.substr_from (space + 1) args) in
  Str.empty topic = false ->
  Str.empty payload = false ->
  subscribers w topic = [] ->
  let w' := world_of (handle_publish socket args w) in
  connected_clients w' = connected_clients w
  /\ topic_subscribers w' = topic_subscribers w
  /\ wire w' = (wire w ++ [mkWrite socket
                             (line_of ("[SERVER_ERROR] No subscribers for topic: " +:+ topic))
                             (negb (broken w socket))])%list.
Proof.
  intros Hf topic payload Ht Hp Hs w'.
  assert (handle_publish socket args w = deliver socket topic payload w) as Heq.
  { unfold handle_publish. rewrite Hf. cbv zeta. fold topic. rewrite Ht.
    fold payload. rewrite Hp. reflexivity. }
  subst w'. rewrite Heq. apply deliver_no_subscribers. exact Hs.
Qed.

Lemma publish_without_subscribers_witness :
  let w := world_of (handle_unsubscribe 1 "news"
                       (world_of (handle_subscribe 1 "news" (start [])))) in
  topic_subscribers w !! "news" = Some []
  /\ topic_subscribers (world_of (handle_publish 2 "news hi" w)) = topic_subscribers w.
Proof.
  intros w. split; [vm_compute; reflexivity|].
  apply (publish_without_subscribers 2 "news hi" 4 w eq_refl eq_refl eq_refl eq_refl).
Defined.

(** X12.  Whatever its arguments, PUBLISH leaves [connected_clients] as it
    is, neither creates nor deletes a topic entry, only ever shortens
    subscriber vectors, and writes fan-out lines only to sockets that were
    subscribed to some topic when it started. *)
Theorem publish_only_removes (socket : conn) (args : string) (w : World) :
  let w' := world_of (handle_publish socket args w) in
  connected_clients w' = connected_clients w
  /\ (forall t, is_Some (topic_subscribers w' !! t) <-> is_Some (topic_subscribers w !! t))
  /\ (forall t, subscribers w' t `sublist_of` subscribers w t)
  /\ exists new,
       wire w' = (wire w ++ new)%list
       /\ Forall (fun x => is_delivery x = true -> exists t, to x ∈ subscribers w t) new.
Proof.
  destruct (handle_publish_effect socket args w) as (Hc & _ & Hs & Hw).
  split; [exact Hc|]. split; [|split; [exact Hs | exact Hw]].
  intros t. split; [apply handle_publish_keys_back | apply handle_publish_keys].
Qed.

(** * UNSUBSCRIBE as a function of the state *)

(** X13.  UNSUBSCRIBE of a valid topic leaves the sender out of the topic's
    vector, whether it was in it or not, and keeps every other subscriber of
    the topic, in the order they had; the other topics and
    [connected_clients] are untouched. *)
Theorem unsubscribe_removes_only_sender (socket : conn) (raw : string) (w : World) :
  Str.empty (sanitize_topic raw) = false ->
  let topic := sanitize_topic raw in
  let w' := world_of (handle_unsubscribe socket raw w) in
  connected_clients w' = connected_clients w
  /\ (socket ∉ subscribers w' topic)
  /\ (forall s, s <> socket -> s ∈ subscribers w' topic <-> s ∈ subscribers w topic)
  /\ subscribers w' topic `sublist_of` subscribers w topic
  /\ (forall t, t <> topic -> topic_subscribers w' !! t = topic_subscribers w !! t).
Proof.
  intros Hne topic w'.
  destruct (handle_unsubscribe_obs socket raw w Hne) as (Hc & _ & Hobs).
  fold topic in Hobs. fold (subscribers w topic) in Hobs. fold w' in Hc, Hobs.
  split; [exact Hc|].
  destruct (contains socket (subscribers w topic)) eqn:Hin; destruct Hobs as [Ht _].
  - assert (subscribers w' topic = erase_remove socket (subscribers w topic)) as Hs.
    { unfold subscribers at 1. rewrite Ht, lookup_insert_eq. reflexivity. }
    rewrite Hs. split; [apply erase_remove_gone|].
    split; [|split; [apply erase_remove_sublist|]].
    + intros s Hd. unfold erase_remove. rewrite list_elem_of_filter. tauto.
    + intros t Hd. rewrite Ht. apply lookup_insert_ne. congruence.
  - assert (subscribers w' topic = subscribers w topic) as Hs
      by (unfold subscribers; rewrite Ht; reflexivity).
    rewrite Hs. apply contains_false in Hin.
    split; [exact Hin|]. split; [tauto|]. split; [reflexivity|].
    intros t _. rewrite Ht. reflexivity.
Qed.

Lemma unsubscribe_removes_only_sender_witness :
  let w := world_of (handle_subscribe 2 "news" (world_of (handle_subscribe 1 "news" (start [])))) in
  1 ∉ subscribers (world_of (handle_unsubscribe 1 "news" w)) "news".
Proof.
  intros w. apply (unsubscribe_removes_only_sender 1 "news" w eq_refl).
Defined.

(** * Commands in sequence, and the ends of the loop *)

Section RoundTrips.

Lemma handle_subscribe_throws c raw w :
  broken w c = true -> exists w', handle_subscribe c raw w = Throw w'.
Proof.
  destruct w as [cl tp wi co he tr br]. cbn [broken]. intros Hb.
  unfold handle_subscribe. cbv zeta.
  destruct (Str.empty (sanitize_topic raw)).
  - run. rewrite Hb. eauto.
  - run. destruct (tp !! sanitize_topic raw) as [subs|]; run;
      destruct (contains c _); run; try destruct (cl !! c); run; rewrite Hb; run; eauto.
Qed.

End RoundTrips.

(** X14.  SUBSCRIBE followed by UNSUBSCRIBE of the same valid topic, by a
    socket that was not subscribed, gives every topic the subscribers it had;
    the topic keeps an entry, possibly with an empty vector. *)
Theorem subscribe_then_unsubscribe (socket : conn) (raw : string) (w : World) :
  Str.empty (sanitize_topic raw) = false ->
  socket ∉ subscribers w (sanitize_topic raw) ->
  let topic := sanitize_topic raw in
  let w' := world_of (handle_unsubscribe socket raw
                        (world_of (handle_subscribe socket raw w))) in
  connected_clients w' = connected_clients w
  /\ topic_subscribers w' = <[topic := subscribers w topic]> (topic_subscribers w)
  /\ (forall t, subscribers w' t = subscribers w t).
Proof.
  intros Hne Hout topic w'.
  destruct (handle_subscribe_obs socket raw w Hne) as (Hc1 & Hb1 & H1).
  destruct (handle_unsubscribe_obs socket raw (world_of (handle_subscribe socket raw w)) Hne)
    as (Hc2 & Hb2 & H2).
  fold (subscribers w (sanitize_topic raw)) in H1.
  apply contains_false in Hout. rewrite Hout in H1. destruct H1 as [Ht1 _].
  rewrite Ht1, lookup_insert_eq in H2. cbn [default from_option id] in H2.
  assert (contains socket (subscribers w (sanitize_topic raw) ++ [socket]) = true) as Hin.
  { apply contains_true, elem_of_app. right. apply list_elem_of_singleton. reflexivity. }
  rewrite Hin in H2. destruct H2 as [Ht2 _].
  apply contains_false in Hout.
  rewrite erase_remove_last, insert_insert_eq in Ht2 by exact Hout.
  assert (topic_subscribers w' = <[topic := subscribers w topic]> (topic_subscribers w)) as Ht
    by exact Ht2.
  split; [subst w'; rewrite Hc2; exact Hc1|]. split; [exact Ht|].
  intros t. unfold subscribers at 1. rewrite Ht.
  destruct (decide (t = topic)) as [->|Hd].
  - rewrite lookup_insert_eq. reflexivity.
  - rewrite lookup_insert_ne by congruence. reflexivity.
Qed.

Lemma subscribe_then_unsubscribe_witness :
  topic_subscribers
    (world_of (handle_unsubscribe 1 " news" (world_of (handle_subscribe 1 " news" (start [])))))
  = {[ "news" := [] ]}.
Proof.
  destruct (subscribe_then_unsubscribe 1 " news" (start []) eq_refl) as (_ & Ht & _).
  - apply not_elem_of_nil.
  - rewrite Ht. vm_compute. reflexivity.
Defined.

(** X15.  A read whose first word is not a key of [command_handlers]
    changes neither registry and is answered with the unknown-command error
    and that word; when this write fails the loop ends at once, whatever
    would have been read next, through its [catch] block. *)
Theorem unknown_command_reply (c : conn) (data : string) (rest : list read_result) (w : World) :
  command_handlers (split_command data).1 = None ->
  let w' := world_of (client_handler c [Data data] w) in
  connected_clients w' = connected_clients w
  /\ topic_subscribers w' = topic_subscribers w
  /\ wire w' = (wire w ++ [mkWrite c
                  (line_of ("[SERVER_ERROR] Unknown command: " +:+ (split_command data).1))
                  (negb (broken w c))])%list
  /\ (broken w c = true ->
      client_handler c (Data data :: rest) w = client_handler c [Data data] w
      /\ console w' = (console w ++ [Received (Str.erase_remove Str.newline data);
                                      ClientError])%list).
Proof.
  intros Hc. destruct w as [cl tp wi co he tr br].
  unfold client_handler. cbn [read_loop].
  destruct (split_command data) as [command args]. cbn [fst] in Hc |- *. rewrite Hc.
  run. destruct (br c); run; repeat split; try discriminate.
  rewrite <- app_assoc. reflexivity.
Qed.

Lemma unknown_command_reply_witness :
  wire (world_of (client_handler 1 [Data (line_of "subscribe news")] (start []))) =
  [mkWrite 1 (line_of "[SERVER_ERROR] Unknown command: subscribe") true].
Proof.
  apply (unknown_command_reply 1 (line_of "subscribe news") [] (start []) eq_refl).
Defined.

(** X16.  End of stream and any other read error end the loop, whatever
    would have been read next, and the thread returns: neither registry is
    changed and nothing is written.  End of stream logs a DISCONNECT action
    with the metadata of the socket's session; when the socket has a session
    and its peer is gone, reading the endpoints for that log throws, and the
    [catch] block logs the client error instead, as it does for the other
    read errors. *)
Theorem read_error_ends_loop (c : conn) (rest : list read_result) (w : World) :
  let eof := client_handler c (Eof :: rest) w in
  let failed := client_handler c (Failed :: rest) w in
  (is_ok eof = true /\ same_data w (world_of eof)
   /\ console (world_of eof) =
      (console w ++ [if unreachable w c then ClientError
                     else Action "DISCONNECT" "End of file"
                                 (metadata_of (connected_clients w) c)])%list)
  /\ (is_ok failed = true /\ same_data w (world_of failed)
      /\ console (world_of failed) = (console w ++ [ClientError])%list).
Proof.
  destruct w as [cl tp wi co he tr br].
  unfold client_handler, metadata_of, unreachable. cbn [read_loop].
  run. split.
  - destruct (cl !! c); run; [destruct (br c); run|]; repeat split.
  - repeat split.
Qed.

(** X17.  A SUBSCRIBE to a valid topic whose confirmation cannot be written
    ends the connection's loop, whatever would have been read next, through
    the [catch] block of [client_handler]; the socket is left in the topic's
    vector and [connected_clients] is as before. *)
Theorem subscribe_reply_fails
    (c : conn) (data raw : string) (rest : list read_result) (w : World) :
  split_command data = ("SUBSCRIBE", raw) ->
  Str.empty (sanitize_topic raw) = false ->
  broken w c = true ->
  let r := client_handler c (Data data :: rest) w in
  r = client_handler c [Data data] w
  /\ c ∈ subscribers (world_of r) (sanitize_topic raw)
  /\ connected_clients (world_of r) = connected_clients w
  /\ last (console (world_of r)) = Some ClientError.
Proof.
  intros Hs Hne Hb.
  pose (w1 := with_console (console w ++ [Received (Str.erase_remove Str.newline data)]) w).
  destruct (handle_subscribe_throws c raw w1 Hb) as [w' Hw'].
  pose proof (subscribe_subscribed c raw w1 Hne) as Hin.
  destruct (handle_subscribe_obs c raw w1 Hne) as (Hc & _).
  rewrite Hw' in Hin, Hc. cbn [world_of] in Hin, Hc.
  assert (forall reads, client_handler c (Data data :: reads) w
                        = Ok tt (with_console (console w' ++ [ClientError]) w')) as Hrun.
  { intros reads. unfold client_handler. cbn [read_loop]. rewrite Hs.
    change (command_handlers "SUBSCRIBE") with (Some handle_subscribe).
    unfold try_catch, mbind, M_bind. cbn [print]. fold w1. rewrite Hw'. reflexivity. }
  cbv zeta. rewrite !Hrun. cbn [world_of].
  split; [reflexivity|]. split; [exact Hin|]. split; [exact Hc|].
  cbn [console with_console]. apply last_snoc.
Qed.

Lemma subscribe_reply_fails_witness :
  1 ∈ subscribers (world_of (client_handler 1 [Data (line_of "SUBSCRIBE news");
                                               Data (line_of "DISCONNECT")]
                               (start [1]))) "news".
Proof.
  apply (subscribe_reply_fails 1 (line_of "SUBSCRIBE news") "news"
           [Data (line_of "DISCONNECT")] (start [1]) eq_refl eq_refl eq_refl).
Defined.

(** X18.  A well-formed CONNECT followed by DISCONNECT on a connection that
    can be written to leaves [connected_clients] without an entry for the
    socket, every vector without the socket, and two lines on the wire, the
    two confirmations. *)
Theorem connect_then_disconnect
    (c : conn) (d1 d2 args rest : string) (w : World) :
  split_command d1 = ("CONNECT", args) ->
  is_Some (Parse.connect_args args) ->
  split_command d2 = ("DISCONNECT", rest) ->
  broken w c = false ->
  let w' := world_of (client_handler c [Data d1; Data d2] w) in
  connected_clients w' = delete c (connected_clients w)
  /\ topic_subscribers w' = erase_remove c <$> topic_subscribers w
  /\ exists assigned,
       wire w' = (wire w ++ [ok_write ("[SERVER] Connected as " +:+ assigned) c;
                             ok_write "[SERVER] Disconnected" c])%list.
Proof.
  intros Hs1 [[[port nm] p] Hp] Hs2 Hb.
  destruct w as [cl tp wi co he tr br]. cbn [broken] in Hb.
  unfold client_handler. cbn [read_loop]. rewrite Hs1, Hs2.
  change (command_handlers "CONNECT") with (Some handle_connect).
  change (command_handlers "DISCONNECT") with (Some handle_disconnect).
  unfold handle_connect, handle_disconnect. rewrite Hp. run.
  repeat (first [rewrite lookup_insert_eq | rewrite Hb | progress run]).
  rewrite delete_insert_eq.
  split; [reflexivity|]. split; [reflexivity|].
  eexists. unfold ok_write, line_of. rewrite <- app_assoc. reflexivity.
Qed.

Lemma connect_then_disconnect_witness :
  connected_clients
    (world_of (client_handler 1 [Data (line_of "CONNECT 1999 bob 4711");
                                 Data (line_of "DISCONNECT")] (start [])))
  = ∅.
Proof.
  destruct (connect_then_disconnect 1 (line_of "CONNECT 1999 bob 4711") (line_of "DISCONNECT")
              "1999 bob 4711" "" (start []) eq_refl) as (Hc & _).
  - eexists. vm_compute. reflexivity.
  - reflexivity.
  - reflexivity.
  - rewrite Hc. vm_compute. reflexivity.
Defined.

(** X19.  Of the five commands only SUBSCRIBE adds a key to
    [topic_subscribers], and only the sanitized topic it is given; none of
    the five removes one. *)
Theorem only_subscribe_creates_topics
    (command : string) (h : conn -> string -> M unit)
    (s : conn) (args : string) (w : World) (t : string) :
  command_handlers command = Some h ->
  let w' := world_of (h s args w) in
  (command ≠ "SUBSCRIBE" ->
   (is_Some (topic_subscribers w' !! t) <-> is_Some (topic_subscribers w !! t)))
  /\ (command = "SUBSCRIBE" ->
      (is_Some (topic_subscribers w' !! t) <->
       is_Some (topic_subscribers w !! t)
       \/ (t = sanitize_topic args /\ Str.empty t = false))).
Proof.
  unfold command_handlers. intros Hc. cbv zeta.
  destruct (String.eqb command "CONNECT") eqn:E1.
  { apply String.eqb_eq in E1. injection Hc as <-. subst command.
    destruct (handle_connect_obs s args w) as (_ & -> & _).
    split; [tauto | discriminate]. }
  destruct (String.eqb command "DISCONNECT") eqn:E2.
  { apply String.eqb_eq in E2. injection Hc as <-. subst command.
    split; [intros _ | discriminate].
    destruct (handle_disconnect_obs s args w) as (_ & Ho).
    destruct (connected_clients w !! s); [destruct (broken w s)|];
      destruct Ho as (_ & -> & _); [tauto| |tauto].
    rewrite lookup_fmap. rewrite fmap_is_Some. tauto. }
  destruct (String.eqb command "SUBSCRIBE") eqn:E3.
  { apply String.eqb_eq in E3. injection Hc as <-. subst command.
    split; [congruence | intros _].
    destruct (Str.empty (sanitize_topic args)) eqn:He.
    - unfold handle_subscribe. cbv zeta. rewrite He, send_message_world.
      split; [auto | intros [H|[-> H]]; [exact H | congruence]].
    - destruct (handle_subscribe_obs s args w He) as (_ & _ & Ho).
      destruct (contains s _) eqn:Hin; destruct Ho as [-> _].
      + split; [auto | intros [H|[-> _]]; [exact H|]].
        apply contains_true in Hin.
        destruct (topic_subscribers w !! sanitize_topic args); [eauto|].
        cbn in Hin. apply elem_of_nil in Hin. destruct Hin.
      + destruct (decide (t = sanitize_topic args)) as [->|Hd].
        * rewrite lookup_insert_eq. split; [intros _; right; auto | eauto].
        * rewrite lookup_insert_ne by congruence.
          split; [auto | intros [H|[-> _]]; [exact H | congruence]]. }
  destruct (String.eqb command "UNSUBSCRIBE") eqn:E4.
  { apply String.eqb_eq in E4. injection Hc as <-. subst command.
    split; [intros _ | discriminate].
    destruct (Str.empty (sanitize_topic args)) eqn:He.
    - unfold handle_unsubscribe. cbv zeta. rewrite He, send_message_world. tauto.
    - destruct (handle_unsubscribe_obs s args w He) as (_ & _ & Ho).
      destruct (contains s _) eqn:Hin; destruct Ho as [-> _]; [|tauto].
      destruct (decide (t = sanitize_topic args)) as [->|Hd].
      + rewrite lookup_insert_eq. apply contains_true in Hin.
        destruct (topic_subscribers w !! sanitize_topic args); [split; eauto|].
        cbn in Hin. apply elem_of_nil in Hin. destruct Hin.
      + rewrite lookup_insert_ne by congruence. tauto. }
  destruct (String.eqb command "PUBLISH") eqn:E5; [|discriminate].
  apply String.eqb_eq in E5. injection Hc as <-. subst command.
  split; [intros _ | discriminate].
  split; [apply handle_publish_keys_back | apply handle_publish_keys].
Qed.

Lemma only_subscribe_creates_topics_witness :
  is_Some (topic_subscribers (world_of (handle_unsubscribe 1 "news" (start []))) !! "news")
  <-> is_Some (topic_subscribers (start []) !! "news").
Proof.
  apply (only_subscribe_creates_topics "UNSUBSCRIBE" handle_unsubscribe 1 "news" (start [])
           "news" eq_refl).
  discriminate.
Defined.

(** X20.  The name [handle_connect] assigns does not depend on the order in
    which the loop meets the entries of [connected_clients]. *)
Theorem unique_name_any_order
    (entries entries' : list (conn * ClientInfo))
    (client_name original_name : string) (client_pid : Z) :
  entries ≡ₚ entries' ->
  unique_name entries client_name original_name client_pid
  = unique_name entries' client_name original_name client_pid.
Proof.
  induction 1 as [|x l l' _ IH|x y l|l l' l'' _ IH1 _ IH2]; cbn [unique_name].
  - reflexivity.
  - rewrite IH. reflexivity.
  - destruct (String.eqb (name y.2) client_name), (String.eqb (name x.2) client_name);
      reflexivity.
  - rewrite IH1. exact IH2.
Qed.

Lemma unique_name_any_order_witness :
  unique_name [(1, mkClientInfo 1 "ann" 7); (2, mkClientInfo 2 "bob" 8)] "bob" "bob" 9
  = unique_name [(2, mkClientInfo 2 "bob" 8); (1, mkClientInfo 1 "ann" 7)] "bob" "bob" 9.
Proof.
  apply (unique_name_any_order _ _ "bob" "bob" 9%Z (perm_swap _ _ [])).
Defined.

(** X21.  A CONNECT whose arguments do not parse changes neither registry
    and writes nothing, to the sender either.  It returns after logging
    CONNECTION_ERROR on the console, with the metadata of the socket's
    session if it has one; when the socket has a session and its peer is
    gone, reading the endpoints for that log throws and the handler is left
    by the exception, with nothing logged. *)
Theorem malformed_connect_is_silent (socket : conn) (args : string) (w : World) :
  Parse.connect_args args = None ->
  let r := handle_connect socket args w in
  same_data w (world_of r)
  /\ if unreachable w socket
     then r = Throw (world_of r) /\ console (world_of r) = console w
     else is_ok r = true
          /\ console (world_of r) =
             (console w ++ [Action "CONNECTION_ERROR" "Client connect message is malformed."
                                   (metadata_of (connected_clients w) socket)])%list.
Proof.
  intros Hp. destruct w as [cl tp wi co he tr br].
  unfold handle_connect, metadata_of, unreachable. rewrite Hp. run.
  destruct (cl !! socket); run; [destruct (br socket); run|]; repeat split.
Qed.

Lemma malformed_connect_is_silent_witness :
  wire (world_of (handle_connect 1 "2147483648 bob 4711" (start []))) = [].
Proof.
  destruct (malformed_connect_is_silent 1 "2147483648 bob 4711" (start []) eq_refl)
    as ((_ & _ & Hw & _) & _).
  exact Hw.
Defined.

(** * What the client writes and what the broker reads *)

Section Tokens.

Lemma skip_ws_length s : (String.length (Parse.skip_ws s) <= String.length s)%nat.
Proof.
  induction s as [|c s IH]; cbn [Parse.skip_ws String.length]; [lia|].
  destruct (Str.isspace c); cbn [String.length]; lia.
Qed.

Lemma span_length p s run tail :
  Parse.span p s = (run, tail) ->
  (String.length run + String.length tail = String.length s)%nat.
Proof.
  revert run tail. induction s as [|c s IH]; intros run tail; cbn [Parse.span].
  - intros [= <- <-]. reflexivity.
  - destruct (p c).
    + destruct (Parse.span p s) as [r t]. intros [= <- <-].
      cbn [String.length]. rewrite <- (IH r t eq_refl). lia.
    + intros [= <- <-]. reflexivity.
Qed.

Lemma extract_word_shorter s word rest :
  Parse.extract_word s = Some (word, rest) ->
  (String.length rest < String.length s)%nat.
Proof.
  unfold Parse.extract_word.
  destruct (Parse.span _ (Parse.skip_ws s)) as [w t] eqn:Hs.
  destruct w as [|c w]; cbn [Str.empty]; [discriminate|].
  intros [= <- <-]. apply span_length in Hs. cbn [String.length] in Hs.
  pose proof (skip_ws_length s). lia.
Qed.

Lemma extract_all_fuel fuel s :
  (String.length s <= fuel)%nat ->
  Client.extract_all fuel s = Client.extract_all (String.length s) s.
Proof.
  revert s. induction (lt_wf fuel) as [fuel _ IH]. intros s Hle.
  destruct fuel as [|fuel].
  - replace (String.length s) with 0%nat by lia. reflexivity.
  - cbn [Client.extract_all].
    destruct (Parse.extract_word s) as [[arg rest]|] eqn:He.
    + pose proof (extract_word_shorter s arg rest He) as Hlt.
      destruct (String.length s) as [|n] eqn:Hn; [lia|].
      cbn [Client.extract_all]. rewrite He. f_equal.
      rewrite (IH fuel) by lia. rewrite (IH n) by lia. reflexivity.
    + destruct (String.length s); cbn [Client.extract_all]; [reflexivity|].
      rewrite He. reflexivity.
Qed.

Lemma extract_all_tokens fuel s : Forall token (Client.extract_all fuel s).
Proof.
  revert s. induction fuel as [|fuel IH]; intros s; cbn [Client.extract_all]; [constructor|].
  destruct (Parse.extract_word s) as [[arg rest]|] eqn:He; [|constructor].
  constructor; [|apply IH]. exact (extract_word_word_ok s arg rest He).
Qed.

Lemma token_no_space c s : Str.isspace c = true -> token s -> has_char c s = false.
Proof.
  intros Hc [_ Hs]. induction s as [|d s IH]; [reflexivity|].
  cbn [Str.all_of has_char] in *. apply andb_prop in Hs as [Hd Hs].
  rewrite (IH Hs), orb_false_r. apply Ascii.eqb_neq. intros ->.
  unfold not_space in Hd. rewrite Hc in Hd. discriminate.
Qed.

Lemma unwords_no_char c words :
  Str.isspace c = true -> c <> Str.space -> Forall token words ->
  has_char c (unwords words) = false.
Proof.
  intros Hc Hsp. induction 1 as [|w ws Hw Hws IH]; [reflexivity|].
  destruct ws as [|v ws]; cbn [unwords]; [exact (token_no_space c w Hc Hw)|].
  rewrite !has_char_app, (token_no_space c w Hc Hw). cbn [has_char orb].
  replace (Ascii.eqb " " c) with false; [exact IH|].
  symmetry. apply Ascii.eqb_neq. intros <-. apply Hsp. reflexivity.
Qed.

Lemma oss_fold acc words :
  foldl (fun oss arg => oss +:+ arg +:+ " ") acc words
  = acc +:+ foldr (fun arg s => arg +:+ " " +:+ s) "" words.
Proof.
  revert acc. induction words as [|w ws IH]; intros acc; cbn [foldl foldr].
  - symmetry. apply app_empty_r.
  - rewrite IH. rewrite !app_assoc_string. reflexivity.
Qed.

Lemma spaced_unwords w ws :
  foldr (fun arg s => arg +:+ " " +:+ s) "" (w :: ws) = unwords (w :: ws) +:+ " ".
Proof.
  revert w. induction ws as [|v ws IH]; intros w.
  - cbn [foldr unwords]. reflexivity.
  - change (foldr _ "" (w :: v :: ws))
      with (w +:+ " " +:+ foldr (fun arg s => arg +:+ " " +:+ s) "" (v :: ws)).
    rewrite IH. cbn [unwords]. rewrite !app_assoc_string. reflexivity.
Qed.

Lemma rtrim_blank s b :
  Spec.is_blank b = true -> Spec.rtrim (s +:+ String b "") = Spec.rtrim s.
Proof.
  intros Hb. induction s as [|c s IH].
  - change ("" +:+ String b "") with (String b ""). cbn [Spec.rtrim]. rewrite Hb. reflexivity.
  - change (String c s +:+ String b "") with (String c (s +:+ String b "")).
    cbn [Spec.rtrim]. rewrite IH. reflexivity.
Qed.

Lemma ltrim_blank s b :
  Spec.is_blank b = true ->
  Spec.ltrim (s +:+ String b "") =
  if Str.empty (Spec.ltrim s) then "" else Spec.ltrim s +:+ String b "".
Proof.
  intros Hb. induction s as [|c s IH].
  - change ("" +:+ String b "") with (String b ""). cbn [Spec.ltrim]. rewrite Hb. reflexivity.
  - change (String c s +:+ String b "") with (String c (s +:+ String b "")).
    cbn [Spec.ltrim]. destruct (Spec.is_blank c); [exact IH | reflexivity].
Qed.

Lemma trim_blank s b : Spec.is_blank b = true -> Spec.trim (s +:+ String b "") = Spec.trim s.
Proof.
  intros Hb. unfold Spec.trim. rewrite ltrim_blank by exact Hb.
  destruct (Spec.ltrim s) as [|c t] eqn:Hl; [reflexivity|].
  cbn [Str.empty]. apply rtrim_blank. exact Hb.
Qed.

Lemma sanitize_message_blank s b :
  Spec.is_blank b = true -> sanitize_message (s +:+ String b "") = sanitize_message s.
Proof. intros Hb. rewrite !sanitize_message_trim, trim_blank by exact Hb. reflexivity. Qed.

Lemma send_command_writes command st :
  Client.connected st = true -> is_Some (Client.global_socket st) ->
  Client.socket_mutex st = false -> Client.writable st = true ->
  Str.empty command = false ->
  Client.send_command command st =
  Client.Done (Client.mkState true (Client.global_socket st) false
                 (Client.sent st ++ [line_of command]) true).
Proof.
  destruct st as [co gs mu se wr]. cbn. intros -> Hs -> -> He.
  unfold Client.send_command, Client.lock_guard. cbn.
  rewrite (bool_decide_eq_true_2 _ Hs), He. reflexivity.
Qed.

End Tokens.

(** X22.  The loop of [process_command] is through with the input after at
    most as many extractions as the input has characters, and every argument
    it collects is not empty and holds no whitespace. *)
Theorem tokens_of_input (fuel : nat) (input : string) :
  (String.length input <= fuel)%nat ->
  Client.extract_all fuel input = Client.extract_all (String.length input) input
  /\ Forall token (Client.extract_all (String.length input) input).
Proof.
  intros Hle. split; [apply extract_all_fuel; exact Hle | apply extract_all_tokens].
Qed.

Lemma tokens_of_input_witness :
  Client.extract_all 100 "  hello   big world " = ["hello"; "big"; "world"].
Proof.
  destruct (tokens_of_input 100 "  hello   big world ") as [-> _].
  - vm_compute. lia.
  - vm_compute. reflexivity.
Defined.

Section ClientCommands.

Lemma digits_no_space c s :
  Str.isspace c = true -> Str.all_of Str.isdigit s = true -> has_char c s = false.
Proof.
  intros Hc. induction s as [|d s IH]; [reflexivity|].
  cbn [Str.all_of has_char]. intros H. apply andb_prop in H as [Hd Hs].
  rewrite (IH Hs), orb_false_r. apply Ascii.eqb_neq. intros ->.
  apply digit_not_space in Hd. congruence.
Qed.

Lemma to_string_no_space c z : Str.isspace c = true -> has_char c (to_string z) = false.
Proof.
  intros Hc.
  assert (forall x : positive, has_char c (pretty (N.pos x)) = false) as Hpos.
  { intros x. unfold pretty, pretty_N. rewrite decide_False by discriminate.
    apply digits_no_space; [exact Hc|]. apply digits_value. }
  unfold to_string. destruct z as [|x|x].
  - apply digits_no_space; [exact Hc | reflexivity].
  - change (pretty (Z.pos x)) with (pretty (N.pos x)). apply Hpos.
  - change (pretty (Z.neg x)) with ("-" +:+ pretty (N.pos x)).
    rewrite has_char_app, Hpos, orb_false_r. cbn [has_char]. rewrite orb_false_r.
    apply Ascii.eqb_neq. intros <-. discriminate.
Qed.

End ClientCommands.

(** X23.  For a connected client whose socket can be written to, an input
    line PUBLISH with a topic and at least one more word makes
    [process_command] write one line; when the broker gets this line in one
    read, [client_handler] takes it as PUBLISH, [handle_publish] finds the
    topic the user typed, and the payload it sanitizes is sanitized like the
    data words joined by single spaces: the whitespace between the words as
    typed is lost. *)
Theorem client_publish_reaches_server
    (pid : Z) (dial : option conn) (input rest topic word : string) (words : list string)
    (st : Client.State) :
  Parse.extract_word input = Some ("PUBLISH", rest) ->
  Client.extract_all (String.length rest) rest = topic :: word :: words ->
  Client.connected st = true ->
  is_Some (Client.global_socket st) ->
  Client.socket_mutex st = false ->
  Client.writable st = true ->
  exists bytes args,
    Client.process_command pid dial input st =
      Client.Done (Client.mkState true (Client.global_socket st) false
                     (Client.sent st ++ [bytes]) true)
    /\ split_command bytes = ("PUBLISH", args)
    /\ Str.find Str.space args = Some (String.length topic)
    /\ Str.substr 0 (String.length topic) args = topic
    /\ sanitize_message (Str.substr_from (String.length topic + 1) args)
       = sanitize_message (unwords (word :: words)).
Proof.
  intros Hc Hargs Hco Hso Hmu Hwr.
  pose proof (extract_all_tokens (String.length rest) rest) as Htok.
  rewrite Hargs in Htok.
  apply Forall_cons in Htok as [Htopic Hdata].
  pose (args := topic +:+ String Str.space (unwords (word :: words) +:+ " ")).
  assert (foldl (fun oss arg => oss +:+ arg +:+ " ") ("PUBLISH " +:+ topic +:+ " ")
                (word :: words)
          = "PUBLISH" +:+ String Str.space args) as Hoss.
  { rewrite oss_fold, spaced_unwords. subst args.
    change ("PUBLISH " +:+ topic +:+ " ") with ("PUBLISH" +:+ (" " +:+ (topic +:+ " "))).
    rewrite !app_assoc_string. reflexivity. }
  exists (line_of ("PUBLISH" +:+ String Str.space args)), args.
  split; [|split; [|split; [|split]]].
  - unfold Client.process_command. rewrite Hc, Hargs.
    change (Client.command_handlers pid dial "PUBLISH") with (Some Client.handle_publish).
    unfold Client.handle_publish.
    change (List.length (topic :: word :: words) <? 2)%nat with false.
    cbn [nth drop]. cbv zeta. rewrite Hoss.
    apply send_command_writes; auto.
  - apply split_command_word; [reflexivity | reflexivity |].
    subst args. rewrite has_char_app. cbn [has_char].
    rewrite (token_no_space Str.newline topic eq_refl Htopic).
    rewrite has_char_app, (unwords_no_char Str.newline (word :: words) eq_refl) by
      (discriminate || exact Hdata).
    reflexivity.
  - subst args. apply find_after_word. apply token_no_space; [reflexivity | exact Htopic].
  - subst args. apply substr_prefix.
  - subst args. rewrite substr_from_suffix. apply sanitize_message_blank. reflexivity.
Qed.

Lemma client_publish_reaches_server_witness :
  exists bytes args,
    Client.process_command 4711 None "PUBLISH news   hello    world"
      (Client.mkState true (Some 1) false [] true) =
      Client.Done (Client.mkState true (Some 1) false ([] ++ [bytes]) true)
    /\ split_command bytes = ("PUBLISH", args)
    /\ Str.find Str.space args = Some 4
    /\ Str.substr 0 4 args = "news"
    /\ sanitize_message (Str.substr_from (4 + 1) args) = sanitize_message "hello world".
Proof.
  apply (client_publish_reaches_server 4711 None "PUBLISH news   hello    world"
           " news   hello    world" "news" "hello" ["world"]
           (Client.mkState true (Some 1) false [] true) eq_refl eq_refl eq_refl).
  - eexists. reflexivity.
  - reflexivity.
  - reflexivity.
Defined.

(** X24.  For a client that is not connected, an input line CONNECT with a
    port and a name, or an address, a port and a name, the port in its
    decimal rendering, on a connection that can be established and written
    to: [process_command] leaves the client connected and writes one line;
    when the broker gets this line in one read, [client_handler] takes it as
    CONNECT and [handle_connect] there reads the port, the name and the pid
    of the client. *)
Theorem client_connect_reaches_server
    (pid port : Z) (socket : conn) (input rest client_name : string) (args : list string)
    (st : Client.State) :
  Parse.extract_word input = Some ("CONNECT", rest) ->
  Client.extract_all (String.length rest) rest = args ->
  (args = [to_string port; client_name]
   \/ exists server_ip, args = [server_ip; to_string port; client_name]) ->
  (Parse.INT_MIN <= port <= Parse.INT_MAX)%Z ->
  (Parse.INT_MIN <= pid <= Parse.INT_MAX)%Z ->
  Client.connected st = false ->
  Client.socket_mutex st = false ->
  Client.writable st = true ->
  exists bytes server_args,
    Client.process_command pid (Some socket) input st =
      Client.Done (Client.mkState true (Some socket) false (Client.sent st ++ [bytes]) true)
    /\ split_command bytes = ("CONNECT", server_args)
    /\ Parse.connect_args server_args = Some (port, client_name, pid).
Proof.
  intros Hc Hall Hargs Hport Hpid Hco Hmu Hwr.
  pose proof (extract_all_tokens (String.length rest) rest) as Htok. rewrite Hall in Htok.
  assert (token (to_string port) /\ token client_name) as [Htp Htn].
  { destruct Hargs as [->|[ip ->]].
    - apply Forall_cons in Htok as [H1 Htok]. apply Forall_cons in Htok as [H2 _]. auto.
    - apply Forall_cons in Htok as [_ Htok].
      apply Forall_cons in Htok as [H1 Htok]. apply Forall_cons in Htok as [H2 _]. auto. }
  pose (server_args := to_string port +:+ " " +:+ client_name +:+ " " +:+ to_string pid).
  exists (line_of ("CONNECT" +:+ String Str.space server_args)), server_args.
  split; [|split].
  - unfold Client.process_command. rewrite Hc, Hall.
    change (Client.command_handlers pid (Some socket) "CONNECT")
      with (Some (Client.handle_connect pid (Some socket))).
    destruct st as [co gs mu se wr]. cbn in Hco, Hmu, Hwr. subst co mu wr.
    destruct Hargs as [->|[ip ->]]; reflexivity.
  - apply split_command_word; [reflexivity | reflexivity |].
    subst server_args. rewrite !has_char_app. cbn [has_char].
    rewrite (token_no_space Str.newline _ eq_refl Htp),
            (token_no_space Str.newline _ eq_refl Htn).
    rewrite (to_string_no_space Str.newline pid eq_refl). reflexivity.
  - subst server_args. destruct Htn as [Hne Hws].
    rewrite <- (app_empty_r (to_string pid)).
    apply connect_args_rendering; auto.
Qed.

Lemma client_connect_reaches_server_witness :
  exists bytes server_args,
    Client.process_command 4711 (Some 1) "CONNECT 127.0.0.1 1999 bob"
      (Client.mkState false None false [] true) =
      Client.Done (Client.mkState true (Some 1) false ([] ++ [bytes]) true)
    /\ split_command bytes = ("CONNECT", server_args)
    /\ Parse.connect_args server_args = Some (1999%Z, "bob", 4711%Z).
Proof.
  apply (client_connect_reaches_server 4711 1999 1 "CONNECT 127.0.0.1 1999 bob"
           " 127.0.0.1 1999 bob" "bob" ["127.0.0.1"; "1999"; "bob"]
           (Client.mkState false None false [] true) eq_refl eq_refl).
  - right. exists "127.0.0.1". reflexivity.
  - vm_compute. split; discriminate.
  - vm_compute. split; discriminate.
  - reflexivity.
  - reflexivity.
  - reflexivity.
Defined.

(** X25.  For a connected client whose socket can be written to, an input
    line SUBSCRIBE or UNSUBSCRIBE with exactly one argument makes
    [process_command] write one line, which the broker, getting it in one
    read, cuts into that command and that argument; with no argument, or
    more than one, nothing is written and the state is unchanged. *)
Theorem client_subscribe_reaches_server
    (pid : Z) (dial : option conn) (input command rest : string) (args : list string)
    (st : Client.State) :
  Parse.extract_word input = Some (command, rest) ->
  command = "SUBSCRIBE" \/ command = "UNSUBSCRIBE" ->
  Client.extract_all (String.length rest) rest = args ->
  Client.connected st = true ->
  is_Some (Client.global_socket st) ->
  Client.socket_mutex st = false ->
  Client.writable st = true ->
  match args with
  | [topic] =>
      Client.process_command pid dial input st =
        Client.Done (Client.mkState true (Client.global_socket st) false
                       (Client.sent st ++ [line_of (command +:+ " " +:+ topic)]) true)
      /\ split_command (line_of (command +:+ " " +:+ topic)) = (command, topic)
  | _ => Client.process_command pid dial input st = Client.Done st
  end.
Proof.
  intros Hc Hcmd Hall Hco Hso Hmu Hwr.
  pose proof (extract_all_tokens (String.length rest) rest) as Htok. rewrite Hall in Htok.
  unfold Client.process_command. rewrite Hc, Hall.
  destruct args as [|topic [|second args]].
  - destruct Hcmd as [-> | ->]; reflexivity.
  - apply Forall_cons in Htok as [Htopic _]. split.
    + destruct Hcmd as [-> | ->].
      * change (Client.command_handlers pid dial "SUBSCRIBE")
          with (Some Client.handle_subscribe).
        unfold Client.handle_subscribe. cbn [List.length Nat.eqb negb nth].
        apply send_command_writes; auto.
      * change (Client.command_handlers pid dial "UNSUBSCRIBE")
          with (Some Client.handle_unsubscribe).
        unfold Client.handle_unsubscribe. cbn [List.length Nat.eqb negb nth].
        apply send_command_writes; auto.
    + change (command +:+ " " +:+ topic) with (command +:+ String Str.space topic).
      apply split_command_word;
        [destruct Hcmd as [-> | ->]; reflexivity
        | destruct Hcmd as [-> | ->]; reflexivity
        | apply token_no_space; [reflexivity | exact Htopic]].
  - destruct Hcmd as [-> | ->]; reflexivity.
Qed.

Lemma client_subscribe_reaches_server_witness :
  split_command (line_of ("SUBSCRIBE" +:+ " " +:+ "news")) = ("SUBSCRIBE", "news").
Proof.
  apply (client_subscribe_reaches_server 4711 None "  SUBSCRIBE   news " "SUBSCRIBE" "   news "
           ["news"] (Client.mkState true (Some 1) false [] true) eq_refl).
  - left. reflexivity.
  - reflexivity.
  - reflexivity.
  - eexists. reflexivity.
  - reflexivity.
  - reflexivity.
Defined.

(** X26.  When the write of [send_command] fails, its [catch] block calls
    [cleanup_connection] while the [lock_guard] of [send_command] still
    holds [socket_mutex], and [cleanup_connection] locks that mutex again:
    the thread locks a [std::mutex] it owns, with the client still marked
    as connected. *)
Theorem failed_write_relocks (command : string) (st : Client.State) :
  Client.connected st = true ->
  is_Some (Client.global_socket st) ->
  Client.socket_mutex st = false ->
  Client.writable st = false ->
  Str.empty command = false ->
  Client.send_command command st = Client.Relocked (Client.with_mutex true st).
Proof.
  destruct st as [co gs mu se wr]. cbn. intros -> Hs -> -> He.
  unfold Client.send_command, Client.lock_guard. cbn.
  rewrite (bool_decide_eq_true_2 _ Hs), He. reflexivity.
Qed.

Lemma failed_write_relocks_witness :
  Client.send_command "SUBSCRIBE news" (Client.mkState true (Some 1) false [] false)
  = Client.Relocked (Client.mkState true (Some 1) true [] false).
Proof.
  apply (failed_write_relocks "SUBSCRIBE news" (Client.mkState true (Some 1) false [] false)
           eq_refl).
  - eexists. reflexivity.
  - reflexivity.
  - reflexivity.
  - reflexivity.
Defined.

(** X27.  While the client is not connected, no input line makes
    [process_command] write to a socket, CONNECT apart when the connection
    can be established; the call returns with the client still not
    connected and [socket_mutex] released. *)
Theorem not_connected_sends_nothing
    (pid : Z) (dial : option conn) (input : string) (st : Client.State) :
  Client.connected st = false ->
  Client.socket_mutex st = false ->
  dial = None \/ (forall rest, Parse.extract_word input <> Some ("CONNECT", rest)) ->
  exists st',
    Client.process_command pid dial input st = Client.Done st'
    /\ Client.sent st' = Client.sent st
    /\ Client.connected st' = false
    /\ Client.socket_mutex st' = false.
Proof.
  destruct st as [co gs mu se wr]. cbn. intros -> -> Hd.
  unfold Client.process_command.
  destruct (Parse.extract_word input) as [[command rest]|] eqn:Hc;
    [|eexists; split; [reflexivity|auto]].
  set (args := Client.extract_all (String.length rest) rest). clearbody args.
  unfold Client.command_handlers.
  destruct (String.eqb command "CONNECT") eqn:E1.
  { apply String.eqb_eq in E1. subst command.
    destruct Hd as [-> | Hd]; [|destruct (Hd rest eq_refl)].
    unfold Client.handle_connect.
    destruct (_ || _); [eexists; split; [reflexivity|auto]|].
    cbn. eexists; split; [reflexivity|auto]. }
  destruct (String.eqb command "DISCONNECT");
    [cbn; eexists; split; [reflexivity|auto]|].
  destruct (String.eqb command "PUBLISH").
  { unfold Client.handle_publish. destruct (_ <? _)%nat; cbn; eexists; split; reflexivity || auto. }
  destruct (String.eqb command "SUBSCRIBE").
  { unfold Client.handle_subscribe. destruct (negb _); cbn; eexists; split; reflexivity || auto. }
  destruct (String.eqb command "UNSUBSCRIBE").
  { unfold Client.handle_unsubscribe. destruct (negb _); cbn; eexists; split; reflexivity || auto. }
  eexists; split; [reflexivity|auto].
Qed.

Lemma not_connected_sends_nothing_witness :
  exists st',
    Client.process_command 4711 (Some 1) "PUBLISH news hello"
      (Client.mkState false None false [] true) = Client.Done st'
    /\ Client.sent st' = []
    /\ Client.connected st' = false
    /\ Client.socket_mutex st' = false.
Proof.
  apply (not_connected_sends_nothing 4711 (Some 1) "PUBLISH news hello"
           (Client.mkState false None false [] true) eq_refl eq_refl).
  right. intros rest. discriminate.
Defined.

(** * Every write of the client is one line *)

Section ClientLines.

Lemma send_command_effect command st :
  Client.socket_mutex st = false ->
  Client.writable st = true ->
  exists new,
    Client.send_command command st =
      Client.Done (Client.mkState (Client.connected st) (Client.global_socket st) false
                     (Client.sent st ++ new) true)
    /\ (new = [] \/ new = [line_of command]).
Proof.
  destruct st as [co gs mu se wr]. cbn. intros -> ->.
  unfold Client.send_command, Client.lock_guard. cbn.
  destruct (negb co || negb (bool_decide (is_Some gs))).
  - exists []. rewrite app_nil_r. auto.
  - destruct (Str.empty command).
    + exists []. rewrite app_nil_r. auto.
    + exists [line_of command]. auto.
Qed.

Lemma nth_no_newline (args : list string) i :
  Forall token args -> has_char Str.newline (nth i args "") = false.
Proof.
  intros H. revert i. induction H as [|a args Ha _ IH]; intros [|i]; cbn [nth];
    try reflexivity; [|apply IH].
  apply token_no_space; [reflexivity | exact Ha].
Qed.

Lemma oss_no_newline acc (words : list string) :
  has_char Str.newline acc = false -> Forall token words ->
  has_char Str.newline (foldl (fun oss arg => oss +:+ arg +:+ " ") acc words) = false.
Proof.
  intros Hacc H. revert acc Hacc. induction H as [|a words Ha _ IH]; intros acc Hacc;
    cbn [foldl]; [exact Hacc|].
  apply IH. rewrite !has_char_app, Hacc, (token_no_space Str.newline a eq_refl Ha).
  reflexivity.
Qed.

Lemma handler_writes_lines (h : list string -> Client.State -> Client.outcome)
    (line : list string -> string) (args : list string) (st : Client.State) :
  (forall st, h args st = Client.send_command (line args) st \/ h args st = Client.Done st) ->
  has_char Str.newline (line args) = false ->
  Client.socket_mutex st = false ->
  Client.writable st = true ->
  exists st' new,
    h args st = Client.Done st'
    /\ Client.socket_mutex st' = false
    /\ Client.writable st' = true
    /\ Client.sent st' = (Client.sent st ++ new)%list
    /\ (List.length new <= 1)%nat
    /\ Forall whole_line new.
Proof.
  intros Hh Hline Hmu Hwr. destruct (Hh st) as [-> | ->].
  - destruct (send_command_effect (line args) st Hmu Hwr) as (new & -> & Hnew).
    eexists. exists new. split; [reflexivity|]. cbn.
    repeat split; try reflexivity;
      destruct Hnew as [-> | ->]; cbn [List.length]; try lia; repeat constructor.
    exists (line args). auto.
  - exists st, []. rewrite app_nil_r. repeat split; auto.
Qed.

End ClientLines.

(** X28.  As long as writes to the socket succeed, every input line makes
    [process_command] return with [socket_mutex] released, having written
    nothing or one line: a command without a line feed, followed by the line
    feed. *)
Theorem client_writes_whole_lines
    (pid : Z) (dial : option conn) (input : string) (st : Client.State) :
  Client.socket_mutex st = false ->
  Client.writable st = true ->
  exists st' new,
    Client.process_command pid dial input st = Client.Done st'
    /\ Client.socket_mutex st' = false
    /\ Client.writable st' = true
    /\ Client.sent st' = (Client.sent st ++ new)%list
    /\ (List.length new <= 1)%nat
    /\ Forall whole_line new.
Proof.
  intros Hmu Hwr.
  unfold Client.process_command.
  destruct (Parse.extract_word input) as [[command rest]|].
  2:{ exists st, []. rewrite app_nil_r. cbn. repeat split; auto. }
  pose proof (extract_all_tokens (String.length rest) rest) as Htok.
  set (args := Client.extract_all (String.length rest) rest) in *. clearbody args.
  unfold Client.command_handlers.
  destruct (String.eqb command "CONNECT").
  { unfold Client.handle_connect.
    destruct (_ || _); [exists st, []; rewrite app_nil_r; cbn; repeat split; auto|].
    destruct (Client.connected st) eqn:Hco;
      [exists st, []; rewrite app_nil_r; cbn; repeat split; auto|].
    destruct st as [co gs mu se wr]. cbn in Hmu, Hwr, Hco. subst co mu wr.
    cbv [Client.cleanup_connection Client.lock_guard Client.with_mutex Client.socket_mutex
         Client.connected Client.global_socket Client.sent Client.writable].
    destruct dial as [socket|]; [|eexists; exists []; rewrite app_nil_r; cbn; repeat split; auto].
    match goal with |- context [Client.send_command ?c ?s] =>
      destruct (send_command_effect c s eq_refl eq_refl) as (new & -> & Hnew);
      assert (has_char Str.newline c = false) as Hline
    end.
    { rewrite !has_char_app. cbn [has_char].
      rewrite !nth_no_newline by exact Htok.
      rewrite (to_string_no_space Str.newline pid eq_refl). reflexivity. }
    eexists. exists new. split; [reflexivity|]. cbn.
    repeat split; try reflexivity;
      destruct Hnew as [-> | ->]; cbn [List.length]; try lia; repeat constructor.
    eexists. split; [reflexivity | exact Hline]. }
  destruct (String.eqb command "DISCONNECT").
  { unfold Client.handle_disconnect.
    destruct (send_command_effect "DISCONNECT" st Hmu Hwr) as (new & -> & Hnew).
    unfold Client.cleanup_connection, Client.lock_guard. cbn.
    eexists. exists new. split; [reflexivity|]. cbn.
    repeat split; try reflexivity;
      destruct Hnew as [-> | ->]; cbn [List.length]; try lia; repeat constructor.
    exists "DISCONNECT". auto. }
  destruct (String.eqb command "PUBLISH").
  { apply (handler_writes_lines Client.handle_publish
             (fun args => foldl (fun oss arg => oss +:+ arg +:+ " ")
                                ("PUBLISH " +:+ nth 0 args "" +:+ " ") (drop 1 args)));
      [| |exact Hmu|exact Hwr].
    - intros s. unfold Client.handle_publish. destruct (_ <? _)%nat; auto.
    - apply oss_no_newline.
      + rewrite !has_char_app. cbn [has_char]. rewrite nth_no_newline by exact Htok. reflexivity.
      + apply Forall_drop. exact Htok. }
  destruct (String.eqb command "SUBSCRIBE").
  { apply (handler_writes_lines Client.handle_subscribe
             (fun args => "SUBSCRIBE " +:+ nth 0 args "")); [| |exact Hmu|exact Hwr].
    - intros s. unfold Client.handle_subscribe. destruct (negb _); auto.
    - rewrite has_char_app, nth_no_newline by exact Htok. reflexivity. }
  destruct (String.eqb command "UNSUBSCRIBE").
  { apply (handler_writes_lines Client.handle_unsubscribe
             (fun args => "UNSUBSCRIBE " +:+ nth 0 args "")); [| |exact Hmu|exact Hwr].
    - intros s. unfold Client.handle_unsubscribe. destruct (negb _); auto.
    - rewrite has_char_app, nth_no_newline by exact Htok. reflexivity. }
  exists st, []. rewrite app_nil_r. cbn. repeat split; auto.
Qed.

Lemma client_writes_whole_lines_witness :
  exists st' new,
    Client.process_command 4711 None "PUBLISH news hello"
      (Client.mkState true (Some 1) false [] true) = Client.Done st'
    /\ Client.socket_mutex st' = false
    /\ Client.writable st' = true
    /\ Client.sent st' = ([] ++ new)%list
    /\ (List.length new <= 1)%nat
    /\ Forall whole_line new.
Proof.
  apply (client_writes_whole_lines 4711 None "PUBLISH news hello"
           (Client.mkState true (Some 1) false [] true) eq_refl eq_refl).
Defined.
